(** * differentiable_rmap: reachability-map planning, checked against its specification

    A shallow embedding of the parts of [mmurooka/differentiable_rmap] that
    its specification makes checkable statements about:

    - [SamplingUtils.h]: the [SamplingSpace] enumeration and [std::to_string];
    - [RmapSampling.cpp]: [dumpSampleSet] and the factory [createRmapSampling];
    - [RmapPlanningFootstep.cpp]: [setup], [runOnce] and the factory
      [createRmapPlanningFootstep];
    - [RmapPlanningLocomanip.cpp]: [setup] and [runOnce].

    Conventions of the embedding.
    - A C++ [double] is a rational number ([Q]); equality of computed scalars
      is [Qeq] ([==]) unless a value is copied unchanged, where it is [=].
    - A C++ [int] is a [Z].  Dimension arithmetic is not wrapped: a QP whose
      dimensions leave the range of [int] cannot be allocated.
    - A fixed-size Eigen vector ([Sample], [Vel]) and a [std::vector] are
      lists; a dynamic Eigen vector or matrix of the QP is a function from
      indices to entries, its dimensions being fields of [QpCoeff].
    - [for (int i = 0; i < n; i++)] is [for_loop n body].
    - Code that is not part of the files above (the manifold arithmetic of
      [SamplingUtils.hpp], the classifier of [SVMUtils.h], the QP solver of
      optmotiongen) enters as the operations of a type class, or is
      modelled from the specification where a definition says so. *)

From Stdlib Require Import ZArith QArith Qminmax Lia Lqa List Bool.
From Stdlib Require Import Ascii String DecimalString Permutation.
From stdpp Require Import base list.
Import ListNotations.

Local Open Scope Z_scope.

(** ** Control flow and errors *)

(** [for (int i = 0; i < n; i++) s = body(i, s);] *)
Definition for_loop {S : Type} (n : Z) (body : Z -> S -> S) (s : S) : S :=
  fold_left (fun acc i => body (Z.of_nat i) acc) (seq 0 (Z.to_nat n)) s.

(** The outcome of a call that may leave through [throw]. *)
Inductive result (A : Type) : Type :=
| Ok (a : A)
| Throw (what : string).
Arguments Ok {A} a.
Arguments Throw {A} what.

Definition bind {A B : Type} (r : result A) (k : A -> result B) : result B :=
  match r with
  | Ok a => k a
  | Throw w => Throw w
  end.

Notation "x <- r ;; k" := (bind r (fun x => k))
  (at level 100, r at next level, right associativity).

(** fmt-style formatting with one argument: the first [{}] of the format
    string is replaced by the argument. *)
Fixpoint format (fmt arg : string) : string :=
  match fmt with
  | EmptyString => EmptyString
  | String c rest =>
      match rest with
      | String d rest' =>
          if (Ascii.eqb c "{" && Ascii.eqb d "}")%bool
          then (arg ++ rest')%string
          else String c (format rest arg)
      | EmptyString => String c EmptyString
      end
  end.

(** [mc_rtc::log::error_and_throw<std::runtime_error>(fmt, arg)] *)
Definition error_and_throw {A : Type} (fmt arg : string) : result A :=
  Throw (format fmt arg).

(** Decimal rendering of an [int], as fmt prints it. *)
Definition show_int (v : Z) : string := NilZero.string_of_int (Z.to_int v).

(** ** SamplingUtils.h *)

Module SamplingUtils.

(** [enum class SamplingSpace]: the six enumerators. *)
Inductive SamplingSpace : Set := R2 | SO2 | SE2 | R3 | SO3 | SE3.

(** The enumerators' values.  An object of the enumeration type holds an
    [int], and a cast can give it any value: the factories and [to_string]
    take that [int]. *)
Definition enumValue (s : SamplingSpace) : Z :=
  match s with
  | R2 => 21 | SO2 => 22 | SE2 => 23
  | R3 => 31 | SO3 => 32 | SE3 => 33
  end.

Definition all_spaces : list SamplingSpace := [R2; SO2; SE2; R3; SO3; SE3].

(** A value is recognized when it is the value of an enumerator. *)
Definition recognized (v : Z) : Prop := exists s, v = enumValue s.

(** Modelled from the spec: [velDim<SamplingSpaceType>()], defined in
    [SamplingUtils.hpp]; the tangent dimensions of section 3 of the
    specification. *)
Definition velDim (s : SamplingSpace) : Z :=
  match s with
  | R2 => 2 | SO2 => 1 | SE2 => 3
  | R3 => 3 | SO3 => 3 | SE3 => 6
  end.

(** [std::to_string(SamplingSpace)] *)
Definition to_string (sampling_space : Z) : result string :=
  if sampling_space =? enumValue R2 then Ok "R2"%string
  else if sampling_space =? enumValue SO2 then Ok "SO2"%string
  else if sampling_space =? enumValue SE2 then Ok "SE2"%string
  else if sampling_space =? enumValue R3 then Ok "R3"%string
  else if sampling_space =? enumValue SO3 then Ok "SO3"%string
  else if sampling_space =? enumValue SE3 then Ok "SE3"%string
  else error_and_throw "[to_string] Unsupported SamplingSpace: {}"
                       (show_int sampling_space).

End SamplingUtils.
Export SamplingUtils.

(** ** The factories *)

Module Factory.

(** What [std::make_shared<...>] builds: an object of one specialization of
    a class template, holding its constructor's arguments.  A
    [shared_ptr] made so is never null. *)
Inductive RmapPlanningBase : Type :=
| RmapPlanningFootstep (SamplingSpaceType : SamplingSpace)
                       (svm_path bag_path : string).

Inductive RmapSamplingBase (Robot : Type) : Type :=
| RmapSampling (SamplingSpaceType : SamplingSpace)
               (rb : Robot) (body_name : string)
               (joint_name_list : list string).
Arguments RmapSampling {Robot}.

Definition createRmapPlanningFootstep
    (sampling_space : Z) (svm_path bag_path : string)
  : result RmapPlanningBase :=
  if sampling_space =? enumValue R2 then
    Ok (RmapPlanningFootstep R2 svm_path bag_path)
  else if sampling_space =? enumValue SO2 then
    Ok (RmapPlanningFootstep SO2 svm_path bag_path)
  else if sampling_space =? enumValue SE2 then
    Ok (RmapPlanningFootstep SE2 svm_path bag_path)
  else if sampling_space =? enumValue R3 then
    Ok (RmapPlanningFootstep R3 svm_path bag_path)
  else if sampling_space =? enumValue SO3 then
    Ok (RmapPlanningFootstep SO3 svm_path bag_path)
  else if sampling_space =? enumValue SE3 then
    Ok (RmapPlanningFootstep SE3 svm_path bag_path)
  else
    name <- to_string sampling_space ;;
    error_and_throw
      "[createRmapPlanningFootstep] Unsupported SamplingSpace: {}" name.

Definition createRmapSampling {Robot : Type}
    (sampling_space : Z) (rb : Robot) (body_name : string)
    (joint_name_list : list string)
  : result (RmapSamplingBase Robot) :=
  if sampling_space =? enumValue R2 then
    Ok (RmapSampling R2 rb body_name joint_name_list)
  else if sampling_space =? enumValue SO2 then
    Ok (RmapSampling SO2 rb body_name joint_name_list)
  else if sampling_space =? enumValue SE2 then
    Ok (RmapSampling SE2 rb body_name joint_name_list)
  else if sampling_space =? enumValue R3 then
    Ok (RmapSampling R3 rb body_name joint_name_list)
  else if sampling_space =? enumValue SO3 then
    Ok (RmapSampling SO3 rb body_name joint_name_list)
  else if sampling_space =? enumValue SE3 then
    Ok (RmapSampling SE3 rb body_name joint_name_list)
  else
    name <- to_string sampling_space ;;
    error_and_throw "[createRmapSampling] Unsupported SamplingSpace: {}" name.

(** The message of the error that an unrecognized value ends in: the
    argument of the factory's own [error_and_throw] is evaluated first, and
    [std::to_string] throws while rendering it. *)
Definition unsupported_message (v : Z) : string :=
  ("[to_string] Unsupported SamplingSpace: " ++ show_int v)%string.

End Factory.

(** ** RmapSampling.cpp: [dumpSampleSet] *)

Module RmapSampling.

Local Open Scope nat_scope.

(** A sample: a fixed-size vector of [sample_dim] doubles. *)
Definition Sample : Type := list Q.

(** [for (size_t i = 0; i < n; i++) s = body(i, s);] *)
Definition for_each_index {S : Type} (n : nat) (body : nat -> S -> S) (s : S) : S :=
  fold_left (fun acc i => body i acc) (seq 0 n) s.

(** The message types [differentiable_rmap/RmapSample] and
    [differentiable_rmap/RmapSampleSet]. *)
Record RmapSample : Type := mkRmapSample {
  position : list Q;
  is_reachable : bool
}.

Record RmapSampleSet : Type := mkRmapSampleSet {
  type : Z;
  samples : list RmapSample;
  min : list Q;
  max : list Q
}.

(** A value-initialized message element, as [resize] creates it. *)
Definition empty_sample : RmapSample :=
  {| position := []; is_reachable := false |}.

(** The sentinels the running minimum and maximum start from. *)
Definition sentinel_min : Q := 10000000000.
Definition sentinel_max : Q := - (10000000000).

(** [a.cwiseMin(b)] and [a.cwiseMax(b)] on vectors of one size. *)
Definition cwiseMin (a b : Sample) : Sample := zip_with Qmin a b.
Definition cwiseMax (a b : Sample) : Sample := zip_with Qmax a b.

(** [dst.resize(sample_dim); for (j < sample_dim) dst[j] = src[j];] on an
    empty [dst]. *)
Definition copy_vector (sample_dim : nat) (src : Sample) : list Q :=
  for_each_index sample_dim
    (fun j dst => <[j := nth j src 0%Q]> dst)
    (repeat 0%Q sample_dim).

(** The variables of the loop of [dumpSampleSet]. *)
Record DumpState : Type := mkDumpState {
  msg_samples : list RmapSample;
  sample_min : Sample;
  sample_max : Sample;
  reachable_idx : nat;
  unreachable_idx : nat
}.

Section Dump.
Variable SamplingSpaceType : SamplingSpace.
(** [sample_dim_ = sampleDim<SamplingSpaceType>()], defined in
    [SamplingUtils.hpp]. *)
Variable sample_dim : nat.
Variable sample_list : list Sample.
Variable reachability_list : list bool.

Definition dump_init : DumpState :=
  {| msg_samples := repeat empty_sample (length sample_list);
     sample_min := repeat sentinel_min sample_dim;
     sample_max := repeat sentinel_max sample_dim;
     reachable_idx := 0;
     unreachable_idx := 0 |}.

(** One turn of the loop over the samples. *)
Definition dump_step (i : nat) (st : DumpState) : DumpState :=
  let sample := nth i sample_list [] in
  let reachable := nth i reachability_list false in
  let msg_idx :=
    if reachable then reachable_idx st
    else length sample_list - 1 - unreachable_idx st in
  {| msg_samples :=
       <[msg_idx := {| position := copy_vector sample_dim sample;
                       is_reachable := reachable |}]> (msg_samples st);
     sample_min := cwiseMin (sample_min st) sample;
     sample_max := cwiseMax (sample_max st) sample;
     reachable_idx :=
       if reachable then S (reachable_idx st) else reachable_idx st;
     unreachable_idx :=
       if reachable then unreachable_idx st else S (unreachable_idx st) |}.

Definition dump_loop : DumpState :=
  for_each_index (length sample_list) dump_step dump_init.

(** The message that [dumpSampleSet] writes to the bag. *)
Definition dumpSampleSet : RmapSampleSet :=
  let st := dump_loop in
  {| type := enumValue SamplingSpaceType;
     samples := msg_samples st;
     min := copy_vector sample_dim (sample_min st);
     max := copy_vector sample_dim (sample_max st) |}.
End Dump.

(** The records that the first [k] turns of the loop write, in the order of
    the input. *)
Definition written_records (sample_dim : nat) (sample_list : list Sample)
    (reachability_list : list bool) (k : nat) : list RmapSample :=
  map (fun i => {| position := copy_vector sample_dim (nth i sample_list []);
                   is_reachable := nth i reachability_list false |})
      (seq 0 k).

Definition reachable_part (l : list RmapSample) : list RmapSample :=
  List.filter is_reachable l.

Definition unreachable_part (l : list RmapSample) : list RmapSample :=
  List.filter (fun r => negb (is_reachable r)) l.

(** The record of one input sample. *)
Definition record_of (sample : Sample) (reachable : bool) : RmapSample :=
  {| position := sample; is_reachable := reachable |}.

(** [m] is the least of the numbers [xs]: one of them, and below all. *)
Definition least_of (m : Q) (xs : list Q) : Prop :=
  (exists x, In x xs /\ (m == x)%Q) /\ Forall (fun x => (m <= x)%Q) xs.

(** [m] is the greatest of the numbers [xs]. *)
Definition greatest_of (m : Q) (xs : list Q) : Prop :=
  (exists x, In x xs /\ (m == x)%Q) /\ Forall (fun x => (x <= m)%Q) xs.

(** Every component of every sample lies between the two sentinels. *)
Definition within_sentinels (l : list Sample) : Prop :=
  Forall (Forall (fun x => (sentinel_max <= x)%Q /\ (x <= sentinel_min)%Q)) l.

(** The [k]-th components of the samples. *)
Definition component (k : nat) (l : list Sample) : list Q :=
  map (fun s => nth k s 0%Q) l.

(** The specification's reading of the persisted bounds: each component of
    [mn] ([mx]) is the least (greatest) of that component over the input
    samples. *)
Definition bounds_of_samples (sample_dim : nat) (l : list Sample)
    (mn mx : list Q) : Prop :=
  forall k, k < sample_dim ->
    least_of (nth k mn 0%Q) (component k l)
    /\ greatest_of (nth k mx 0%Q) (component k l).

End RmapSampling.

(** ** Eigen vectors and matrices *)

Module Eigen.

(** Fixed-size vectors and matrices: the entries, in order (a matrix by
    rows). *)
Definition Sample : Type := list Q.
Definition Vel : Type := list Q.
Definition VelToVelMat : Type := list (list Q).

(** Dynamic vectors and matrices: the entry at an index. *)
Definition VectorXd : Type := Z -> Q.
Definition MatrixXd : Type := Z -> Z -> Q.

(** [lo <= j < lo + len] *)
Definition in_range (lo len j : Z) : bool := (lo <=? j) && (j <? lo + len).

Definition entry (l : list Q) (k : Z) : Q := nth (Z.to_nat k) l 0%Q.

(** [setZero()] *)
Definition zero_vec : VectorXd := fun _ => 0%Q.
Definition zero_mat : MatrixXd := fun _ _ => 0%Q.

(** [v.setConstant(c)] *)
Definition setConstant (c : Q) : VectorXd := fun _ => c.

(** [v.segment(lo, len).setConstant(c)] *)
Definition segment_setConstant (v : VectorXd) (lo len : Z) (c : Q) : VectorXd :=
  fun j => if in_range lo len j then c else v j.

(** [v.segment<len>(lo) = l] *)
Definition segment_assign (v : VectorXd) (lo len : Z) (l : list Q) : VectorXd :=
  fun j => if in_range lo len j then entry l (j - lo) else v j.

(** [v.segment<len>(lo)] read into a fixed-size vector *)
Definition segment (v : VectorXd) (lo len : Z) : list Q :=
  map (fun k => v (lo + Z.of_nat k)) (seq 0 (Z.to_nat len)).

(** [v.segment(lo, len) -= l] *)
Definition segment_sub (v : VectorXd) (lo len : Z) (l : list Q) : VectorXd :=
  fun j => if in_range lo len j then (v j - entry l (j - lo))%Q else v j.

(** [m.block<len, len>(r0, c0).diagonal().setConstant(c)] *)
Definition block_diagonal_setConstant
    (m : MatrixXd) (r0 c0 len : Z) (c : Q) : MatrixXd :=
  fun r k => if in_range r0 len r && (k - c0 =? r - r0) then c else m r k.

(** [m.diagonal().segment(lo, len).setConstant(c)] *)
Definition diagonal_setConstant (m : MatrixXd) (lo len : Z) (c : Q) : MatrixXd :=
  block_diagonal_setConstant m lo lo len c.

(** [m.diagonal().segment(lo, len).array() += c] *)
Definition diagonal_add (m : MatrixXd) (lo len : Z) (c : Q) : MatrixXd :=
  fun r k => if in_range lo len r && (k =? r) then (m r k + c)%Q else m r k.

(** [m.block<1, len>(r, c0) = l] *)
Definition row_block_assign
    (m : MatrixXd) (r c0 len : Z) (l : list Q) : MatrixXd :=
  fun i k => if (i =? r) && in_range c0 len k then entry l (k - c0) else m i k.

(** [sum_{k < n} f k], accumulated from the left *)
Definition sumQ (n : Z) (f : Z -> Q) : Q :=
  for_loop n (fun k acc => (acc + f k)%Q) 0%Q.

(** [v.squaredNorm()] of a dynamic vector of size [n], and of a fixed-size
    vector *)
Definition squaredNorm_dyn (n : Z) (v : VectorXd) : Q :=
  sumQ n (fun k => (v k * v k)%Q).

Definition squaredNorm (l : list Q) : Q :=
  fold_left (fun acc x => (acc + x * x)%Q) l 0%Q.

(** [m * v] for [m] with [n] columns *)
Definition mat_vec (n : Z) (m : MatrixXd) (v : VectorXd) : VectorXd :=
  fun r => sumQ n (fun k => (m r k * v k)%Q).

(** [a.head(n) += b] and [a.topLeftCorner(n, n) += b] *)
Definition head_add (n : Z) (a b : VectorXd) : VectorXd :=
  fun j => if in_range 0 n j then (a j + b j)%Q else a j.

Definition topLeftCorner_add (n : Z) (a b : MatrixXd) : MatrixXd :=
  fun r k => if in_range 0 n r && in_range 0 n k then (a r k + b r k)%Q
             else a r k.

(** [c * l] *)
Definition scale (c : Q) (l : list Q) : list Q := map (fun x => (c * x)%Q) l.

(** [g.transpose() * J]: the row vector [sum_j g_j * J_{j,k}], for a
    [len] by [len] matrix [J]. *)
Definition row_times (len : Z) (g : list Q) (J : VelToVelMat) : list Q :=
  map (fun k => sumQ len (fun j => (entry g j * entry (nth (Z.to_nat j) J []) (Z.of_nat k))%Q))
      (seq 0 (Z.to_nat len)).

(** [l.tail<n>() *= -1] *)
Definition tail_negate (n : nat) (l : list Q) : list Q :=
  firstn (length l - n) l ++ map (fun x => (x * -1)%Q) (skipn (length l - n) l).

(** [J.bottomRows<n>() *= -1] *)
Definition bottomRows_negate (n : nat) (J : VelToVelMat) : VelToVelMat :=
  firstn (length J - n) J
  ++ map (map (fun x => (x * -1)%Q)) (skipn (length J - n) J).

End Eigen.
Export Eigen.

(** ** The collaborators *)

(** [OmgCore::QpCoeff] of optmotiongen: the coefficients of
    [min 1/2 x' H x + g' x  s.t.  A x <= b,  x_min <= x <= x_max]. *)
Record QpCoeff : Type := mkQpCoeff {
  dim_var_ : Z;
  dim_eq_ : Z;
  dim_ineq_ : Z;
  obj_mat_ : MatrixXd;
  obj_vec_ : VectorXd;
  ineq_mat_ : MatrixXd;
  ineq_vec_ : VectorXd;
  x_min_ : VectorXd;
  x_max_ : VectorXd
}.

(** [QpCoeff::setup(dim_var, dim_eq, dim_ineq)]: the dimensions are
    recorded and every coefficient is zero. *)
Definition QpCoeff_setup (dim_var dim_eq dim_ineq : Z) : QpCoeff :=
  {| dim_var_ := dim_var; dim_eq_ := dim_eq; dim_ineq_ := dim_ineq;
     obj_mat_ := zero_mat; obj_vec_ := zero_vec;
     ineq_mat_ := zero_mat; ineq_vec_ := zero_vec;
     x_min_ := zero_vec; x_max_ := zero_vec |}.

(** [qp_solver_->solve(qp_coeff_)]: the vector it returns, and the flag
    [solve_failed_] it leaves behind. *)
Definition QpSolver : Type := QpCoeff -> VectorXd * bool.

(** The operations of one sampling space that the planners call:
    [sva::PTransformd] and its product, the conversions and manifold
    arithmetic declared in [SamplingUtils.h], and the classifier of
    [SVMUtils.h]. *)
Class Manifold : Type := {
  Pose : Type;
  pose_identity : Pose;
  pose_mul : Pose -> Pose -> Pose;
  (** the pose with its lateral translation and its yaw negated
      ([RmapPlanningFootstep::setup], the branch of odd steps) *)
  pose_mirror : Pose -> Pose;
  poseToSample : Pose -> Sample;
  sampleError : Sample -> Sample -> Vel;
  relSample : Sample -> Sample -> Sample;
  relVelToVelMat : Sample -> Sample -> bool -> VelToVelMat;
  integrateVelToSample : Sample -> Vel -> Sample;
  SvmModel : Type;
  calcSVMValue : SvmModel -> Sample -> Q;
  calcSVMGrad : SvmModel -> Sample -> Vel
}.

(** ** RmapPlanningFootstep.cpp *)

Module Footstep.

(** The fields of [RmapPlanningFootstep::Configuration] (and of its base)
    that [setup] and [runOnce] read. *)
Record Configuration {M : Manifold} : Type := mkConfiguration {
  footstep_num : Z;
  delta_config_limit : Q;
  adjacent_reg_weight : Q;
  svm_thre : Q;
  alternate_lr : bool;
  initial_sample_pose : Pose
}.
Arguments Configuration : clear implicits.

(** The members of the planner that [setup] and [runOnce] write. *)
Record Planner : Type := mkPlanner {
  qp_coeff_ : QpCoeff;
  adjacent_reg_mat_ : MatrixXd;
  current_sample_seq_ : list Sample;
  target_sample_ : Sample
}.

Definition is_SE2 (s : SamplingSpace) : bool :=
  match s with SE2 => true | _ => false end.

Section Planner.
Context {M : Manifold}.
Variable SamplingSpaceType : SamplingSpace.
Variable config_ : Configuration M.
Variable svm_mo_ : SvmModel.
Variable qp_solver_ : QpSolver.

Definition vel_dim_ : Z := velDim SamplingSpaceType.

(** [identity_sample_] *)
Definition identity_sample_ : Sample := poseToSample pose_identity.

(** [if constexpr (SamplingSpaceType == SE2)] and
    [config_.alternate_lr && (i % 2 == 1)] *)
Definition mirrored (i : Z) : bool :=
  is_SE2 SamplingSpaceType && (alternate_lr config_ && (Z.rem i 2 =? 1)).

(** The initial sample sequence: lines 67-86. *)
Definition initial_sample_seq : list Sample :=
  snd (for_loop (footstep_num config_)
         (fun i '(accum_initial_sample_pose, sample_seq) =>
            let initial :=
              if mirrored i then pose_mirror (initial_sample_pose config_)
              else initial_sample_pose config_ in
            let accum := pose_mul initial accum_initial_sample_pose in
            (accum, <[Z.to_nat i := poseToSample accum]> sample_seq))
         (pose_identity,
          repeat [] (Z.to_nat (footstep_num config_)))).

(** The adjacency regularization of a chain of [len] waypoints whose
    first block starts at row and column [start] (lines 88-99; the same
    loop is written twice in [RmapPlanningLocomanip::setup]). *)
Definition adjacent_chain (start len : Z) (weight : Q) (m : MatrixXd)
  : MatrixXd :=
  for_loop len
    (fun i m =>
       let m :=
         block_diagonal_setConstant m
           (start + i * vel_dim_) (start + i * vel_dim_) vel_dim_
           (inject_Z (if i =? len - 1 then 1 else 2) * weight)%Q in
       if negb (i =? len - 1) then
         let m :=
           block_diagonal_setConstant m
             (start + (i + 1) * vel_dim_) (start + i * vel_dim_) vel_dim_
             (- weight)%Q in
         block_diagonal_setConstant m
           (start + i * vel_dim_) (start + (i + 1) * vel_dim_) vel_dim_
           (- weight)%Q
       else m)
    m.

(** [RmapPlanningFootstep::setup] *)
Definition setup (p : Planner) : Planner :=
  let qp := QpCoeff_setup (vel_dim_ * footstep_num config_) 0
                          (footstep_num config_) in
  let qp :=
    {| dim_var_ := dim_var_ qp; dim_eq_ := dim_eq_ qp;
       dim_ineq_ := dim_ineq_ qp;
       obj_mat_ := obj_mat_ qp; obj_vec_ := obj_vec_ qp;
       ineq_mat_ := ineq_mat_ qp; ineq_vec_ := ineq_vec_ qp;
       x_min_ := setConstant (- delta_config_limit config_)%Q;
       x_max_ := setConstant (delta_config_limit config_) |} in
  {| qp_coeff_ := qp;
     adjacent_reg_mat_ :=
       adjacent_chain 0 (footstep_num config_)
                      (adjacent_reg_weight config_) zero_mat;
     current_sample_seq_ := initial_sample_seq;
     target_sample_ := target_sample_ p |}.

(** [current_sample_seq_[i]] and [current_sample_seq_.back()] *)
Definition sample_at (sample_seq : list Sample) (i : Z) : Sample :=
  nth (Z.to_nat i) sample_seq [].

Definition back (sample_seq : list Sample) : Sample := List.last sample_seq [].

(** The error of the last waypoint with respect to the target, as
    [runOnce] computes it. *)
Definition target_error (p : Planner) : Vel :=
  sampleError (target_sample_ p) (back (current_sample_seq_ p)).

(** Lines 107-113: the objective before the adjacency regularization is
    added.  The result is [(obj_mat_, obj_vec_, lambda)]. *)
Definition objective_without_adjacency (p : Planner)
  : MatrixXd * VectorXd * Q :=
  let dim := dim_var_ (qp_coeff_ p) in
  let obj_vec := zero_vec in
  let obj_vec :=
    segment_assign obj_vec (dim - vel_dim_) vel_dim_ (target_error p) in
  let lambda := (squaredNorm_dyn dim obj_vec + 1 / 1000)%Q in
  let obj_mat := zero_mat in
  let obj_mat := diagonal_setConstant obj_mat (dim - vel_dim_) vel_dim_ 1 in
  let obj_mat := diagonal_add obj_mat 0 dim lambda in
  (obj_mat, obj_vec, lambda).

(** Lines 114-119: [current_config].  The vector is created without
    initial values; the loop writes every entry. *)
Definition current_config (p : Planner) : VectorXd :=
  for_loop (footstep_num config_)
    (fun i v =>
       segment_assign v (i * vel_dim_) vel_dim_
         (sampleError identity_sample_ (sample_at (current_sample_seq_ p) i)))
    zero_vec.

(** Lines 106-121: the objective of the QP. *)
Definition objective (p : Planner) : MatrixXd * VectorXd :=
  let dim := dim_var_ (qp_coeff_ p) in
  let '(obj_mat, obj_vec, _) := objective_without_adjacency p in
  let obj_vec :=
    fun j => (obj_vec j
              + mat_vec dim (adjacent_reg_mat_ p) (current_config p) j)%Q in
  let obj_mat := fun r k => (obj_mat r k + adjacent_reg_mat_ p r k)%Q in
  (obj_mat, obj_vec).

(** The quantities of step [i] of the inequality loop (lines 127-153). *)
Definition pre_sample (p : Planner) (i : Z) : Sample :=
  if i =? 0 then poseToSample pose_identity
  else sample_at (current_sample_seq_ p) (i - 1).

Definition suc_sample (p : Planner) (i : Z) : Sample :=
  sample_at (current_sample_seq_ p) i.

Definition rel_sample (p : Planner) (i : Z) : Sample :=
  let rel := relSample (pre_sample p i) (suc_sample p i) in
  if mirrored i then tail_negate 2 rel else rel.

Definition rel_vel_mat (p : Planner) (i : Z) (wrt_suc : bool) : VelToVelMat :=
  let J := relVelToVelMat (pre_sample p i) (suc_sample p i) wrt_suc in
  if mirrored i then bottomRows_negate 2 J else J.

(** [-1 * svm_grad.transpose() * rel_vel_mat] *)
Definition ineq_row (p : Planner) (i : Z) (wrt_suc : bool) : list Q :=
  row_times vel_dim_
    (scale (-1) (calcSVMGrad svm_mo_ (rel_sample p i)))
    (rel_vel_mat p i wrt_suc).

(** Lines 123-156: the inequality matrix and vector. *)
Definition inequality (p : Planner) : MatrixXd * VectorXd :=
  for_loop (footstep_num config_)
    (fun i '(ineq_mat, ineq_vec) =>
       let ineq_mat :=
         row_block_assign ineq_mat i (i * vel_dim_) vel_dim_
                          (ineq_row p i true) in
       let ineq_vec :=
         segment_assign ineq_vec i 1
           [(calcSVMValue svm_mo_ (rel_sample p i) - svm_thre config_)%Q] in
       let ineq_mat :=
         if 0 <? i then
           row_block_assign ineq_mat i ((i - 1) * vel_dim_) vel_dim_
                            (ineq_row p i false)
         else ineq_mat in
       (ineq_mat, ineq_vec))
    (zero_mat, zero_vec).

(** Lines 161-165: the velocities are integrated into the waypoints. *)
Definition integrate (vel_all : VectorXd) (sample_seq : list Sample)
  : list Sample :=
  for_loop (footstep_num config_)
    (fun i sample_seq =>
       <[Z.to_nat i :=
           integrateVelToSample (sample_at sample_seq i)
             (segment vel_all (i * vel_dim_) vel_dim_)]> sample_seq)
    sample_seq.

(** Lines 106-156: the coefficients handed to the solver. *)
Definition assemble (p : Planner) : QpCoeff :=
  {| dim_var_ := dim_var_ (qp_coeff_ p);
     dim_eq_ := dim_eq_ (qp_coeff_ p);
     dim_ineq_ := dim_ineq_ (qp_coeff_ p);
     obj_mat_ := fst (objective p); obj_vec_ := snd (objective p);
     ineq_mat_ := fst (inequality p); ineq_vec_ := snd (inequality p);
     x_min_ := x_min_ (qp_coeff_ p); x_max_ := x_max_ (qp_coeff_ p) |}.

(** [RmapPlanningFootstep::runOnce], without the publishing.  The flag
    [solve_failed_] of the solver is not read. *)
Definition runOnce (p : Planner) : Planner :=
  let qp := assemble p in
  let vel_all := fst (qp_solver_ qp) in
  {| qp_coeff_ := qp;
     adjacent_reg_mat_ := adjacent_reg_mat_ p;
     current_sample_seq_ := integrate vel_all (current_sample_seq_ p);
     target_sample_ := target_sample_ p |}.
(** The interactive target moves between two iterations. *)
Definition set_target (s : Sample) (p : Planner) : Planner :=
  {| qp_coeff_ := qp_coeff_ p;
     adjacent_reg_mat_ := adjacent_reg_mat_ p;
     current_sample_seq_ := current_sample_seq_ p;
     target_sample_ := s |}.

(** The states of a planner that has been set up: [runLoop] calls
    [setup] once and [runOnce] from then on. *)
Inductive configured : Planner -> Prop :=
| configured_setup (p : Planner) : configured (setup p)
| configured_runOnce (p : Planner) :
    configured p -> configured (runOnce p)
| configured_target (s : Sample) (p : Planner) :
    configured p -> configured (set_target s p).
End Planner.

End Footstep.

(** ** RmapPlanningLocomanip.cpp *)

Module Locomanip.

(** The limbs that the planner names. *)
Inductive Limb : Set := LeftFoot | RightFoot | LeftHand.

Definition Limb_eqb (a b : Limb) : bool :=
  match a, b with
  | LeftFoot, LeftFoot | RightFoot, RightFoot | LeftHand, LeftHand => true
  | _, _ => false
  end.

(** [Limbs::all] *)
Definition all_limbs : list Limb := [LeftFoot; RightFoot; LeftHand].

(** [std::unordered_map<Limb, SampleType>] *)
Definition SampleMap : Type := Limb -> option Sample.

(** [m.emplace(limb, s)]: an entry that is there already is kept. *)
Definition emplace (m : SampleMap) (limb : Limb) (s : Sample) : SampleMap :=
  fun l =>
    if Limb_eqb l limb then
      match m l with
      | Some old => Some old
      | None => Some s
      end
    else m l.

(** [m.at(limb)].  It throws when the limb has no entry; [setup] gives
    every limb one. *)
Definition at_limb (m : SampleMap) (limb : Limb) : Sample :=
  match m limb with
  | Some s => s
  | None => []
  end.

(** The fields of [RmapPlanningLocomanip::Configuration] that [setup] and
    [runOnce] read. *)
Record Configuration {M : Manifold} : Type := mkConfiguration {
  motion_len : Z;
  delta_config_limit : Q;
  adjacent_reg_weight : Q;
  reg_weight : Q;
  svm_ineq_weight : Q;
  svm_thre : Q;
  (** [initial_sample_pose_list]: a map from limbs to poses *)
  initial_sample_pose_list : Limb -> option Pose
}.
Arguments Configuration : clear implicits.

(** The members of the planner that [setup] and [runOnce] write. *)
Record Planner : Type := mkPlanner {
  config_dim_ : Z;
  svm_ineq_dim_ : Z;
  collision_ineq_dim_ : Z;
  hand_start_config_idx_ : Z;
  qp_coeff_ : QpCoeff;
  adjacent_reg_mat_ : MatrixXd;
  start_sample_list_ : SampleMap;
  current_foot_sample_seq_ : list Sample;
  current_hand_sample_seq_ : list Sample;
  target_hand_sample_ : Sample
}.

Section Planner.
Context {M : Manifold}.
(** The sampling space of the planner is fixed in its header. *)
Variable SamplingSpaceType : SamplingSpace.
Variable config_ : Configuration M.
(** [rmapPlanning(limb)]: the classifier of each limb *)
Variable rmapPlanning : Limb -> SvmModel.
Variable qp_solver_ : QpSolver.

Definition vel_dim_ : Z := velDim SamplingSpaceType.

Definition identity_sample_ : Sample := poseToSample pose_identity.

Definition sample_at (sample_seq : list Sample) (i : Z) : Sample :=
  nth (Z.to_nat i) sample_seq [].

Definition back (sample_seq : list Sample) : Sample := List.last sample_seq [].

Definition foot_of_step (i : Z) : Limb :=
  if Z.rem i 2 =? 0 then LeftFoot else RightFoot.

(** Lines 73-88: the dimensions and the bounds. *)
Definition setup_dimensions : Z * Z * Z * Z :=
  let config_dim := 2 * motion_len config_ * vel_dim_ in
  let svm_ineq_dim := 3 * motion_len config_ - 1 in
  let collision_ineq_dim := 0 in
  let hand_start_config_idx := motion_len config_ * vel_dim_ in
  (config_dim, svm_ineq_dim, collision_ineq_dim, hand_start_config_idx).

Definition setup_qp_coeff : QpCoeff :=
  let '(config_dim, svm_ineq_dim, collision_ineq_dim, _) :=
    setup_dimensions in
  let qp :=
    QpCoeff_setup (config_dim + svm_ineq_dim + collision_ineq_dim) 0
                  (svm_ineq_dim + collision_ineq_dim) in
  let slack := svm_ineq_dim + collision_ineq_dim in
  let x_min :=
    segment_setConstant (x_min_ qp) 0 config_dim
                        (- delta_config_limit config_)%Q in
  let x_max :=
    segment_setConstant (x_max_ qp) 0 config_dim
                        (delta_config_limit config_) in
  let x_min :=
    segment_setConstant x_min (dim_var_ qp - slack) slack
                        (- (10000000000))%Q in
  let x_max :=
    segment_setConstant x_max (dim_var_ qp - slack) slack 10000000000%Q in
  {| dim_var_ := dim_var_ qp; dim_eq_ := dim_eq_ qp;
     dim_ineq_ := dim_ineq_ qp;
     obj_mat_ := obj_mat_ qp; obj_vec_ := obj_vec_ qp;
     ineq_mat_ := ineq_mat_ qp; ineq_vec_ := ineq_vec_ qp;
     x_min_ := x_min; x_max_ := x_max |}.

(** [RmapPlanningLocomanip::setup] *)
Definition setup (p : Planner) : Planner :=
  let '(config_dim, svm_ineq_dim, collision_ineq_dim,
        hand_start_config_idx) := setup_dimensions in
  let start_sample_list :=
    fold_left
      (fun m limb =>
         emplace m limb
           (poseToSample
              (match initial_sample_pose_list config_ limb with
               | Some pose => pose
               | None => pose_identity
               end)))
      all_limbs (start_sample_list_ p) in
  let foot_seq :=
    for_loop (motion_len config_)
      (fun i sample_seq =>
         <[Z.to_nat i := at_limb start_sample_list (foot_of_step i)]>
           sample_seq)
      (repeat [] (Z.to_nat (motion_len config_))) in
  let hand_seq :=
    for_loop (motion_len config_)
      (fun i sample_seq =>
         <[Z.to_nat i := at_limb start_sample_list LeftHand]> sample_seq)
      (repeat [] (Z.to_nat (motion_len config_))) in
  let adj :=
    Footstep.adjacent_chain SamplingSpaceType 0 (motion_len config_)
      (adjacent_reg_weight config_) zero_mat in
  let adj :=
    Footstep.adjacent_chain SamplingSpaceType hand_start_config_idx
      (motion_len config_) (adjacent_reg_weight config_) adj in
  {| config_dim_ := config_dim;
     svm_ineq_dim_ := svm_ineq_dim;
     collision_ineq_dim_ := collision_ineq_dim;
     hand_start_config_idx_ := hand_start_config_idx;
     qp_coeff_ := setup_qp_coeff;
     adjacent_reg_mat_ := adj;
     start_sample_list_ := start_sample_list;
     current_foot_sample_seq_ := foot_seq;
     current_hand_sample_seq_ := hand_seq;
     target_hand_sample_ := target_hand_sample_ p |}.

(** Lines 156-163: [current_config].  The vector is created without
    initial values; the loop writes every entry. *)
Definition current_config (p : Planner) : VectorXd :=
  for_loop (motion_len config_)
    (fun i v =>
       let v :=
         segment_assign v (i * vel_dim_) vel_dim_
           (sampleError identity_sample_
              (sample_at (current_foot_sample_seq_ p) i)) in
       segment_assign v (hand_start_config_idx_ p + i * vel_dim_) vel_dim_
         (sampleError identity_sample_
            (sample_at (current_hand_sample_seq_ p) i)))
    zero_vec.

(** Lines 143-172: the objective of the QP. *)
Definition objective (p : Planner) : MatrixXd * VectorXd :=
  let dim := dim_var_ (qp_coeff_ p) in
  let slack := svm_ineq_dim_ p + collision_ineq_dim_ p in
  let target_sample_error :=
    sampleError (target_hand_sample_ p) (back (current_hand_sample_seq_ p)) in
  let obj_mat :=
    diagonal_setConstant zero_mat (config_dim_ p - vel_dim_) vel_dim_ 1 in
  let obj_mat :=
    diagonal_add obj_mat 0 (config_dim_ p)
      (squaredNorm target_sample_error + reg_weight config_)%Q in
  let obj_mat :=
    diagonal_setConstant obj_mat (dim - slack) (svm_ineq_dim_ p)
                         (svm_ineq_weight config_) in
  let obj_vec :=
    segment_assign zero_vec (config_dim_ p - vel_dim_) vel_dim_
                   target_sample_error in
  let obj_vec :=
    head_add (config_dim_ p) obj_vec
      (mat_vec (config_dim_ p) (adjacent_reg_mat_ p) (current_config p)) in
  let obj_vec :=
    segment_sub obj_vec 0 vel_dim_
      (scale (adjacent_reg_weight config_)
         (sampleError identity_sample_
            (at_limb (start_sample_list_ p) LeftFoot))) in
  let obj_vec :=
    segment_sub obj_vec (hand_start_config_idx_ p) vel_dim_
      (scale (adjacent_reg_weight config_)
         (sampleError identity_sample_
            (at_limb (start_sample_list_ p) LeftHand))) in
  let obj_mat :=
    topLeftCorner_add (config_dim_ p) obj_mat (adjacent_reg_mat_ p) in
  (obj_mat, obj_vec).

(** The quantities of step [i] of the loop over the feet (lines 178-198). *)
Definition pre_foot_sample (p : Planner) (i : Z) : Sample :=
  if i =? 0 then at_limb (start_sample_list_ p) RightFoot
  else sample_at (current_foot_sample_seq_ p) (i - 1).

Definition suc_foot_sample (p : Planner) (i : Z) : Sample :=
  sample_at (current_foot_sample_seq_ p) i.

Definition rel_sample (p : Planner) (i : Z) : Sample :=
  relSample (pre_foot_sample p i) (suc_foot_sample p i).

(** [-1 * rel_svm_grad.transpose() * relVelToVelMat(pre, suc, wrt_suc)] *)
Definition foot_ineq_row (p : Planner) (i : Z) (wrt_suc : bool) : list Q :=
  row_times vel_dim_
    (scale (-1) (calcSVMGrad (rmapPlanning (foot_of_step i)) (rel_sample p i)))
    (relVelToVelMat (pre_foot_sample p i) (suc_foot_sample p i) wrt_suc).

Definition foot_ineq_value (p : Planner) (i : Z) : Q :=
  (calcSVMValue (rmapPlanning (foot_of_step i)) (rel_sample p i)
   - svm_thre config_)%Q.

(** Lines 174-271: the inequality matrix and vector.  The constraints
    from foot to hand are commented out in the source. *)
Definition inequality (p : Planner) : MatrixXd * VectorXd :=
  let slack := svm_ineq_dim_ p + collision_ineq_dim_ p in
  let '(ineq_mat, ineq_vec) :=
    for_loop (motion_len config_)
      (fun i '(ineq_mat, ineq_vec) =>
         let ineq_mat :=
           if 0 <? i then
             row_block_assign ineq_mat i ((i - 1) * vel_dim_) vel_dim_
                              (foot_ineq_row p i false)
           else ineq_mat in
         let ineq_mat :=
           row_block_assign ineq_mat i (i * vel_dim_) vel_dim_
                            (foot_ineq_row p i true) in
         let ineq_vec :=
           segment_assign ineq_vec i 1 [foot_ineq_value p i] in
         (ineq_mat, ineq_vec))
      (zero_mat, zero_vec) in
  let ineq_mat :=
    block_diagonal_setConstant ineq_mat
      0 (dim_var_ (qp_coeff_ p) - slack) (svm_ineq_dim_ p) (-1)%Q in
  (ineq_mat, ineq_vec).

(** Lines 284-290: the velocities are integrated into the waypoints. *)
Definition integrate (p : Planner) (vel_all : VectorXd)
  : list Sample * list Sample :=
  for_loop (motion_len config_)
    (fun i '(foot_seq, hand_seq) =>
       (<[Z.to_nat i :=
            integrateVelToSample (sample_at foot_seq i)
              (segment vel_all (i * vel_dim_) vel_dim_)]> foot_seq,
        <[Z.to_nat i :=
            integrateVelToSample (sample_at hand_seq i)
              (segment vel_all (hand_start_config_idx_ p + i * vel_dim_)
                       vel_dim_)]> hand_seq))
    (current_foot_sample_seq_ p, current_hand_sample_seq_ p).

(** Lines 143-271: the coefficients handed to the solver. *)
Definition assemble (p : Planner) : QpCoeff :=
  {| dim_var_ := dim_var_ (qp_coeff_ p);
     dim_eq_ := dim_eq_ (qp_coeff_ p);
     dim_ineq_ := dim_ineq_ (qp_coeff_ p);
     obj_mat_ := fst (objective p); obj_vec_ := snd (objective p);
     ineq_mat_ := fst (inequality p); ineq_vec_ := snd (inequality p);
     x_min_ := x_min_ (qp_coeff_ p); x_max_ := x_max_ (qp_coeff_ p) |}.

(** [RmapPlanningLocomanip::runOnce], without the publishing. *)
Definition runOnce (p : Planner) : Planner :=
  let qp := assemble p in
  let '(solution, solve_failed_) := qp_solver_ qp in
  let vel_all := if solve_failed_ then zero_vec else solution in
  let '(foot_seq, hand_seq) := integrate p vel_all in
  {| config_dim_ := config_dim_ p;
     svm_ineq_dim_ := svm_ineq_dim_ p;
     collision_ineq_dim_ := collision_ineq_dim_ p;
     hand_start_config_idx_ := hand_start_config_idx_ p;
     qp_coeff_ := qp;
     adjacent_reg_mat_ := adjacent_reg_mat_ p;
     start_sample_list_ := start_sample_list_ p;
     current_foot_sample_seq_ := foot_seq;
     current_hand_sample_seq_ := hand_seq;
     target_hand_sample_ := target_hand_sample_ p |}.
(** [transCallback]: the target of the hand moves between two
    iterations. *)
Definition set_target (s : Sample) (p : Planner) : Planner :=
  {| config_dim_ := config_dim_ p;
     svm_ineq_dim_ := svm_ineq_dim_ p;
     collision_ineq_dim_ := collision_ineq_dim_ p;
     hand_start_config_idx_ := hand_start_config_idx_ p;
     qp_coeff_ := qp_coeff_ p;
     adjacent_reg_mat_ := adjacent_reg_mat_ p;
     start_sample_list_ := start_sample_list_ p;
     current_foot_sample_seq_ := current_foot_sample_seq_ p;
     current_hand_sample_seq_ := current_hand_sample_seq_ p;
     target_hand_sample_ := s |}.

(** The states of a planner that has been set up ([runLoop]). *)
Inductive configured : Planner -> Prop :=
| configured_setup (p : Planner) : configured (setup p)
| configured_runOnce (p : Planner) :
    configured p -> configured (runOnce p)
| configured_target (s : Sample) (p : Planner) :
    configured p -> configured (set_target s p).
End Planner.

End Locomanip.

(** The variable layout of the specification: one velocity block of size
    [vd] per waypoint, then one slack variable per inequality row. *)
Definition one_slack_per_inequality (vd waypoints : Z) (qp : QpCoeff) : Prop :=
  dim_var_ qp = vd * waypoints + dim_ineq_ qp.

(** ** Reading the matrices by blocks *)

Module Blocks.

(** Entry [(a, b)] of block [(bi, bj)] of a matrix cut into square blocks
    of size [vd]. *)
Definition block (vd : Z) (m : MatrixXd) (bi bj a b : Z) : Q :=
  m (bi * vd + a) (bj * vd + b).

(** A [len] by [len] array of blocks is [c * I] in block [(bi, bj)], for
    the coefficient [c = coeff bi bj]. *)
Definition scalar_blocks (vd len : Z) (coeff : Z -> Z -> Q)
    (blk : Z -> Z -> Z -> Z -> Q) : Prop :=
  forall bi bj a b,
    0 <= bi < len -> 0 <= bj < len -> 0 <= a < vd -> 0 <= b < vd ->
    (blk bi bj a b == if a =? b then coeff bi bj else 0)%Q.

(** What the first [n] turns of the loop over a chain of [len] waypoints,
    whose first block is block [sb], leave at entry [(a, b)] of block
    [(bi, bj)], where [old] was. *)
Definition chain_after (sb n len : Z) (w old : Q) (bi bj a b : Z) : Q :=
  if a =? b then
    if in_range sb n bi && (bj =? bi) then
      (inject_Z (if bi - sb =? len - 1 then 1 else 2) * w)%Q
    else if in_range sb n bj && negb (bj - sb =? len - 1) && (bi =? bj + 1)
    then (- w)%Q
    else if in_range sb n bi && negb (bi - sb =? len - 1) && (bj =? bi + 1)
    then (- w)%Q
    else old
  else old.

(** The coefficients that [setup] gives a chain of [len] waypoints: [2w] on
    the diagonal except for the last waypoint, which has [w]; [-w] between
    neighbours; [0] elsewhere. *)
Definition chain_coeff (len : Z) (w : Q) (bi bj : Z) : Q :=
  if bi =? bj then (if bi =? len - 1 then w else 2 * w)%Q
  else if (bi =? bj + 1) || (bj =? bi + 1) then (- w)%Q
  else 0%Q.

(** The coefficients of the specification: [w] on the first and on the
    last waypoint, [2w] on the waypoints between them. *)
Definition laplacian_coeff (len : Z) (w : Q) (bi bj : Z) : Q :=
  if bi =? bj then
    (if (bi =? 0) || (bi =? len - 1) then w else 2 * w)%Q
  else if (bi =? bj + 1) || (bj =? bi + 1) then (- w)%Q
  else 0%Q.

(** Two chains of [len] waypoints each, the second after the first, with
    nothing between them. *)
Definition two_chains_coeff (len : Z) (w : Q) (bi bj : Z) : Q :=
  if (bi <? len) && (bj <? len) then chain_coeff len w bi bj
  else if (len <=? bi) && (len <=? bj) then
    chain_coeff len w (bi - len) (bj - len)
  else 0%Q.

End Blocks.

(** ** A flat manifold and stand-ins for the collaborators

    Used to run the planners on concrete inputs.  The flat manifold is the
    arithmetic of the translation-only spaces; where an example runs a
    planner of another space on it, it stands in for that space's
    arithmetic, which the example does not depend on. *)

Module Flat.

Definition vec_add (a b : list Q) : list Q := zip_with Qplus a b.
Definition vec_sub (a b : list Q) : list Q := zip_with Qminus a b.

(** [c * I], as a [dim] by [dim] matrix *)
Definition scalar_mat (dim : nat) (c : Q) : VelToVelMat :=
  map (fun r => map (fun k => if Nat.eqb r k then c else 0%Q) (seq 0 dim))
      (seq 0 dim).

(** A classifier whose reachable region is the disk of squared radius
    [r2] around the origin (the scenario of section 8 of the
    specification): the decision value and its gradient. *)
Definition disk_value (r2 : Q) (s : Sample) : Q := (r2 - squaredNorm s)%Q.
Definition disk_grad (r2 : Q) (s : Sample) : Vel := scale (-2) s.

(** Modelled from the spec: the manifold arithmetic of [SamplingUtils.hpp]
    for a translation-only space of dimension [dim] (section 4.1):
    integration adds the velocity, the error from [pre] to [suc] and the
    relative sample are [suc - pre], and the Jacobian of the relative
    sample is [I] with respect to the successor, [-I] with respect to the
    predecessor.  A pose is its translation. *)
#[local] Instance manifold (dim : nat) : Manifold := {|
  Pose := list Q;
  pose_identity := repeat 0%Q dim;
  pose_mul := fun a b => vec_add a b;
  pose_mirror := fun p => p;
  poseToSample := fun p => p;
  sampleError := fun pre suc => vec_sub suc pre;
  relSample := fun pre suc => vec_sub suc pre;
  relVelToVelMat := fun _ _ wrt_suc => scalar_mat dim (if wrt_suc then 1 else -1)%Q;
  integrateVelToSample := fun s v => vec_add s v;
  SvmModel := Q;
  calcSVMValue := disk_value;
  calcSVMGrad := disk_grad
|}.

(** Planners on the flat manifold of dimension [dim]: [len] waypoints,
    regularization weight [w], each step starting a fifth of a unit along
    every axis. *)
Definition footstep_config (dim : nat) (len : Z) (w : Q) (alternate : bool)
  : Footstep.Configuration (manifold dim) :=
  {| Footstep.footstep_num := len;
     Footstep.delta_config_limit := 1 # 10;
     Footstep.adjacent_reg_weight := w;
     Footstep.svm_thre := 0;
     Footstep.alternate_lr := alternate;
     Footstep.initial_sample_pose := (repeat (1 # 5) dim : @Pose (manifold dim)) |}.

Definition footstep_new (target : Sample) : Footstep.Planner :=
  {| Footstep.qp_coeff_ := QpCoeff_setup 0 0 0;
     Footstep.adjacent_reg_mat_ := zero_mat;
     Footstep.current_sample_seq_ := [];
     Footstep.target_sample_ := target |}.

Definition locomanip_config (dim : nat) (len : Z) (w : Q)
  : Locomanip.Configuration (manifold dim) :=
  {| Locomanip.motion_len := len;
     Locomanip.delta_config_limit := 1 # 10;
     Locomanip.adjacent_reg_weight := w;
     Locomanip.reg_weight := 1 # 1000000;
     Locomanip.svm_ineq_weight := 1000000;
     Locomanip.svm_thre := 0;
     Locomanip.initial_sample_pose_list := fun _ => None |}.

Definition locomanip_new (target : Sample) : Locomanip.Planner :=
  {| Locomanip.config_dim_ := 0;
     Locomanip.svm_ineq_dim_ := 0;
     Locomanip.collision_ineq_dim_ := 0;
     Locomanip.hand_start_config_idx_ := 0;
     Locomanip.qp_coeff_ := QpCoeff_setup 0 0 0;
     Locomanip.adjacent_reg_mat_ := zero_mat;
     Locomanip.start_sample_list_ := fun _ => None;
     Locomanip.current_foot_sample_seq_ := [];
     Locomanip.current_hand_sample_seq_ := [];
     Locomanip.target_hand_sample_ := target |}.

(** A solver that fails, and returns the vector it had reached. *)
Definition failing_solver (v : VectorXd) : QpSolver := fun _ => (v, true).

(** A solver that succeeds with a given vector. *)
Definition constant_solver (v : VectorXd) : QpSolver := fun _ => (v, false).

End Flat.

(** ** RmapSampling.cpp: [setupSampling], [sampleOnce] and [run] *)

Module RmapSamplingRun.

(** What [setupSampling] reads of the robot: [jointIndexByName], which may
    throw, and the first entry of [limits_.lower.at(name)] and of
    [limits_.upper.at(name)], for the joints that have an entry. *)
Record Robot : Type := mkRobot {
  jointIndexByName : string -> result nat;
  limits_lower : string -> option Q;
  limits_upper : string -> option Q
}.

(** [m.at(name)[0]]; [at] throws [std::out_of_range] when the joint has no
    entry. *)
Definition limit_at (m : string -> option Q) (name : string) : result Q :=
  match m name with
  | Some x => Ok x
  | None => Throw "map::at"
  end.

(** The members that sampling writes.  [q_] is the joint configuration
    [rbc->q] of the robot. *)
Record Sampler : Type := mkSampler {
  joint_idx_list_ : list nat;
  joint_pos_coeff_ : list Q;
  joint_pos_offset_ : list Q;
  q_ : list (list Q);
  sample_list_ : list Sample;
  reachability_list_ : list bool;
  reachable_cloud_points_ : list (list Q);
  unreachable_cloud_points_ : list (list Q)
}.

(** The loop of [setupSampling] (lines 97-106): index, coefficient and
    offset of every joint, in the order of the names. *)
Fixpoint setup_joints (rb : Robot) (joint_name_list : list string)
  : result (list (nat * Q * Q)) :=
  match joint_name_list with
  | [] => Ok []
  | joint_name :: rest =>
      idx <- jointIndexByName rb joint_name ;;
      lower_joint_pos <- limit_at (limits_lower rb) joint_name ;;
      upper_joint_pos <- limit_at (limits_upper rb) joint_name ;;
      joints <- setup_joints rb rest ;;
      Ok ((idx,
           ((upper_joint_pos - lower_joint_pos) / 2)%Q,
           ((upper_joint_pos + lower_joint_pos) / 2)%Q) :: joints)
  end.

(** [RmapSampling::setupSampling], without the root pose of the robot. *)
Definition setupSampling (rb : Robot) (joint_name_list : list string)
    (st : Sampler) : result Sampler :=
  joints <- setup_joints rb joint_name_list ;;
  Ok {| joint_idx_list_ := map (fun j => fst (fst j)) joints;
        joint_pos_coeff_ := map (fun j => snd (fst j)) joints;
        joint_pos_offset_ := map snd joints;
        q_ := q_ st;
        sample_list_ := sample_list_ st;
        reachability_list_ := reachability_list_ st;
        reachable_cloud_points_ := reachable_cloud_points_ st;
        unreachable_cloud_points_ := unreachable_cloud_points_ st |}.

(** [joint_pos_coeff_.cwiseProduct(random) + joint_pos_offset_] *)
Definition joint_positions (coeff offset random : list Q) : list Q :=
  zip_with Qplus (zip_with Qmult coeff random) offset.

(** [q[idx][0] = pos] *)
Definition set_joint (q : list (list Q)) (idx : nat) (pos : Q)
  : list (list Q) :=
  match q !! idx with
  | Some row => <[idx := <[0%nat := pos]> row]> q
  | None => q
  end.

(** [v.resize(n)]: the first [n] entries stay, new entries are [d]. *)
Definition resize {A : Type} (n : nat) (d : A) (l : list A) : list A :=
  firstn n l ++ repeat d (n - length l).

Section Sampling.
Context {M : Manifold}.
Variable SamplingSpaceType : SamplingSpace.
(** [sample_dim_] *)
Variable sample_dim : nat.
(** [config_.body_pose_offset] *)
Variable body_pose_offset : Pose.
(** [rbc->bodyPosW[body_idx_]] after [rbd::forwardKinematics], as a
    function of the joint configuration *)
Variable bodyPosW : list (list Q) -> Pose.
(** [sampleToCloudPos] and [OmgCore::toPoint32Msg] *)
Variable sampleToCloudPos : Sample -> list Q.
(** the vector that the [k]-th call of [Eigen::VectorXd::Random] returns *)
Variable random : nat -> list Q.
(** the value of the [k]-th call of [ros::ok()] *)
Variable ros_ok : nat -> bool.
(** the content of a sample that [resize] creates and nothing has
    written *)
Variable uninitialized : Sample.

(** [RmapSampling::sampleOnce] *)
Definition sampleOnce (sample_idx : nat) (st : Sampler) : Sampler :=
  let joint_pos :=
    joint_positions (joint_pos_coeff_ st) (joint_pos_offset_ st)
                    (random sample_idx) in
  let q :=
    fold_left (fun q '(idx, pos) => set_joint q idx pos)
              (zip (joint_idx_list_ st) joint_pos) (q_ st) in
  let body_pose := pose_mul body_pose_offset (bodyPosW q) in
  let sample := poseToSample body_pose in
  {| joint_idx_list_ := joint_idx_list_ st;
     joint_pos_coeff_ := joint_pos_coeff_ st;
     joint_pos_offset_ := joint_pos_offset_ st;
     q_ := q;
     sample_list_ := <[sample_idx := sample]> (sample_list_ st);
     reachability_list_ := <[sample_idx := true]> (reachability_list_ st);
     reachable_cloud_points_ :=
       reachable_cloud_points_ st ++ [sampleToCloudPos sample];
     unreachable_cloud_points_ := unreachable_cloud_points_ st |}.

(** The loop of [run] (lines 64-81), [remaining] being
    [sample_num - loop_idx]: it ends when [ros::ok()] is false or when
    [loop_idx] has reached [sample_num]. *)
Fixpoint run_loop (remaining loop_idx : nat) (st : Sampler) : Sampler :=
  match remaining with
  | O => st
  | S remaining' =>
      if ros_ok loop_idx
      then run_loop remaining' (S loop_idx) (sampleOnce loop_idx st)
      else st
  end.

(** [RmapSampling::run], without publishing and sleeping: the sampler
    after the loop and the sample set that is dumped.  A negative
    [sample_num] makes [resize] throw [std::length_error]. *)
Definition run (rb : Robot) (joint_name_list : list string)
    (sample_num : Z) (st : Sampler)
  : result (Sampler * RmapSampling.RmapSampleSet) :=
  st <- setupSampling rb joint_name_list st ;;
  if sample_num <? 0 then Throw "vector::resize" else
  let n := Z.to_nat sample_num in
  let st :=
    {| joint_idx_list_ := joint_idx_list_ st;
       joint_pos_coeff_ := joint_pos_coeff_ st;
       joint_pos_offset_ := joint_pos_offset_ st;
       q_ := q_ st;
       sample_list_ := resize n uninitialized (sample_list_ st);
       reachability_list_ := resize n false (reachability_list_ st);
       reachable_cloud_points_ := [];
       unreachable_cloud_points_ := [] |} in
  let st := run_loop n 0 st in
  Ok (st,
      RmapSampling.dumpSampleSet SamplingSpaceType sample_dim
        (sample_list_ st) (reachability_list_ st)).
End Sampling.




End RmapSamplingRun.

(** ** Publishing the state, and the callback of the target *)

Module Display.

(** [for (int i = 0; i < n; i++)] around a body that may throw. *)
Definition for_loop_result {S : Type} (n : Z) (body : Z -> S -> result S)
    (s : S) : result S :=
  fold_left (fun acc i => bind acc (body (Z.of_nat i)))
            (seq 0 (Z.to_nat n)) (Ok s).

(** The three polygon arrays of [publishCurrentState]. *)
Record PolygonArrays (Polygon : Type) : Type := mkPolygonArrays {
  poly_arr : list Polygon;
  left_poly_arr : list Polygon;
  right_poly_arr : list Polygon
}.
Arguments mkPolygonArrays {Polygon}.
Arguments poly_arr {Polygon}.
Arguments left_poly_arr {Polygon}.
Arguments right_poly_arr {Polygon}.

(** [geometry_msgs::TransformStamped], as far as [transCallback] reads
    it. *)
Record TransformStamped (Transform : Type) : Type := mkTransformStamped {
  child_frame_id : string;
  transform : Transform
}.
Arguments mkTransformStamped {Transform}.
Arguments child_frame_id {Transform}.
Arguments transform {Transform}.

Section Messages.
Context {M : Manifold}.
(** [sampleToPose], and a point of a foot in the world:
    [pose.rotation().transpose() * vertex + pose.translation()] *)
Variable sampleToPose : Sample -> Pose.
Variable foot_point : Pose -> list Q -> list Q.
(** [OmgCore::toPoseMsg], [OmgCore::toPoint32Msg] and
    [OmgCore::toSvaPTransform] *)
Variable PoseMsg Point32 Transform : Type.
Variable toPoseMsg : Pose -> PoseMsg.
Variable toPoint32Msg : list Q -> Point32.
Variable toSvaPTransform : Transform -> Pose.
(** A pose message as [resize] creates it *)
Variable default_pose_msg : PoseMsg.
(** [config_.foot_vertices] *)
Variable foot_vertices : list (list Q).

(** The polygon of a foot at a pose: one point per vertex, in the order of
    the vertices. *)
Definition foot_polygon (foot_pose : Pose) : list Point32 :=
  map (fun vertex => toPoint32Msg (foot_point foot_pose vertex)) foot_vertices.

(** The pose of foot [i] of the footstep planner: the origin, then the
    waypoints. *)
Definition footstep_pose (p : Footstep.Planner) (i : Z) : Pose :=
  if i =? 0 then pose_identity
  else sampleToPose (nth (Z.to_nat (i - 1)) (Footstep.current_sample_seq_ p) []).

(** [RmapPlanningFootstep::publishCurrentState]: the pose array, the
    polygon array, and the arrays of the left and of the right foot when
    they are published. *)
Definition footstep_publishCurrentState
    (SamplingSpaceType : SamplingSpace) (config_ : Footstep.Configuration M)
    (p : Footstep.Planner)
  : list PoseMsg * list (list Point32)
    * option (list (list Point32) * list (list Point32)) :=
  let n := Footstep.footstep_num config_ + 1 in
  let split := Footstep.is_SE2 SamplingSpaceType
               && Footstep.alternate_lr config_ in
  let poses :=
    for_loop n
      (fun i poses => <[Z.to_nat i := toPoseMsg (footstep_pose p i)]> poses)
      (repeat default_pose_msg (Z.to_nat n)) in
  let '(polygons, left_polygons, right_polygons) :=
    for_loop n
      (fun i '(polygons, left_polygons, right_polygons) =>
         let polygon := foot_polygon (footstep_pose p i) in
         let polygons := <[Z.to_nat i := polygon]> polygons in
         if split then
           if Z.rem i 2 =? 1
           then (polygons, left_polygons ++ [polygon], right_polygons)
           else (polygons, left_polygons, right_polygons ++ [polygon])
         else (polygons, left_polygons, right_polygons))
      (repeat [] (Z.to_nat n), [], []) in
  (poses, polygons,
   if split then Some (left_polygons, right_polygons) else None).

(** The pose of foot [i] of the locomanipulation planner: the waypoints of
    the feet, then the initial poses of the configuration, which [at]
    looks up. *)
Definition locomanip_foot_pose (config_ : Locomanip.Configuration M)
    (p : Locomanip.Planner) (i : Z) : result Pose :=
  if i <? Locomanip.motion_len config_ then
    Ok (sampleToPose
          (nth (Z.to_nat i) (Locomanip.current_foot_sample_seq_ p) []))
  else
    match Locomanip.initial_sample_pose_list config_
            (if Z.rem i 2 =? 0 then Locomanip.LeftFoot
             else Locomanip.RightFoot) with
    | Some pose => Ok pose
    | None => Throw "unordered_map::at"
    end.

(** [RmapPlanningLocomanip::publishCurrentState]: the pose array, which is
    published first, and the three polygon arrays, unless building them
    throws. *)
Definition locomanip_publishCurrentState
    (config_ : Locomanip.Configuration M) (p : Locomanip.Planner)
  : list PoseMsg * result (PolygonArrays (list Point32)) :=
  let len := Locomanip.motion_len config_ in
  let poses :=
    for_loop len
      (fun i poses =>
         let poses :=
           <[Z.to_nat i :=
               toPoseMsg
                 (sampleToPose
                    (nth (Z.to_nat i)
                         (Locomanip.current_foot_sample_seq_ p) []))]> poses in
         <[Z.to_nat (len + i) :=
             toPoseMsg
               (sampleToPose
                  (nth (Z.to_nat i)
                       (Locomanip.current_hand_sample_seq_ p) []))]> poses)
      (repeat default_pose_msg (Z.to_nat (2 * len))) in
  let polygons :=
    for_loop_result (len + 2)
      (fun i arrays =>
         foot_pose <- locomanip_foot_pose config_ p i ;;
         let polygon := foot_polygon foot_pose in
         let polygons := <[Z.to_nat i := polygon]> (poly_arr arrays) in
         Ok (if Z.rem i 2 =? 0
             then {| poly_arr := polygons;
                     left_poly_arr := left_poly_arr arrays ++ [polygon];
                     right_poly_arr := right_poly_arr arrays |}
             else {| poly_arr := polygons;
                     left_poly_arr := left_poly_arr arrays;
                     right_poly_arr := right_poly_arr arrays ++ [polygon] |}))
      {| poly_arr := repeat [] (Z.to_nat (len + 2));
         left_poly_arr := [];
         right_poly_arr := [] |} in
  (poses, polygons).

(** [RmapPlanningLocomanip::transCallback] *)
Definition transCallback (trans_st_msg : TransformStamped Transform)
    (p : Locomanip.Planner) : Locomanip.Planner :=
  if String.eqb (child_frame_id trans_st_msg) "target" then
    Locomanip.set_target
      (poseToSample (toSvaPTransform (transform trans_st_msg))) p
  else p.

(** The messages that arrive between two iterations, in their order. *)
Definition transCallbacks (msgs : list (TransformStamped Transform))
    (p : Locomanip.Planner) : Locomanip.Planner :=
  fold_left (fun p msg => transCallback msg p) msgs p.

(** The last message for the frame ["target"], if there is one. *)
Definition last_target (msgs : list (TransformStamped Transform))
  : option (TransformStamped Transform) :=
  List.find (fun msg => String.eqb (child_frame_id msg) "target") (rev msgs).
End Messages.

End Display.

(** ** Closed forms used in the statements *)

Module Closed.

Section Steps.
Context {M : Manifold}.
Variable SamplingSpaceType : SamplingSpace.
Variable config_ : Footstep.Configuration M.

(** The pose of one step of the initial sequence: the configured pose,
    mirrored on the steps that [mirrored] selects. *)
Definition step_pose (i : nat) : Pose :=
  if Footstep.mirrored SamplingSpaceType config_ (Z.of_nat i)
  then pose_mirror (Footstep.initial_sample_pose config_)
  else Footstep.initial_sample_pose config_.

(** The product of the poses of steps [0] to [i], the later step on the
    left. *)
Fixpoint accumulated_pose (i : nat) : Pose :=
  match i with
  | O => pose_mul (step_pose O) pose_identity
  | S j => pose_mul (step_pose (S j)) (accumulated_pose j)
  end.
End Steps.

(** The three entries of a row of the chain that can differ from zero,
    applied to a vector: the discrete Laplacian of [c] at waypoint [bi],
    component [a], for a chain of [len] waypoints tied to the origin. *)
Definition laplacian (vd len : Z) (w : Q) (c : VectorXd) (bi a : Z) : Q :=
  let diagonal : Q := if bi =? len - 1 then w else (2 * w)%Q in
  let before : Q :=
    if 0 <? bi then (- w * c ((bi - 1) * vd + a)%Z)%Q else 0%Q in
  let after : Q :=
    if bi <? len - 1 then (- w * c ((bi + 1) * vd + a)%Z)%Q else 0%Q in
  (diagonal * c (bi * vd + a)%Z + before + after)%Q.

End Closed.

(** ** Inputs for examples *)

Module Examples.

(** A robot with two joints: an elbow between [-1] and [2], a wrist
    between [0] and [1]. *)
Definition two_joint_robot : RmapSamplingRun.Robot :=
  {| RmapSamplingRun.jointIndexByName :=
       fun name =>
         if String.eqb name "elbow" then Ok 0%nat
         else if String.eqb name "wrist" then Ok 1%nat
         else Throw "jointIndexByName";
     RmapSamplingRun.limits_lower :=
       fun name =>
         if String.eqb name "elbow" then Some (-1)%Q
         else if String.eqb name "wrist" then Some 0%Q
         else None;
     RmapSamplingRun.limits_upper :=
       fun name =>
         if String.eqb name "elbow" then Some 2%Q
         else if String.eqb name "wrist" then Some 1%Q
         else None |}.

(** A sampler that has not sampled, for a robot with joint configuration
    [q]. *)
Definition new_sampler (q : list (list Q)) : RmapSamplingRun.Sampler :=
  {| RmapSamplingRun.joint_idx_list_ := [];
     RmapSamplingRun.joint_pos_coeff_ := [];
     RmapSamplingRun.joint_pos_offset_ := [];
     RmapSamplingRun.q_ := q;
     RmapSamplingRun.sample_list_ := [];
     RmapSamplingRun.reachability_list_ := [];
     RmapSamplingRun.reachable_cloud_points_ := [];
     RmapSamplingRun.unreachable_cloud_points_ := [] |}.

(** A planar arm in the flat model: the body is at the position given by
    the two joint positions. *)
Definition arm_position (q : list (list Q)) : list Q :=
  [nth 0 (nth 0 q []) 0%Q; nth 0 (nth 1 q []) 0%Q].

(** A locomanipulation planner on the flat plane whose configuration
    places the left foot and the right foot, and not the hand. *)
Definition feet_apart (limb : Locomanip.Limb)
  : option (@Pose (Flat.manifold 2)) :=
  match limb with
  | Locomanip.LeftFoot => Some [0; 1 # 10]%Q
  | Locomanip.RightFoot => Some [0; - (1 # 10)]%Q
  | Locomanip.LeftHand => None
  end.

Definition locomanip_config_feet (len : Z)
  : Locomanip.Configuration (Flat.manifold 2) :=
  {| Locomanip.motion_len := len;
     Locomanip.delta_config_limit := 1 # 10;
     Locomanip.adjacent_reg_weight := 1;
     Locomanip.reg_weight := 1 # 1000000;
     Locomanip.svm_ineq_weight := 1000000;
     Locomanip.svm_thre := 0;
     Locomanip.initial_sample_pose_list := feet_apart |}.

(** [ros::ok()] becomes false at its call number [k]. *)
Definition ok_until (k : nat) : nat -> bool := fun t => Nat.ltb t k.

End Examples.

(** * Properties *)

(** ** The factories *)

Section FactoryFacts.
Import Factory.

Lemma append_empty_r (s : string) : (s ++ EmptyString)%string = s.
Proof. induction s as [|c s IH]; simpl; [reflexivity | now rewrite IH]. Qed.

Lemma unrecognized_tests (v : Z) :
  ~ recognized v ->
  forall s, (v =? enumValue s) = false.
Proof.
  intros Hv s. apply Z.eqb_neq. intros ->. apply Hv. now exists s.
Qed.

Lemma to_string_unrecognized (v : Z) :
  ~ recognized v -> to_string v = Throw (unsupported_message v).
Proof.
  intros Hv. unfold to_string.
  rewrite !(unrecognized_tests v Hv).
  unfold error_and_throw, unsupported_message. cbn [format Ascii.eqb andb].
  simpl. now rewrite append_empty_r.
Qed.

Lemma to_string_recognized (s : SamplingSpace) :
  exists name, to_string (enumValue s) = Ok name.
Proof. destruct s; eexists; reflexivity. Qed.
End FactoryFacts.

(** C8.  A value of the enumeration type that is none of the six
    enumerators makes [createRmapPlanningFootstep] and [createRmapSampling]
    throw, and the message of the error names the value (in decimal); the
    value of an enumerator makes each factory return an object of the
    specialization for that enumerator. *)
Theorem factories_dispatch_or_throw :
  (forall v svm_path bag_path,
      ~ recognized v ->
      Factory.createRmapPlanningFootstep v svm_path bag_path
      = Throw (Factory.unsupported_message v))
  /\ (forall (Robot : Type) v (rb : Robot) body_name joint_name_list,
      ~ recognized v ->
      Factory.createRmapSampling v rb body_name joint_name_list
      = Throw (Factory.unsupported_message v))
  /\ (forall s svm_path bag_path,
      Factory.createRmapPlanningFootstep (enumValue s) svm_path bag_path
      = Ok (Factory.RmapPlanningFootstep s svm_path bag_path))
  /\ (forall (Robot : Type) s (rb : Robot) body_name joint_name_list,
      Factory.createRmapSampling (enumValue s) rb body_name joint_name_list
      = Ok (Factory.RmapSampling s rb body_name joint_name_list)).
Proof.
  repeat split.
  - intros v svm_path bag_path Hv. unfold Factory.createRmapPlanningFootstep.
    rewrite !(unrecognized_tests v Hv), (to_string_unrecognized v Hv).
    reflexivity.
  - intros Robot v rb body_name joint_name_list Hv.
    unfold Factory.createRmapSampling.
    rewrite !(unrecognized_tests v Hv), (to_string_unrecognized v Hv).
    reflexivity.
  - intros s svm_path bag_path. destruct s; reflexivity.
  - intros Robot s rb body_name joint_name_list. destruct s; reflexivity.
Qed.

Lemma factories_dispatch_or_throw_witness :
  Factory.createRmapPlanningFootstep 99 "svm" "bag"
  = Throw "[to_string] Unsupported SamplingSpace: 99"%string
  /\ Factory.createRmapSampling 0 tt "body" ["joint"%string]
     = Throw "[to_string] Unsupported SamplingSpace: 0"%string.
Proof.
  split.
  - apply (proj1 factories_dispatch_or_throw 99 "svm"%string "bag"%string).
    intros [s Hs]. destruct s; discriminate Hs.
  - apply (proj1 (proj2 factories_dispatch_or_throw) unit 0 tt).
    intros [s Hs]. destruct s; discriminate Hs.
Defined.

(** ** [dumpSampleSet] *)

Section DumpFacts.
Import RmapSampling.
Local Open Scope nat_scope.

Lemma for_each_index_S {S : Type} (n : nat) (body : nat -> S -> S) (s : S) :
  for_each_index (Datatypes.S n) body s = body n (for_each_index n body s).
Proof.
  unfold for_each_index. rewrite seq_S, fold_left_app. reflexivity.
Qed.

Lemma insert_at_length {A : Type} (l1 l2 : list A) (x y : A) :
  <[length l1 := x]> (l1 ++ y :: l2) = l1 ++ x :: l2.
Proof. induction l1 as [|a l1 IH]; simpl; [reflexivity | now rewrite IH]. Qed.

Lemma copy_vector_prefix (n m : nat) (src : Sample) :
  m <= n ->
  for_each_index m (fun j dst => <[j := nth j src 0%Q]> dst) (repeat 0%Q n)
  = map (fun j => nth j src 0%Q) (seq 0 m) ++ repeat 0%Q (n - m).
Proof.
  induction m as [|m IH]; intros Hm.
  - simpl. now rewrite Nat.sub_0_r.
  - rewrite for_each_index_S, IH by lia.
    rewrite seq_S, map_app, <- app_assoc. simpl.
    replace (n - m) with (Datatypes.S (n - Datatypes.S m)) by lia. simpl.
    assert (Hlen : length (map (fun j => nth j src 0%Q) (seq 0 m)) = m)
      by now rewrite length_map, length_seq.
    rewrite <- Hlen at 1.
    now rewrite insert_at_length.
Qed.

Lemma copy_vector_spec (n : nat) (src : Sample) :
  copy_vector n src = map (fun j => nth j src 0%Q) (seq 0 n).
Proof.
  unfold copy_vector. rewrite copy_vector_prefix by lia.
  now rewrite Nat.sub_diag, app_nil_r.
Qed.

Lemma copy_vector_id (src : Sample) :
  copy_vector (length src) src = src.
Proof.
  rewrite copy_vector_spec.
  apply (nth_ext _ _ 0%Q 0%Q).
  - now rewrite length_map, length_seq.
  - intros i Hi. rewrite length_map, length_seq in Hi.
    rewrite (nth_indep _ 0%Q (nth 0 src 0%Q)) by now rewrite length_map, length_seq.
    rewrite (map_nth (fun j => nth j src 0%Q)).
    now rewrite seq_nth.
Qed.
End DumpFacts.

Section DumpLoop.
Import RmapSampling.
Local Open Scope nat_scope.

Variable sample_dim : nat.
Variable sample_list : list Sample.
Variable reachability_list : list bool.

Let n := length sample_list.
Let recs := written_records sample_dim sample_list reachability_list.
Let state (k : nat) : DumpState :=
  for_each_index k (dump_step sample_dim sample_list reachability_list)
                 (dump_init sample_dim sample_list).

Lemma parts_length (l : list RmapSample) :
  length (reachable_part l) + length (unreachable_part l) = length l.
Proof.
  unfold reachable_part, unreachable_part.
  induction l as [|r l IH]; simpl; [reflexivity|].
  destruct (is_reachable r); simpl; lia.
Qed.

Lemma written_records_length (k : nat) : length (recs k) = k.
Proof. unfold recs, written_records. now rewrite length_map, length_seq. Qed.

Lemma written_records_S (k : nat) :
  recs (S k)
  = recs k ++ [{| position := copy_vector sample_dim (nth k sample_list []);
                  is_reachable := nth k reachability_list false |}].
Proof. unfold recs, written_records. now rewrite seq_S, map_app. Qed.

(** The invariant of the loop: the reachable records written so far fill
    the array from the front, the unreachable ones from the back. *)
Lemma dump_loop_invariant (k : nat) :
  k <= n ->
  msg_samples (state k)
  = reachable_part (recs k) ++ repeat empty_sample (n - k)
    ++ rev (unreachable_part (recs k))
  /\ reachable_idx (state k) = length (reachable_part (recs k))
  /\ unreachable_idx (state k) = length (unreachable_part (recs k)).
Proof.
  induction k as [|k IH]; intros Hk.
  - unfold state, for_each_index. simpl.
    rewrite Nat.sub_0_r, app_nil_r. auto.
  - destruct IH as (Hm & Hr & Hu); [lia|].
    pose proof (parts_length (recs k)) as Hlen.
    rewrite written_records_length in Hlen.
    unfold state in *. rewrite for_each_index_S.
    set (st := for_each_index k _ _) in *.
    rewrite written_records_S.
    unfold reachable_part, unreachable_part in *.
    rewrite !List.filter_app. simpl.
    unfold dump_step; simpl.
    destruct (nth k reachability_list false) eqn:Hreach; simpl.
    + rewrite app_nil_r, Hm, Hr, Hu. repeat split.
      * replace (n - k) with (S (n - S k)) by lia. simpl.
        rewrite insert_at_length. now rewrite <- app_assoc.
      * rewrite length_app. simpl. lia.
    + rewrite app_nil_r, Hm, Hr, Hu. repeat split.
      * fold n. rewrite rev_app_distr. simpl.
        replace (n - k) with (n - S k + 1) by lia.
        rewrite repeat_app. simpl.
        rewrite <- !app_assoc. simpl.
        rewrite app_assoc.
        set (front := _ ++ repeat empty_sample (n - S k)).
        replace (n - 1 - _) with (length front).
        { rewrite insert_at_length. unfold front. now rewrite <- app_assoc. }
        unfold front. rewrite length_app, repeat_length. lia.
      * rewrite length_app. simpl. lia.
Qed.

(** After the loop the array is the reachable records, in input order,
    followed by the unreachable records, in reverse input order. *)
Lemma dump_loop_samples :
  msg_samples (dump_loop sample_dim sample_list reachability_list)
  = reachable_part (recs n) ++ rev (unreachable_part (recs n)).
Proof.
  destruct (dump_loop_invariant n (Nat.le_refl n)) as (Hm & _ & _).
  unfold dump_loop. fold n. unfold state in Hm. rewrite Hm.
  now rewrite Nat.sub_diag.
Qed.
End DumpLoop.

Section DumpBounds.
Import RmapSampling.
Local Open Scope nat_scope.

Lemma nth_zip_with (f : Q -> Q -> Q) (a b : list Q) (k : nat) :
  length a = length b -> k < length a ->
  nth k (zip_with f a b) 0%Q = f (nth k a 0%Q) (nth k b 0%Q).
Proof.
  revert b k. induction a as [|x a IH]; intros [|y b] k Hlen Hk;
    simpl in *; try lia.
  destruct k as [|k]; [reflexivity|]. apply IH; lia.
Qed.

Lemma length_zip_with_same (f : Q -> Q -> Q) (a b : list Q) :
  length a = length b -> length (zip_with f a b) = length a.
Proof.
  revert b. induction a as [|x a IH]; intros [|y b] Hlen; simpl in *;
    try lia. rewrite IH; lia.
Qed.

Lemma fold_cwise_length (f : Q -> Q -> Q) (l : list Sample) (init : Sample) :
  Forall (fun s => length s = length init) l ->
  length (fold_left (zip_with f) l init) = length init.
Proof.
  revert init. induction l as [|s l IH]; intros init Hall; [reflexivity|].
  inversion Hall as [|? ? Hs Hl]; subst. simpl.
  assert (Hz : length (zip_with f init s) = length init)
    by (apply length_zip_with_same; lia).
  rewrite IH; [exact Hz|].
  eapply List.Forall_impl; [|exact Hl]. simpl. intros; lia.
Qed.

Lemma fold_cwise_nth (f : Q -> Q -> Q) (l : list Sample) (init : Sample) (k : nat) :
  Forall (fun s => length s = length init) l ->
  k < length init ->
  nth k (fold_left (zip_with f) l init) 0%Q
  = fold_left f (component k l) (nth k init 0%Q).
Proof.
  revert init. induction l as [|s l IH]; intros init Hall Hk; [reflexivity|].
  inversion Hall as [|? ? Hs Hl]; subst. simpl.
  assert (Hz : length (zip_with f init s) = length init)
    by (apply length_zip_with_same; lia).
  rewrite IH.
  - now rewrite nth_zip_with by lia.
  - eapply List.Forall_impl; [|exact Hl]. simpl. intros; lia.
  - lia.
Qed.

Lemma fold_Qmin_least (xs : list Q) (a : Q) :
  least_of (fold_left Qmin xs a) (a :: xs).
Proof.
  revert a. induction xs as [|x xs IH]; intros a; simpl.
  - split; [exists a; split; [now left | reflexivity]|].
    constructor; [apply Qle_refl | constructor].
  - destruct (IH (Qmin a x)) as [(y & Hy & Hm) Hall].
    inversion Hall as [|? ? Hhead Htail]; subst.
    split.
    + destruct Hy as [Hy | Hy].
      * subst y. destruct (Q.min_dec a x) as [E | E].
        -- exists a. split; [now left | exact (Qeq_trans _ _ _ Hm E)].
        -- exists x. split; [right; now left | exact (Qeq_trans _ _ _ Hm E)].
      * exists y. split; [right; now right | exact Hm].
    + constructor; [|constructor]; [| |exact Htail].
      * eapply Qle_trans; [exact Hhead | apply Q.le_min_l].
      * eapply Qle_trans; [exact Hhead | apply Q.le_min_r].
Qed.

Lemma fold_Qmax_greatest (xs : list Q) (a : Q) :
  greatest_of (fold_left Qmax xs a) (a :: xs).
Proof.
  revert a. induction xs as [|x xs IH]; intros a; simpl.
  - split; [exists a; split; [now left | reflexivity]|].
    constructor; [apply Qle_refl | constructor].
  - destruct (IH (Qmax a x)) as [(y & Hy & Hm) Hall].
    inversion Hall as [|? ? Hhead Htail]; subst.
    split.
    + destruct Hy as [Hy | Hy].
      * subst y. destruct (Q.max_dec a x) as [E | E].
        -- exists a. split; [now left | exact (Qeq_trans _ _ _ Hm E)].
        -- exists x. split; [right; now left | exact (Qeq_trans _ _ _ Hm E)].
      * exists y. split; [right; now right | exact Hm].
    + constructor; [|constructor]; [| |exact Htail].
      * eapply Qle_trans; [apply Q.le_max_l | exact Hhead].
      * eapply Qle_trans; [apply Q.le_max_r | exact Hhead].
Qed.
End DumpBounds.

Section DumpResult.
Import RmapSampling.
Local Open Scope nat_scope.

Lemma firstn_snoc {A : Type} (l : list A) (k : nat) (d : A) :
  k < length l -> firstn (S k) l = firstn k l ++ [nth k l d].
Proof.
  revert k. induction l as [|a l IH]; intros k Hk; simpl in *; [lia|].
  destruct k as [|k]; [reflexivity|]. simpl. f_equal. apply IH. lia.
Qed.

Lemma dump_loop_min_max (sample_dim : nat) (sample_list : list Sample)
      (reachability_list : list bool) (k : nat) :
  k <= length sample_list ->
  let st := for_each_index k
              (dump_step sample_dim sample_list reachability_list)
              (dump_init sample_dim sample_list) in
  sample_min st
  = fold_left cwiseMin (firstn k sample_list) (repeat sentinel_min sample_dim)
  /\ sample_max st
     = fold_left cwiseMax (firstn k sample_list) (repeat sentinel_max sample_dim).
Proof.
  induction k as [|k IH]; intros Hk.
  - split; reflexivity.
  - destruct IH as [Hmin Hmax]; [lia|]. cbv zeta.
    rewrite for_each_index_S. unfold dump_step at 1 3; simpl.
    rewrite (firstn_snoc sample_list k []) by lia.
    rewrite !fold_left_app. simpl. now rewrite Hmin, Hmax.
Qed.

Lemma indexed_map_zip_with {A B C : Type} (g : A -> B -> C)
      (l1 : list A) (l2 : list B) (d1 : A) (d2 : B) :
  length l2 = length l1 ->
  map (fun i => g (nth i l1 d1) (nth i l2 d2)) (seq 0 (length l1))
  = zip_with g l1 l2.
Proof.
  revert l2. induction l1 as [|a l1 IH]; intros [|b l2] Hlen;
    simpl in *; try lia; [reflexivity|].
  f_equal. rewrite <- seq_shift, map_map. apply IH. lia.
Qed.

Lemma zip_with_copy_vector (sample_dim : nat) (sample_list : list Sample)
      (reachability_list : list bool) :
  Forall (fun s => length s = sample_dim) sample_list ->
  zip_with (fun s r => {| position := copy_vector sample_dim s;
                          is_reachable := r |})
           sample_list reachability_list
  = zip_with record_of sample_list reachability_list.
Proof.
  revert reachability_list.
  induction sample_list as [|s l IH]; intros [|r rl] Hall; simpl;
    try reflexivity.
  inversion Hall as [|? ? Hs Hl]; subst.
  rewrite IH by exact Hl. unfold record_of at 1.
  now rewrite copy_vector_id.
Qed.

Lemma written_records_all (sample_dim : nat) (sample_list : list Sample)
      (reachability_list : list bool) :
  length reachability_list = length sample_list ->
  Forall (fun s => length s = sample_dim) sample_list ->
  written_records sample_dim sample_list reachability_list
                  (length sample_list)
  = zip_with record_of sample_list reachability_list.
Proof.
  intros Hlen Hall. unfold written_records.
  rewrite (indexed_map_zip_with
             (fun s r => {| position := copy_vector sample_dim s;
                            is_reachable := r |})) by exact Hlen.
  now apply zip_with_copy_vector.
Qed.

Lemma parts_permutation (l : list RmapSample) :
  Permutation (reachable_part l ++ rev (unreachable_part l)) l.
Proof.
  transitivity (reachable_part l ++ unreachable_part l).
  - apply Permutation_app_head. symmetry. apply Permutation_rev.
  - unfold reachable_part, unreachable_part.
    induction l as [|r l IH]; simpl; [constructor|].
    destruct (is_reachable r); simpl.
    + now constructor.
    + symmetry. apply Permutation_cons_app. now symmetry.
Qed.

Lemma reachable_part_all (l : list RmapSample) :
  Forall (fun r => is_reachable r = true) (reachable_part l).
Proof.
  unfold reachable_part. apply List.Forall_forall. intros r Hr.
  now apply List.filter_In in Hr.
Qed.

Lemma unreachable_part_all (l : list RmapSample) :
  Forall (fun r => is_reachable r = false) (rev (unreachable_part l)).
Proof.
  unfold unreachable_part. apply List.Forall_forall. intros r Hr.
  apply List.in_rev in Hr. apply List.filter_In in Hr.
  destruct Hr as [_ Hr]. now destruct (is_reachable r).
Qed.
End DumpResult.

(** C7.  In the record list that [dumpSampleSet] persists, every record
    whose [is_reachable] flag is true has a smaller index than every record
    whose flag is false. *)
Theorem dumpSampleSet_reachable_before_unreachable
    (SamplingSpaceType : SamplingSpace) (sample_dim : nat)
    (sample_list : list RmapSampling.Sample) (reachability_list : list bool)
    (i j : nat) (ri rj : RmapSampling.RmapSample) :
  length reachability_list = length sample_list ->
  let msg := RmapSampling.dumpSampleSet SamplingSpaceType sample_dim
               sample_list reachability_list in
  RmapSampling.samples msg !! i = Some ri ->
  RmapSampling.samples msg !! j = Some rj ->
  RmapSampling.is_reachable ri = true ->
  RmapSampling.is_reachable rj = false ->
  (i < j)%nat.
Proof.
  intros _ msg Hi Hj Hri Hrj. subst msg. simpl in Hi, Hj.
  rewrite dump_loop_samples in Hi, Hj.
  set (recs := RmapSampling.written_records _ _ _ _) in *.
  pose proof (reachable_part_all recs) as HR.
  pose proof (unreachable_part_all recs) as HU.
  rewrite List.Forall_forall in HR, HU.
  assert (Hilt : (i < length (RmapSampling.reachable_part recs))%nat).
  { destruct (Nat.lt_ge_cases i (length (RmapSampling.reachable_part recs)))
      as [H | H]; [exact H|].
    rewrite lookup_app_r in Hi by exact H.
    apply list_elem_of_lookup_2, list_elem_of_In, HU in Hi. congruence. }
  assert (Hjge : (length (RmapSampling.reachable_part recs) <= j)%nat).
  { destruct (Nat.lt_ge_cases j (length (RmapSampling.reachable_part recs)))
      as [H | H]; [|exact H].
    rewrite lookup_app_l in Hj by exact H.
    apply list_elem_of_lookup_2, list_elem_of_In, HR in Hj. congruence. }
  lia.
Qed.

Lemma dumpSampleSet_reachable_before_unreachable_witness :
  let sample_list := [[1; 2]; [3; 4]; [5; 6]]%Q in
  let reachability_list := [false; true; true] in
  let msg := RmapSampling.dumpSampleSet R2 2 sample_list reachability_list in
  RmapSampling.samples msg !! 1%nat
  = Some (RmapSampling.record_of [5; 6]%Q true)
  /\ RmapSampling.samples msg !! 2%nat
     = Some (RmapSampling.record_of [1; 2]%Q false)
  /\ (1 < 2)%nat.
Proof.
  intros sample_list reachability_list msg.
  split; [reflexivity|]. split; [reflexivity|].
  apply (dumpSampleSet_reachable_before_unreachable
           R2 2 sample_list reachability_list 1 2
           (RmapSampling.record_of [5; 6]%Q true)
           (RmapSampling.record_of [1; 2]%Q false));
    reflexivity.
Defined.

Section DumpMinMax.
Import RmapSampling.
Local Open Scope nat_scope.

Variable SamplingSpaceType : SamplingSpace.
Variable sample_dim : nat.
Variable sample_list : list Sample.
Variable reachability_list : list bool.
Hypothesis sample_sizes : Forall (fun s => length s = sample_dim) sample_list.

Let msg := dumpSampleSet SamplingSpaceType sample_dim sample_list
                         reachability_list.

Lemma sample_sizes_repeat (x : Q) :
  Forall (fun s : Sample => length s = length (repeat x sample_dim))
         sample_list.
Proof.
  eapply List.Forall_impl; [|exact sample_sizes].
  simpl. intros s Hs. now rewrite repeat_length.
Qed.

Lemma dump_min_fold :
  min msg = fold_left cwiseMin sample_list (repeat sentinel_min sample_dim).
Proof.
  unfold msg, dumpSampleSet, dump_loop; simpl.
  destruct (dump_loop_min_max sample_dim sample_list reachability_list
              (length sample_list) (Nat.le_refl _)) as [Hmin _].
  cbv zeta in Hmin. rewrite Hmin, firstn_all.
  set (v := fold_left _ _ _).
  assert (Hv : length v = sample_dim).
  { unfold v, cwiseMin. rewrite fold_cwise_length.
    - apply repeat_length.
    - apply sample_sizes_repeat. }
  rewrite <- Hv at 1. apply copy_vector_id.
Qed.

Lemma dump_max_fold :
  max msg = fold_left cwiseMax sample_list (repeat sentinel_max sample_dim).
Proof.
  unfold msg, dumpSampleSet, dump_loop; simpl.
  destruct (dump_loop_min_max sample_dim sample_list reachability_list
              (length sample_list) (Nat.le_refl _)) as [_ Hmax].
  cbv zeta in Hmax. rewrite Hmax, firstn_all.
  set (v := fold_left _ _ _).
  assert (Hv : length v = sample_dim).
  { unfold v, cwiseMax. rewrite fold_cwise_length.
    - apply repeat_length.
    - apply sample_sizes_repeat. }
  rewrite <- Hv at 1. apply copy_vector_id.
Qed.

Lemma dump_min_component (k : nat) :
  k < sample_dim ->
  least_of (nth k (min msg) 0%Q) (sentinel_min :: component k sample_list).
Proof.
  intros Hk. rewrite dump_min_fold. unfold cwiseMin.
  rewrite fold_cwise_nth.
  - rewrite nth_repeat_lt by exact Hk. apply fold_Qmin_least.
  - apply sample_sizes_repeat.
  - now rewrite repeat_length.
Qed.

Lemma dump_max_component (k : nat) :
  k < sample_dim ->
  greatest_of (nth k (max msg) 0%Q) (sentinel_max :: component k sample_list).
Proof.
  intros Hk. rewrite dump_max_fold. unfold cwiseMax.
  rewrite fold_cwise_nth.
  - rewrite nth_repeat_lt by exact Hk. apply fold_Qmax_greatest.
  - apply sample_sizes_repeat.
  - now rewrite repeat_length.
Qed.

Lemma component_within (k : nat) (x : Q) :
  k < sample_dim -> within_sentinels sample_list ->
  In x (component k sample_list) ->
  (sentinel_max <= x)%Q /\ (x <= sentinel_min)%Q.
Proof.
  intros Hk Hin Hx. unfold component in Hx.
  apply List.in_map_iff in Hx. destruct Hx as (s & <- & Hs).
  unfold within_sentinels in Hin.
  rewrite List.Forall_forall in Hin. specialize (Hin s Hs).
  rewrite List.Forall_forall in Hin. apply Hin.
  apply nth_In.
  pose proof sample_sizes as Hsz. rewrite List.Forall_forall in Hsz.
  rewrite (Hsz s Hs). exact Hk.
Qed.

Lemma some_component (k : nat) :
  sample_list <> [] -> exists c, In c (component k sample_list).
Proof.
  clear sample_sizes msg. destruct sample_list as [|s l]; [congruence|].
  intros _. exists (nth k s 0%Q). now left.
Qed.

Lemma dump_min_component_in_range (k : nat) :
  k < sample_dim -> sample_list <> [] -> within_sentinels sample_list ->
  least_of (nth k (min msg) 0%Q) (component k sample_list).
Proof.
  intros Hk Hne Hin.
  destruct (dump_min_component k Hk) as [(x & Hx & Hm) Hall].
  inversion Hall as [|? ? _ Htail]; subst. split; [|exact Htail].
  destruct Hx as [<- | Hx]; [|now exists x].
  destruct (some_component k Hne) as (c & Hc).
  exists c. split; [exact Hc|].
  rewrite List.Forall_forall in Htail.
  apply Qle_antisym; [now apply Htail|]. rewrite Hm.
  now apply (component_within k c Hk Hin).
Qed.

Lemma dump_max_component_in_range (k : nat) :
  k < sample_dim -> sample_list <> [] -> within_sentinels sample_list ->
  greatest_of (nth k (max msg) 0%Q) (component k sample_list).
Proof.
  intros Hk Hne Hin.
  destruct (dump_max_component k Hk) as [(x & Hx & Hm) Hall].
  inversion Hall as [|? ? _ Htail]; subst. split; [|exact Htail].
  destruct Hx as [<- | Hx]; [|now exists x].
  destruct (some_component k Hne) as (c & Hc).
  exists c. split; [exact Hc|].
  rewrite List.Forall_forall in Htail.
  apply Qle_antisym; [|now apply Htail]. rewrite Hm.
  now apply (component_within k c Hk Hin).
Qed.
End DumpMinMax.

(** C10, as the code has it.  [dumpSampleSet] writes one record per input
    sample: the record list is a permutation of the input (sample, flag)
    pairs, each record holding its sample's components and flag.  Each
    component of the persisted [min] ([max]) is the least (greatest) among
    the sentinel [1e10] ([-1e10]) and that component of all input samples;
    it is the sentinel vector for an empty list, and the componentwise
    minimum (maximum) of the samples when the list is not empty and no
    component lies outside the sentinels. *)
Theorem dumpSampleSet_records_and_bounds
    (SamplingSpaceType : SamplingSpace) (sample_dim : nat)
    (sample_list : list RmapSampling.Sample) (reachability_list : list bool) :
  length reachability_list = length sample_list ->
  Forall (fun s => length s = sample_dim) sample_list ->
  let msg := RmapSampling.dumpSampleSet SamplingSpaceType sample_dim
               sample_list reachability_list in
  length (RmapSampling.samples msg) = length sample_list
  /\ Permutation (RmapSampling.samples msg)
                 (zip_with RmapSampling.record_of sample_list reachability_list)
  /\ (forall k, (k < sample_dim)%nat ->
        RmapSampling.least_of
          (nth k (RmapSampling.min msg) 0%Q)
          (RmapSampling.sentinel_min :: RmapSampling.component k sample_list)
        /\ RmapSampling.greatest_of
             (nth k (RmapSampling.max msg) 0%Q)
             (RmapSampling.sentinel_max :: RmapSampling.component k sample_list))
  /\ (sample_list = [] ->
        RmapSampling.min msg = repeat RmapSampling.sentinel_min sample_dim
        /\ RmapSampling.max msg = repeat RmapSampling.sentinel_max sample_dim)
  /\ (sample_list <> [] -> RmapSampling.within_sentinels sample_list ->
        RmapSampling.bounds_of_samples sample_dim sample_list
          (RmapSampling.min msg) (RmapSampling.max msg)).
Proof.
  intros Hlen Hsz msg.
  assert (Hperm : Permutation (RmapSampling.samples msg)
            (zip_with RmapSampling.record_of sample_list reachability_list)).
  { subst msg. simpl. rewrite dump_loop_samples.
    rewrite <- (written_records_all sample_dim) by assumption.
    apply parts_permutation. }
  split; [|split; [exact Hperm|split; [|split]]].
  - rewrite (Permutation_length Hperm).
    rewrite length_zip_with. lia.
  - intros k Hk. split.
    + now apply dump_min_component.
    + now apply dump_max_component.
  - intros ->. subst msg.
    rewrite dump_min_fold, dump_max_fold by constructor. split; reflexivity.
  - intros Hne Hin k Hk. split.
    + now apply dump_min_component_in_range.
    + now apply dump_max_component_in_range.
Qed.

Lemma dumpSampleSet_records_and_bounds_witness :
  let sample_list := [[1; 5]; [3; 4]; [2; 6]]%Q in
  let reachability_list := [false; true; false] in
  let msg := RmapSampling.dumpSampleSet R2 2 sample_list reachability_list in
  length reachability_list = length sample_list
  /\ Forall (fun s => length s = 2%nat) sample_list
  /\ Permutation (RmapSampling.samples msg)
       (zip_with RmapSampling.record_of sample_list reachability_list)
  /\ RmapSampling.bounds_of_samples 2 sample_list
       (RmapSampling.min msg) (RmapSampling.max msg).
Proof.
  intros sample_list reachability_list msg.
  assert (Hlen : length reachability_list = length sample_list)
    by reflexivity.
  assert (Hsz : Forall (fun s => length s = 2%nat) sample_list)
    by (repeat constructor).
  destruct (dumpSampleSet_records_and_bounds
              R2 2 sample_list reachability_list Hlen Hsz)
    as (_ & Hperm & _ & _ & Hbounds).
  split; [exact Hlen|]. split; [exact Hsz|]. split; [exact Hperm|].
  apply Hbounds; [discriminate|].
  repeat constructor; vm_compute; discriminate.
Defined.

(** The claim C10 as stated fails: a sample component above the sentinel
    [1e10] is not reflected in the persisted minimum. *)
Lemma dumpSampleSet_min_capped_by_sentinel :
  let sample_list := [[20000000000; 0]%Q] in
  let msg := RmapSampling.dumpSampleSet R2 2 sample_list [true] in
  RmapSampling.min msg = [10000000000; 0]%Q
  /\ ~ RmapSampling.bounds_of_samples 2 sample_list
         (RmapSampling.min msg) (RmapSampling.max msg).
Proof.
  split; [reflexivity|].
  intros H. destruct (H 0%nat) as [[(x & Hx & Hm) _] _]; [lia|].
  simpl in Hx. destruct Hx as [<- | []].
  vm_compute in Hm. discriminate Hm.
Qed.

(** ** Loops and block writes *)

Section LoopFacts.
Lemma for_loop_nonpos {S : Type} (n : Z) (body : Z -> S -> S) (s : S) :
  n <= 0 -> for_loop n body s = s.
Proof.
  intros Hn. unfold for_loop.
  replace (Z.to_nat n) with 0%nat by lia. reflexivity.
Qed.

Lemma for_loop_succ {S : Type} (n : Z) (body : Z -> S -> S) (s : S) :
  0 <= n -> for_loop (n + 1) body s = body n (for_loop n body s).
Proof.
  intros Hn. unfold for_loop.
  replace (Z.to_nat (n + 1)) with (Datatypes.S (Z.to_nat n)) by lia.
  rewrite seq_S, fold_left_app. simpl.
  now rewrite Z2Nat.id by exact Hn.
Qed.

(** Induction over the turns of a loop. *)
Lemma for_loop_invariant {S : Type} (P : Z -> S -> Prop)
      (n : Z) (body : Z -> S -> S) (s : S) :
  P 0 s ->
  (forall i t, 0 <= i < n -> P i t -> P (i + 1) (body i t)) ->
  0 <= n ->
  P n (for_loop n body s).
Proof.
  intros Hinit Hstep Hn.
  assert (H : forall k : nat, Z.of_nat k <= n ->
                P (Z.of_nat k) (for_loop (Z.of_nat k) body s)).
  { induction k as [|k IH]; intros Hk.
    - simpl. rewrite for_loop_nonpos by lia. exact Hinit.
    - rewrite Nat2Z.inj_succ, <- Z.add_1_r.
      rewrite for_loop_succ by lia. apply Hstep; [lia|]. apply IH. lia. }
  specialize (H (Z.to_nat n)). rewrite Z2Nat.id in H by exact Hn.
  apply H. lia.
Qed.

Lemma velDim_pos (s : SamplingSpace) : 0 < velDim s.
Proof. destruct s; reflexivity. Qed.

(** A position inside block [bi] is inside block [i] only when [bi = i]. *)
Lemma block_position_unique (vd bi i a b : Z) :
  0 <= a < vd -> 0 <= b < vd ->
  bi * vd + a = i * vd + b -> bi = i /\ a = b.
Proof.
  intros Ha Hb H.
  assert (Hd : (bi - i) * vd = b - a) by lia.
  destruct (Z.lt_trichotomy bi i) as [Hlt | [-> | Hgt]].
  - assert ((bi - i) * vd <= -1 * vd) by (apply Z.mul_le_mono_nonneg_r; lia).
    lia.
  - lia.
  - assert (1 * vd <= (bi - i) * vd) by (apply Z.mul_le_mono_nonneg_r; lia).
    lia.
Qed.

Lemma block_diagonal_entry (m : MatrixXd) (vd i j : Z) (c : Q)
      (bi bj a b : Z) :
  0 <= a < vd -> 0 <= b < vd ->
  block_diagonal_setConstant m (i * vd) (j * vd) vd c
                             (bi * vd + a) (bj * vd + b)
  = if (bi =? i) && (bj =? j) && (a =? b) then c
    else m (bi * vd + a) (bj * vd + b).
Proof.
  intros Ha Hb. unfold block_diagonal_setConstant, in_range.
  destruct (Z.eqb_spec bi i) as [-> | Hbi]; simpl.
  - replace (i * vd <=? i * vd + a) with true by (symmetry; apply Z.leb_le; lia).
    replace (i * vd + a <? i * vd + vd) with true by (symmetry; apply Z.ltb_lt; lia).
    simpl.
    destruct (Z.eqb_spec bj j) as [-> | Hbj]; simpl.
    + destruct (Z.eqb_spec a b) as [-> | Hab].
      * now replace (j * vd + b - j * vd =? i * vd + b - i * vd) with true
          by (symmetry; apply Z.eqb_eq; lia).
      * now replace (j * vd + b - j * vd =? i * vd + a - i * vd) with false
          by (symmetry; apply Z.eqb_neq; lia).
    + replace (bj * vd + b - j * vd =? i * vd + a - i * vd) with false;
        [reflexivity|].
      symmetry; apply Z.eqb_neq. intros H.
      assert (bj * vd + b = j * vd + a) as H' by lia.
      apply block_position_unique in H'; [tauto | lia | lia].
  - destruct ((i * vd <=? bi * vd + a) && (bi * vd + a <? i * vd + vd))
      eqn:E; [|reflexivity].
    exfalso. apply andb_prop in E. destruct E as [E1 E2].
    apply Z.leb_le in E1. apply Z.ltb_lt in E2. apply Hbi.
    destruct (Z.lt_trichotomy bi i) as [Hlt | [Heq | Hgt]]; [|exact Heq|].
    + assert ((bi + 1) * vd <= i * vd)
        by (apply Z.mul_le_mono_nonneg_r; lia). lia.
    + assert ((i + 1) * vd <= bi * vd)
        by (apply Z.mul_le_mono_nonneg_r; lia). lia.
Qed.
End LoopFacts.

(** ** The adjacency regularization *)

Ltac bool_hyps :=
  repeat match goal with
    | H : (_ && _)%bool = true |- _ => apply andb_prop in H; destruct H
    | H : (_ && _)%bool = false |- _ =>
        apply andb_false_iff in H; destruct H
    | H : (_ || _)%bool = true |- _ => apply orb_prop in H; destruct H
    | H : (_ || _)%bool = false |- _ =>
        apply orb_false_iff in H; destruct H
    | H : negb _ = true |- _ => apply negb_true_iff in H
    | H : negb _ = false |- _ => apply negb_false_iff in H
    | H : (_ =? _) = true |- _ => apply Z.eqb_eq in H
    | H : (_ =? _) = false |- _ => apply Z.eqb_neq in H
    | H : (_ <? _) = true |- _ => apply Z.ltb_lt in H
    | H : (_ <? _) = false |- _ => apply Z.ltb_ge in H
    | H : (_ <=? _) = true |- _ => apply Z.leb_le in H
    | H : (_ <=? _) = false |- _ => apply Z.leb_gt in H
    end.

Ltac case_if :=
  match goal with
  | |- context [if ?c then _ else _] =>
      let E := fresh "E" in
      destruct c eqn:E; bool_hyps; try (exfalso; lia)
  end.

Section ChainFacts.
Import Blocks.
Variable SamplingSpaceType : SamplingSpace.
Let vd := velDim SamplingSpaceType.

Lemma adjacent_chain_entry (sb len : Z) (w : Q) (m : MatrixXd)
      (bi bj a b : Z) :
  0 <= len -> 0 <= a < vd -> 0 <= b < vd ->
  Footstep.adjacent_chain SamplingSpaceType (sb * vd) len w m
                          (bi * vd + a) (bj * vd + b)
  = chain_after sb len len w (m (bi * vd + a) (bj * vd + b)) bi bj a b.
Proof.
  intros Hlen Ha Hb. unfold Footstep.adjacent_chain.
  apply (for_loop_invariant
           (fun n t => t (bi * vd + a) (bj * vd + b)
                       = chain_after sb n len w
                           (m (bi * vd + a) (bj * vd + b)) bi bj a b));
    [| |exact Hlen].
  - unfold chain_after, in_range. repeat case_if; reflexivity.
  - intros i t Hi IH. unfold Footstep.vel_dim_. fold vd. cbv beta.
    replace (sb * vd + i * vd) with ((sb + i) * vd) by ring.
    replace (sb * vd + (i + 1) * vd) with ((sb + i + 1) * vd) by ring.
    destruct (Z.eqb_spec i (len - 1)) as [Hlast | Hlast]; cbn [negb].
    + rewrite block_diagonal_entry by assumption. rewrite IH.
      unfold chain_after, in_range.
      repeat case_if; try reflexivity; subst; try (exfalso; lia);
        repeat f_equal; lia.
    + rewrite !block_diagonal_entry by assumption. rewrite IH.
      unfold chain_after, in_range.
      repeat case_if; try reflexivity; subst; try (exfalso; lia);
        repeat f_equal; lia.
Qed.
End ChainFacts.

Section AdjacencyFacts.
Import Blocks.
Context {M : Manifold}.
Variable SamplingSpaceType : SamplingSpace.
Let vd := velDim SamplingSpaceType.

Lemma footstep_adjacency (config : Footstep.Configuration M)
      (p : Footstep.Planner) :
  0 <= Footstep.footstep_num config ->
  scalar_blocks vd (Footstep.footstep_num config)
    (chain_coeff (Footstep.footstep_num config)
                 (Footstep.adjacent_reg_weight config))
    (block vd (Footstep.adjacent_reg_mat_
                 (Footstep.setup SamplingSpaceType config p))).
Proof.
  intros Hlen bi bj a b Hbi Hbj Ha Hb. unfold block. simpl.
  change 0 with (0 * vd) at 1.
  rewrite adjacent_chain_entry by assumption.
  unfold chain_after, chain_coeff, in_range, zero_mat.
  repeat case_if; cbn [inject_Z]; try reflexivity; ring.
Qed.

Lemma locomanip_adjacency (config : Locomanip.Configuration M)
      (p : Locomanip.Planner) :
  0 <= Locomanip.motion_len config ->
  scalar_blocks vd (2 * Locomanip.motion_len config)
    (two_chains_coeff (Locomanip.motion_len config)
                      (Locomanip.adjacent_reg_weight config))
    (block vd (Locomanip.adjacent_reg_mat_
                 (Locomanip.setup SamplingSpaceType config p))).
Proof.
  intros Hlen bi bj a b Hbi Hbj Ha Hb. unfold block. simpl.
  unfold Locomanip.vel_dim_. fold vd.
  rewrite adjacent_chain_entry by assumption.
  change 0 with (0 * vd) at 1.
  rewrite adjacent_chain_entry by assumption.
  unfold chain_after, two_chains_coeff, chain_coeff, in_range, zero_mat.
  repeat case_if; cbn [inject_Z]; try reflexivity; ring.
Qed.
End AdjacencyFacts.

(** C2, as the code has it.  For a horizon of [N >= 1] waypoints and
    weight [w], the adjacency-regularization matrix that
    [RmapPlanningFootstep::setup] builds is block-tridiagonal: its diagonal
    blocks are [2w * I], except the last, which is [w * I]; the blocks of
    neighbouring waypoints are [-w * I]; every other block is zero.  The
    matrix of [RmapPlanningLocomanip::setup] consists of two such chains,
    one for the feet and one for the hand, and is zero between them. *)
Theorem adjacency_regularization_blocks
    (M : Manifold) (SamplingSpaceType : SamplingSpace)
    (footstep_config : Footstep.Configuration M) (footstep : Footstep.Planner)
    (locomanip_config : Locomanip.Configuration M)
    (locomanip : Locomanip.Planner) :
  (1 <= Footstep.footstep_num footstep_config ->
   Blocks.scalar_blocks (velDim SamplingSpaceType)
     (Footstep.footstep_num footstep_config)
     (Blocks.chain_coeff (Footstep.footstep_num footstep_config)
                         (Footstep.adjacent_reg_weight footstep_config))
     (Blocks.block (velDim SamplingSpaceType)
        (Footstep.adjacent_reg_mat_
           (Footstep.setup SamplingSpaceType footstep_config footstep))))
  /\ (1 <= Locomanip.motion_len locomanip_config ->
      Blocks.scalar_blocks (velDim SamplingSpaceType)
        (2 * Locomanip.motion_len locomanip_config)
        (Blocks.two_chains_coeff
           (Locomanip.motion_len locomanip_config)
           (Locomanip.adjacent_reg_weight locomanip_config))
        (Blocks.block (velDim SamplingSpaceType)
           (Locomanip.adjacent_reg_mat_
              (Locomanip.setup SamplingSpaceType locomanip_config
                               locomanip)))).
Proof.
  split; intros Hlen.
  - apply footstep_adjacency. lia.
  - apply locomanip_adjacency. lia.
Qed.

Lemma adjacency_regularization_blocks_witness :
  let m := Footstep.adjacent_reg_mat_
             (Footstep.setup R2 (Flat.footstep_config 2 3 (1 # 2) false)
                             (Flat.footstep_new [])) in
  (Blocks.block 2 m 0 0 1 1 == 1)%Q
  /\ (Blocks.block 2 m 2 2 1 1 == 1 # 2)%Q
  /\ (Blocks.block 2 m 1 2 0 0 == - (1 # 2))%Q
  /\ (Blocks.block 2 m 0 2 0 0 == 0)%Q.
Proof.
  pose proof (proj1 (adjacency_regularization_blocks
                       (Flat.manifold 2) R2
                       (Flat.footstep_config 2 3 (1 # 2) false)
                       (Flat.footstep_new [])
                       (Flat.locomanip_config 2 1 1)
                       (Flat.locomanip_new [])) ltac:(simpl; lia)) as H.
  split; [|split; [|split]].
  - rewrite (H 0 0 1 1) by (simpl; lia). reflexivity.
  - rewrite (H 2 2 1 1) by (simpl; lia). reflexivity.
  - rewrite (H 1 2 0 0) by (simpl; lia). reflexivity.
  - rewrite (H 0 2 0 0) by (simpl; lia). reflexivity.
Defined.

(** The claim C2 as stated fails: with two waypoints the first diagonal
    block is [2w * I], not [w * I]. *)
Lemma adjacency_first_block_is_doubled :
  let m := Footstep.adjacent_reg_mat_
             (Footstep.setup R2 (Flat.footstep_config 2 2 1 false)
                             (Flat.footstep_new [])) in
  (Blocks.block 2 m 0 0 0 0 == 2)%Q
  /\ ~ Blocks.scalar_blocks 2 2 (Blocks.laplacian_coeff 2 1) (Blocks.block 2 m).
Proof.
  split; [reflexivity|].
  intros H. specialize (H 0 0 0 0).
  assert (H' : 0 <= 0 < 2) by lia.
  specialize (H H' H' H' H'). vm_compute in H. discriminate H.
Qed.

(** ** The variables of the QP and their bounds *)

(** C3, as the code has it.  [RmapPlanningLocomanip::setup] gives the QP
    one velocity block per waypoint (the foot and the hand waypoints of
    every step) and one slack variable per inequality row; the velocity
    variables are bounded by plus and minus the configured limit, the
    slack variables by plus and minus [1e10].
    [RmapPlanningFootstep::setup] gives the QP one velocity block per
    waypoint and no slack variable, although it has one inequality row per
    waypoint; every variable is bounded by plus and minus the limit. *)
Theorem setup_variables_and_bounds
    (M : Manifold) (SamplingSpaceType : SamplingSpace)
    (footstep_config : Footstep.Configuration M) (footstep : Footstep.Planner)
    (locomanip_config : Locomanip.Configuration M)
    (locomanip : Locomanip.Planner) :
  let vd := velDim SamplingSpaceType in
  let N := Footstep.footstep_num footstep_config in
  let L := Locomanip.motion_len locomanip_config in
  let fqp := Footstep.qp_coeff_
               (Footstep.setup SamplingSpaceType footstep_config footstep) in
  let lqp := Locomanip.qp_coeff_
               (Locomanip.setup SamplingSpaceType locomanip_config locomanip) in
  (dim_var_ fqp = vd * N
   /\ dim_ineq_ fqp = N
   /\ forall j,
       x_min_ fqp j = (- Footstep.delta_config_limit footstep_config)%Q
       /\ x_max_ fqp j = Footstep.delta_config_limit footstep_config)
  /\ (one_slack_per_inequality vd (L + L) lqp
      /\ dim_ineq_ lqp = 3 * L - 1
      /\ (forall j, 0 <= j < vd * (L + L) ->
            x_min_ lqp j = (- Locomanip.delta_config_limit locomanip_config)%Q
            /\ x_max_ lqp j = Locomanip.delta_config_limit locomanip_config)
      /\ (forall j, vd * (L + L) <= j < dim_var_ lqp ->
            x_min_ lqp j = (- (10000000000))%Q
            /\ x_max_ lqp j = 10000000000%Q)).
Proof.
  intros vd N L fqp lqp. split; [|split; [|split; [|split]]].
  - repeat split.
  - unfold one_slack_per_inequality. subst lqp. simpl.
    unfold Locomanip.vel_dim_. fold vd L. ring.
  - subst lqp. simpl. fold L. ring.
  - intros j Hj. subst lqp. simpl.
    unfold segment_setConstant, in_range, Locomanip.vel_dim_.
    fold vd L. split; repeat case_if; reflexivity.
  - intros j Hj. subst lqp. simpl in *.
    unfold segment_setConstant, in_range, Locomanip.vel_dim_ in *.
    fold vd L in Hj |- *. split; repeat case_if; reflexivity.
Qed.

Lemma setup_variables_and_bounds_witness :
  let lqp := Locomanip.qp_coeff_
               (Locomanip.setup R2 (Flat.locomanip_config 2 2 1)
                                (Flat.locomanip_new [])) in
  dim_var_ lqp = 13
  /\ x_max_ lqp 7 = (1 # 10)%Q
  /\ x_max_ lqp 8 = 10000000000%Q
  /\ x_min_ lqp 12 = (- (10000000000))%Q.
Proof.
  destruct (setup_variables_and_bounds
              (Flat.manifold 2) R2
              (Flat.footstep_config 2 1 1 false) (Flat.footstep_new [])
              (Flat.locomanip_config 2 2 1) (Flat.locomanip_new []))
    as (_ & Hdim & _ & Hvel & Hslack).
  split; [exact Hdim|]. split; [|split].
  - apply (Hvel 7). simpl. lia.
  - apply (Hslack 8). simpl. lia.
  - apply (Hslack 12). simpl. lia.
Defined.

(** The claim C3 as stated fails for the footstep planner: its QP has one
    inequality row per waypoint and no slack variable. *)
Lemma footstep_setup_has_no_slack_variable :
  let fqp := Footstep.qp_coeff_
               (Footstep.setup R2 (Flat.footstep_config 2 1 1 false)
                               (Flat.footstep_new [])) in
  dim_var_ fqp = 2 /\ dim_ineq_ fqp = 1
  /\ ~ one_slack_per_inequality 2 1 fqp.
Proof.
  split; [reflexivity|]. split; [reflexivity|].
  unfold one_slack_per_inequality. simpl. discriminate.
Qed.

(** ** The locomanipulation planner *)

Section LocomanipFacts.
Context {M : Manifold}.
Variable SamplingSpaceType : SamplingSpace.
Variable config_ : Locomanip.Configuration M.
Variable rmapPlanning : Locomanip.Limb -> SvmModel.
Variable qp_solver_ : QpSolver.

Let vd := velDim SamplingSpaceType.
Let L := Locomanip.motion_len config_.
Let runOnce :=
  Locomanip.runOnce SamplingSpaceType config_ rmapPlanning qp_solver_.
Let configured :=
  Locomanip.configured SamplingSpaceType config_ rmapPlanning qp_solver_.
Let inequality :=
  Locomanip.inequality SamplingSpaceType config_ rmapPlanning.
Let foot_ineq_row :=
  Locomanip.foot_ineq_row SamplingSpaceType rmapPlanning.
Let foot_ineq_value := Locomanip.foot_ineq_value config_ rmapPlanning.

Lemma locomanip_runOnce_qp (p : Locomanip.Planner) :
  let qp := Locomanip.qp_coeff_ (runOnce p) in
  dim_var_ qp = dim_var_ (Locomanip.qp_coeff_ p)
  /\ dim_ineq_ qp = dim_ineq_ (Locomanip.qp_coeff_ p)
  /\ ineq_mat_ qp = fst (inequality p)
  /\ ineq_vec_ qp = snd (inequality p)
  /\ Locomanip.config_dim_ (runOnce p) = Locomanip.config_dim_ p
  /\ Locomanip.svm_ineq_dim_ (runOnce p) = Locomanip.svm_ineq_dim_ p
  /\ Locomanip.collision_ineq_dim_ (runOnce p)
     = Locomanip.collision_ineq_dim_ p.
Proof.
  subst runOnce inequality. unfold Locomanip.runOnce.
  destruct (qp_solver_ _) as [solution failed].
  destruct (Locomanip.integrate _ _ _ _) as [foot_seq hand_seq].
  simpl. repeat split.
Qed.

(** What [setup] fixes stays fixed. *)
Lemma locomanip_configured_dims (p : Locomanip.Planner) :
  configured p ->
  Locomanip.config_dim_ p = 2 * L * vd
  /\ Locomanip.svm_ineq_dim_ p = 3 * L - 1
  /\ Locomanip.collision_ineq_dim_ p = 0
  /\ dim_var_ (Locomanip.qp_coeff_ p) = 2 * L * vd + (3 * L - 1)
  /\ dim_ineq_ (Locomanip.qp_coeff_ p) = 3 * L - 1.
Proof.
  induction 1 as [p | p Hp IH | s p Hp IH].
  - simpl. unfold Locomanip.vel_dim_. fold vd L. repeat split; ring.
  - destruct (locomanip_runOnce_qp p) as (Hv & Hi & _ & _ & Hc & Hs & Hk).
    fold runOnce. rewrite Hv, Hi, Hc, Hs, Hk. exact IH.
  - exact IH.
Qed.

(** The loop over the feet writes row [i] in turn [i], and nothing
    else. *)
Lemma locomanip_foot_loop (p : Locomanip.Planner) (n : Z) :
  0 <= n ->
  let t := for_loop n
    (fun i '(ineq_mat, ineq_vec) =>
       let ineq_mat :=
         if 0 <? i then
           row_block_assign ineq_mat i ((i - 1) * vd) vd
                            (foot_ineq_row p i false)
         else ineq_mat in
       let ineq_mat :=
         row_block_assign ineq_mat i (i * vd) vd (foot_ineq_row p i true) in
       let ineq_vec :=
         segment_assign ineq_vec i 1 [foot_ineq_value p i] in
       (ineq_mat, ineq_vec))
    (zero_mat, zero_vec) in
  (forall r k,
      fst t r k
      = if in_range 0 n r then
          if in_range (r * vd) vd k
          then entry (foot_ineq_row p r true) (k - r * vd)
          else if (0 <? r) && in_range ((r - 1) * vd) vd k
               then entry (foot_ineq_row p r false) (k - (r - 1) * vd)
               else 0%Q
        else 0%Q)
  /\ (forall r,
      snd t r = if in_range 0 n r then foot_ineq_value p r else 0%Q).
Proof.
  intros Hn.
  apply (for_loop_invariant
    (fun n (t : MatrixXd * VectorXd) =>
       (forall r k,
           fst t r k
           = if in_range 0 n r then
               if in_range (r * vd) vd k
               then entry (foot_ineq_row p r true) (k - r * vd)
               else if (0 <? r) && in_range ((r - 1) * vd) vd k
                    then entry (foot_ineq_row p r false) (k - (r - 1) * vd)
                    else 0%Q
             else 0%Q)
       /\ (forall r,
           snd t r = if in_range 0 n r then foot_ineq_value p r else 0%Q)));
    [| |exact Hn].
  - split; intros; unfold in_range; simpl; case_if; reflexivity.
  - intros i [A b] Hi [HA Hb]. simpl in HA, Hb. split.
    + intros r k. simpl. unfold row_block_assign.
      destruct (Z.eqb_spec r i) as [-> | Hr]; cbn [andb].
      * replace (in_range 0 (i + 1) i) with true
          by (unfold in_range; symmetry; apply andb_true_intro; split;
              [apply Z.leb_le | apply Z.ltb_lt]; lia).
        destruct (in_range (i * vd) vd k) eqn:Esuc; [reflexivity|].
        destruct (0 <? i) eqn:Epos; cbn [andb].
        -- unfold row_block_assign. rewrite Z.eqb_refl. cbn [andb].
           destruct (in_range ((i - 1) * vd) vd k); [reflexivity|].
           rewrite HA. unfold in_range. case_if. reflexivity.
        -- rewrite HA. unfold in_range. case_if. reflexivity.
      * assert (Hsame : in_range 0 (i + 1) r = in_range 0 i r).
        { unfold in_range. apply eq_true_iff_eq.
          rewrite !andb_true_iff, !Z.leb_le, !Z.ltb_lt. lia. }
        rewrite Hsame, <- HA.
        destruct (0 <? i); [|reflexivity].
        unfold row_block_assign.
        destruct (Z.eqb_spec r i); [contradiction|]. reflexivity.
    + intros r. simpl. unfold segment_assign.
      destruct (in_range i 1 r) eqn:E.
      * unfold in_range in E. bool_hyps. assert (r = i) as -> by lia.
        rewrite Z.sub_diag.
        replace (in_range 0 (i + 1) i) with true
          by (unfold in_range; symmetry; apply andb_true_intro; split;
              [apply Z.leb_le | apply Z.ltb_lt]; lia).
        reflexivity.
      * rewrite Hb. unfold in_range in *. repeat case_if; reflexivity.
Qed.
End LocomanipFacts.

Lemma block_bound (vd len i a : Z) :
  0 <= i < len -> 0 <= a < vd ->
  0 <= i * vd /\ i * vd + a < len * vd /\ (i + 1) * vd <= len * vd.
Proof.
  intros Hi Ha.
  assert (0 * vd <= i * vd) by (apply Z.mul_le_mono_nonneg_r; lia).
  assert ((i + 1) * vd <= len * vd) by (apply Z.mul_le_mono_nonneg_r; lia).
  lia.
Qed.

Section LocomanipRows.
Context {M : Manifold}.
Variable SamplingSpaceType : SamplingSpace.
Variable config_ : Locomanip.Configuration M.
Variable rmapPlanning : Locomanip.Limb -> SvmModel.
Variable qp_solver_ : QpSolver.

Let vd := velDim SamplingSpaceType.
Let L := Locomanip.motion_len config_.

Lemma locomanip_inequality_entries (p : Locomanip.Planner) :
  0 <= L ->
  Locomanip.configured SamplingSpaceType config_ rmapPlanning qp_solver_ p ->
  let t := Locomanip.inequality SamplingSpaceType config_ rmapPlanning p in
  (forall r k,
      fst t r k
      = if in_range 0 (3 * L - 1) r && (k - 2 * L * vd =? r) then (-1)%Q
        else if in_range 0 L r then
          if in_range (r * vd) vd k
          then entry (Locomanip.foot_ineq_row SamplingSpaceType
                        rmapPlanning p r true) (k - r * vd)
          else if (0 <? r) && in_range ((r - 1) * vd) vd k
               then entry (Locomanip.foot_ineq_row SamplingSpaceType
                             rmapPlanning p r false) (k - (r - 1) * vd)
               else 0%Q
        else 0%Q)
  /\ (forall r,
      snd t r = if in_range 0 L r
                then Locomanip.foot_ineq_value config_ rmapPlanning p r
                else 0%Q).
Proof.
  intros HL Hp.
  destruct (locomanip_configured_dims _ _ _ _ p Hp)
    as (Hc & Hs & Hk & Hv & _).
  fold vd L in Hc, Hs, Hv.
  pose proof (locomanip_foot_loop SamplingSpaceType config_ rmapPlanning
                p L HL) as Hloop.
  cbv zeta in Hloop. unfold Locomanip.inequality.
  unfold Locomanip.vel_dim_. fold vd L.
  destruct (for_loop L _ _) as [A b]. simpl in Hloop |- *.
  destruct Hloop as [HA Hb]. split; [|exact Hb].
  intros r k. unfold block_diagonal_setConstant.
  rewrite Hs, Hk, Hv, HA.
  replace (2 * L * vd + (3 * L - 1) - (3 * L - 1 + 0)) with (2 * L * vd)
    by ring.
  now rewrite Z.sub_0_r.
Qed.
End LocomanipRows.

(** C4.  In the locomanipulation planner, with the constraints from foot
    to hand and the collision constraints absent, for every motion length
    [L >= 1]: the QP has exactly [3 L - 1] inequality rows; rows [0] to
    [L - 1] hold the linearized reachability constraints between
    consecutive feet, and the rows after them hold nothing but their slack
    coefficient; every row [i] has the coefficient [-1] on slack variable
    [i], and zero on the other slack variables. *)
Theorem locomanip_inequality_rows
    (M : Manifold) (SamplingSpaceType : SamplingSpace)
    (config_ : Locomanip.Configuration M)
    (rmapPlanning : Locomanip.Limb -> SvmModel) (qp_solver_ : QpSolver)
    (p : Locomanip.Planner) :
  let vd := velDim SamplingSpaceType in
  let L := Locomanip.motion_len config_ in
  let qp := Locomanip.qp_coeff_
              (Locomanip.runOnce SamplingSpaceType config_ rmapPlanning
                                 qp_solver_ p) in
  let row := Locomanip.foot_ineq_row SamplingSpaceType rmapPlanning p in
  1 <= L ->
  Locomanip.configured SamplingSpaceType config_ rmapPlanning qp_solver_ p ->
  dim_ineq_ qp = 3 * L - 1
  /\ dim_var_ qp = 2 * L * vd + dim_ineq_ qp
  /\ (forall i, 0 <= i < L ->
        ineq_vec_ qp i = Locomanip.foot_ineq_value config_ rmapPlanning p i
        /\ (forall a, 0 <= a < vd ->
              ineq_mat_ qp i (i * vd + a) = entry (row i true) a)
        /\ (forall a, 0 < i -> 0 <= a < vd ->
              ineq_mat_ qp i ((i - 1) * vd + a) = entry (row i false) a)
        /\ (forall k, 0 <= k < 2 * L * vd ->
              k < (i - 1) * vd \/ (i + 1) * vd <= k ->
              ineq_mat_ qp i k = 0%Q))
  /\ (forall i, L <= i < 3 * L - 1 ->
        ineq_vec_ qp i = 0%Q
        /\ forall k, 0 <= k < 2 * L * vd -> ineq_mat_ qp i k = 0%Q)
  /\ (forall i j, 0 <= i < 3 * L - 1 -> 0 <= j < 3 * L - 1 ->
        ineq_mat_ qp i (2 * L * vd + j) = if i =? j then (-1)%Q else 0%Q).
Proof.
  intros vd L qp row HL Hp.
  destruct (locomanip_runOnce_qp SamplingSpaceType config_ rmapPlanning
              qp_solver_ p) as (Hv & Hi & Hm & Hb & _).
  destruct (locomanip_configured_dims _ _ _ _ p Hp)
    as (_ & _ & _ & Hdv & Hdi).
  destruct (locomanip_inequality_entries SamplingSpaceType config_
              rmapPlanning qp_solver_ p ltac:(fold L; lia) Hp) as [HA Hvec].
  cbv zeta in Hv, Hi, Hm, Hb. fold qp in Hv, Hi, Hm, Hb.
  fold vd L in Hdv, Hdi, HA, Hvec.
  pose proof (velDim_pos SamplingSpaceType) as Hvd. fold vd in Hvd.
  split; [congruence|]. split; [rewrite Hv, Hi, Hdv, Hdi; reflexivity|].
  split; [|split].
  - intros i Hrow. split; [|split; [|split]].
    + rewrite Hb, Hvec. unfold in_range. case_if. reflexivity.
    + intros a Ha. rewrite Hm, HA.
      destruct (block_bound vd L i a Hrow Ha) as (B0 & B1 & B2).
      fold vd in B0, B1, B2.
      unfold in_range. repeat case_if.
      f_equal. ring.
    + intros a Hpos Ha. rewrite Hm, HA.
      destruct (block_bound vd L i a Hrow Ha) as (B0 & B1 & B2).
      fold vd in B0, B1, B2.
      unfold in_range. repeat case_if.
      f_equal. ring.
    + intros k Hk Hout. rewrite Hm, HA.
      destruct (block_bound vd L i 0 Hrow ltac:(fold vd; lia))
        as (B0 & B1 & B2).
      fold vd in B0, B1, B2.
      unfold in_range. repeat case_if; reflexivity.
  - intros i Hrow. split.
    + rewrite Hb, Hvec. unfold in_range. case_if. reflexivity.
    + intros k Hk. rewrite Hm, HA. unfold in_range.
      repeat case_if; reflexivity.
  - intros i j Hrow Hcol. rewrite Hm, HA.
    assert (HLvd : 0 <= L * vd) by (apply Z.mul_nonneg_nonneg; lia).
    unfold in_range.
    destruct (Z.eqb_spec i j) as [-> | Hij].
    + repeat case_if; reflexivity.
    + destruct (Z.lt_ge_cases i L) as [Hlt | Hge].
      * destruct (block_bound vd L i 0 ltac:(lia)
                    ltac:(fold vd; lia)) as (B0 & B1 & B2).
        fold vd in B0, B1, B2.
        repeat case_if; reflexivity.
      * repeat case_if; reflexivity.
Qed.

Lemma locomanip_inequality_rows_witness :
  let config := Flat.locomanip_config 2 2 1 in
  let p := Locomanip.setup R2 config (Flat.locomanip_new [1; 0]%Q) in
  let qp := Locomanip.qp_coeff_
              (Locomanip.runOnce R2 config (fun _ => (1 # 4)%Q)
                                 (Flat.constant_solver zero_vec) p) in
  1 <= Locomanip.motion_len config
  /\ dim_ineq_ qp = 5
  /\ ineq_mat_ qp 4 (2 * 2 * 2 + 4) = (-1)%Q
  /\ ineq_vec_ qp 1 = (1 # 4)%Q.
Proof.
  intros config p qp.
  assert (HL : 1 <= Locomanip.motion_len config) by (simpl; lia).
  destruct (locomanip_inequality_rows
              (Flat.manifold 2) R2 config (fun _ => (1 # 4)%Q)
              (Flat.constant_solver zero_vec) p HL
              (Locomanip.configured_setup R2 config (fun _ => (1 # 4)%Q)
                 (Flat.constant_solver zero_vec)
                 (Flat.locomanip_new [1; 0]%Q)))
    as (Hrows & _ & Hfeet & _ & Hslack).
  split; [exact HL|]. split; [exact Hrows|]. split.
  - apply (Hslack 4 4); simpl; lia.
  - destruct (Hfeet 1 ltac:(simpl; lia)) as (Hvalue & _).
    etransitivity; [exact Hvalue | reflexivity].
Defined.

(** ** A failed solve *)

Section FailedSolve.
Context {M : Manifold}.
Variable SamplingSpaceType : SamplingSpace.
Variable config_ : Locomanip.Configuration M.
Variable rmapPlanning : Locomanip.Limb -> SvmModel.
Variable qp_solver_ : QpSolver.

Let vd := velDim SamplingSpaceType.

Lemma segment_zero (lo len : Z) :
  segment zero_vec lo len = repeat 0%Q (Z.to_nat len).
Proof.
  unfold segment, zero_vec. generalize (Z.to_nat len) as n.
  intros n. generalize 0%nat as s.
  induction n as [|n IH]; intros s; simpl; [reflexivity|].
  now rewrite IH.
Qed.

Lemma insert_fixed_sample (f : Sample -> Sample) (l : list Sample) (i : Z) :
  Forall (fun s => f s = s) l ->
  <[Z.to_nat i := f (nth (Z.to_nat i) l [])]> l = l.
Proof.
  intros Hall.
  destruct (nth_lookup_or_length l (Z.to_nat i) []) as [Hin | Hge].
  - apply list_insert_id.
    rewrite List.Forall_forall in Hall.
    rewrite Hall; [exact Hin|].
    apply list_elem_of_In. eapply list_elem_of_lookup_2. exact Hin.
  - apply list_insert_ge. exact Hge.
Qed.

(** [RmapPlanningLocomanip::runOnce] sets the velocity to zero when the
    solver has failed: the waypoints of the feet and of the hand stay as
    they are, provided that integrating the zero velocity into a sample
    leaves it unchanged (section 8 of the specification). *)
Lemma locomanip_runOnce_failed_solve (p : Locomanip.Planner) :
  snd (qp_solver_
         (Locomanip.assemble SamplingSpaceType config_ rmapPlanning p))
  = true ->
  Forall (fun s => integrateVelToSample s (repeat 0%Q (Z.to_nat vd)) = s)
         (Locomanip.current_foot_sample_seq_ p
          ++ Locomanip.current_hand_sample_seq_ p) ->
  let p' := Locomanip.runOnce SamplingSpaceType config_ rmapPlanning
                              qp_solver_ p in
  Locomanip.current_foot_sample_seq_ p' = Locomanip.current_foot_sample_seq_ p
  /\ Locomanip.current_hand_sample_seq_ p'
     = Locomanip.current_hand_sample_seq_ p.
Proof.
  intros Hfail Hzero. apply List.Forall_app in Hzero.
  destruct Hzero as [Hfoot Hhand].
  unfold Locomanip.runOnce.
  destruct (qp_solver_ _) as [solution failed]. simpl in Hfail. subst failed.
  assert (Hint : Locomanip.integrate SamplingSpaceType config_ p zero_vec
                 = (Locomanip.current_foot_sample_seq_ p,
                    Locomanip.current_hand_sample_seq_ p)).
  { unfold Locomanip.integrate.
    destruct (Z.le_gt_cases 0 (Locomanip.motion_len config_)) as [Hn | Hn].
    - apply (for_loop_invariant
               (fun _ t => t = (Locomanip.current_foot_sample_seq_ p,
                                Locomanip.current_hand_sample_seq_ p)));
        [reflexivity| |exact Hn].
      intros i t _ ->. rewrite !segment_zero.
      unfold Locomanip.sample_at, Locomanip.vel_dim_. fold vd.
      rewrite (insert_fixed_sample
                 (fun s => integrateVelToSample s (repeat 0%Q (Z.to_nat vd))))
        by exact Hfoot.
      rewrite (insert_fixed_sample
                 (fun s => integrateVelToSample s (repeat 0%Q (Z.to_nat vd))))
        by exact Hhand.
      reflexivity.
    - apply for_loop_nonpos. lia. }
  rewrite Hint. simpl. split; reflexivity.
Qed.
End FailedSolve.

(** C1, at a failing input.  The footstep planner on the plane, two steps,
    and a solver that reports failure after reaching the vector with every
    component [0.1]: [RmapPlanningFootstep::runOnce] does not read the
    failure flag and integrates that vector, so the waypoints move. *)
Theorem footstep_runOnce_integrates_failed_solve :
  let config := Flat.footstep_config 2 2 1 false in
  let qp_solver := Flat.failing_solver (setConstant (1 # 10)) in
  let p := Footstep.setup R2 config (Flat.footstep_new [1; 0]%Q) in
  let p' := Footstep.runOnce R2 config (1 # 4)%Q qp_solver p in
  snd (qp_solver (Footstep.assemble R2 config (1 # 4)%Q p)) = true
  /\ Footstep.current_sample_seq_ p
     = [[1 # 5; 1 # 5]; [10 # 25; 10 # 25]]%Q
  /\ Footstep.current_sample_seq_ p'
     = [[15 # 50; 15 # 50]; [125 # 250; 125 # 250]]%Q
  /\ ~ Forall2 (Forall2 Qeq) (Footstep.current_sample_seq_ p')
                             (Footstep.current_sample_seq_ p).
Proof.
  split; [reflexivity|]. split; [reflexivity|]. split; [reflexivity|].
  intros H. vm_compute in H.
  inversion H as [|? ? ? ? Hfirst _]; subst.
  inversion Hfirst as [|? ? ? ? Hx _]; subst.
  discriminate Hx.
Qed.

(** The same solver and the same steps in the locomanipulation planner:
    the waypoints stay. *)
Lemma locomanip_runOnce_failed_solve_example :
  let config := Flat.locomanip_config 2 2 1 in
  let qp_solver := Flat.failing_solver (setConstant (1 # 10)) in
  let p := Locomanip.setup R2 config (Flat.locomanip_new [1; 0]%Q) in
  let p' := Locomanip.runOnce R2 config (fun _ => (1 # 4)%Q) qp_solver p in
  Locomanip.current_foot_sample_seq_ p' = Locomanip.current_foot_sample_seq_ p
  /\ Locomanip.current_hand_sample_seq_ p'
     = Locomanip.current_hand_sample_seq_ p.
Proof.
  apply (locomanip_runOnce_failed_solve R2).
  - reflexivity.
  - repeat constructor.
Defined.

(** ** The footstep planner *)

Section FootstepFacts.
Context {M : Manifold}.
Variable SamplingSpaceType : SamplingSpace.
Variable config_ : Footstep.Configuration M.
Variable svm_mo_ : SvmModel.

Let vd := velDim SamplingSpaceType.
Let ineq_row := Footstep.ineq_row SamplingSpaceType config_ svm_mo_.
Let ineq_value (p : Footstep.Planner) (i : Z) : Q :=
  (calcSVMValue svm_mo_ (Footstep.rel_sample SamplingSpaceType config_ p i)
   - Footstep.svm_thre config_)%Q.

(** The loop over the steps writes row [i] in turn [i], and nothing
    else. *)
Lemma footstep_inequality_entries (p : Footstep.Planner) :
  0 <= Footstep.footstep_num config_ ->
  let t := Footstep.inequality SamplingSpaceType config_ svm_mo_ p in
  (forall r k,
      fst t r k
      = if in_range 0 (Footstep.footstep_num config_) r then
          if (0 <? r) && in_range ((r - 1) * vd) vd k
          then entry (ineq_row p r false) (k - (r - 1) * vd)
          else if in_range (r * vd) vd k
               then entry (ineq_row p r true) (k - r * vd)
               else 0%Q
        else 0%Q)
  /\ (forall r,
      snd t r = if in_range 0 (Footstep.footstep_num config_) r
                then ineq_value p r else 0%Q).
Proof.
  intros Hn. unfold Footstep.inequality.
  apply (for_loop_invariant
    (fun n (t : MatrixXd * VectorXd) =>
       (forall r k,
           fst t r k
           = if in_range 0 n r then
               if (0 <? r) && in_range ((r - 1) * vd) vd k
               then entry (ineq_row p r false) (k - (r - 1) * vd)
               else if in_range (r * vd) vd k
                    then entry (ineq_row p r true) (k - r * vd)
                    else 0%Q
             else 0%Q)
       /\ (forall r,
           snd t r = if in_range 0 n r then ineq_value p r else 0%Q)));
    [| |exact Hn].
  - split; intros; unfold in_range; simpl; case_if; reflexivity.
  - intros i [A b] Hi [HA Hb]. simpl in HA, Hb.
    unfold Footstep.vel_dim_. fold vd.
    assert (Hin : in_range 0 (i + 1) i = true).
    { unfold in_range. apply andb_true_intro.
      split; [apply Z.leb_le | apply Z.ltb_lt]; lia. }
    assert (Hsame : forall r, r <> i ->
              in_range 0 (i + 1) r = in_range 0 i r).
    { intros r Hr. unfold in_range. apply eq_true_iff_eq.
      rewrite !andb_true_iff, !Z.leb_le, !Z.ltb_lt. lia. }
    split.
    + intros r k. simpl.
      destruct (Z.eqb_spec r i) as [-> | Hr].
      * rewrite Hin.
        destruct (0 <? i) eqn:Epos; cbn [andb];
          unfold row_block_assign; rewrite !Z.eqb_refl; cbn [andb].
        -- destruct (in_range ((i - 1) * vd) vd k); [reflexivity|].
           destruct (in_range (i * vd) vd k); [reflexivity|].
           rewrite HA. unfold in_range. case_if. reflexivity.
        -- destruct (in_range (i * vd) vd k); [reflexivity|].
           rewrite HA. unfold in_range. case_if. reflexivity.
      * rewrite (Hsame r Hr), <- HA.
        destruct (0 <? i); unfold row_block_assign;
          destruct (Z.eqb_spec r i); try contradiction; reflexivity.
    + intros r. simpl. unfold segment_assign.
      destruct (in_range i 1 r) eqn:E.
      * unfold in_range in E. bool_hyps. assert (r = i) as -> by lia.
        rewrite Z.sub_diag, Hin. reflexivity.
      * rewrite Hb, Hsame; [reflexivity|].
        intros ->. unfold in_range in E. bool_hyps; lia.
Qed.
End FootstepFacts.

Lemma rem_2_of_step (i : Z) :
  0 <= i -> Z.rem i 2 = if Z.odd i then 1 else 0.
Proof.
  intros Hi. rewrite Z.rem_mod_nonneg by lia. apply Zmod_odd.
Qed.

(** C6.  In the footstep planner for planar rigid motions, with the
    alternating-stance flag set, inequality row [i] of an odd step [i] is
    built from mirrored quantities: the classifier value and gradient are
    taken at the relative sample with its last two components negated, and
    both Jacobians of the relative sample enter with their bottom two rows
    negated.  The row of an even step is built from the quantities as they
    are. *)
Theorem footstep_alternating_stance_rows
    (M : Manifold) (config_ : Footstep.Configuration M) (svm_mo_ : SvmModel)
    (qp_solver_ : QpSolver) (p : Footstep.Planner) (i : Z) :
  let qp := Footstep.assemble SE2 config_ svm_mo_ p in
  let pre := Footstep.pre_sample p i in
  let suc := Footstep.suc_sample p i in
  let row (rel : Sample) (J : VelToVelMat) : list Q :=
    row_times 3 (scale (-1) (calcSVMGrad svm_mo_ rel)) J in
  Footstep.configured SE2 config_ svm_mo_ qp_solver_ p ->
  Footstep.alternate_lr config_ = true ->
  0 <= i < Footstep.footstep_num config_ ->
  (Z.odd i = true ->
   let rel := tail_negate 2 (relSample pre suc) in
   ineq_vec_ qp i
   = (calcSVMValue svm_mo_ rel - Footstep.svm_thre config_)%Q
   /\ forall a, 0 <= a < 3 ->
        ineq_mat_ qp i (i * 3 + a)
        = entry (row rel (bottomRows_negate 2 (relVelToVelMat pre suc true))) a
        /\ ineq_mat_ qp i ((i - 1) * 3 + a)
           = entry (row rel (bottomRows_negate 2
                               (relVelToVelMat pre suc false))) a)
  /\ (Z.even i = true ->
      let rel := relSample pre suc in
      ineq_vec_ qp i
      = (calcSVMValue svm_mo_ rel - Footstep.svm_thre config_)%Q
      /\ forall a, 0 <= a < 3 ->
           ineq_mat_ qp i (i * 3 + a)
           = entry (row rel (relVelToVelMat pre suc true)) a
           /\ (0 < i ->
               ineq_mat_ qp i ((i - 1) * 3 + a)
               = entry (row rel (relVelToVelMat pre suc false)) a))
  /\ (forall x y theta : Q,
        tail_negate 2 [x; y; theta] = [x; y * -1; theta * -1]%Q)
  /\ (forall r0 r1 r2 : list Q,
        bottomRows_negate 2 [r0; r1; r2]
        = [r0; map (fun x => x * -1)%Q r1; map (fun x => x * -1)%Q r2]).
Proof.
  intros qp pre suc row _ Halt Hi.
  destruct (footstep_inequality_entries SE2 config_ svm_mo_ p
              ltac:(lia)) as [HA Hb].
  change (velDim SE2) with 3 in HA.
  assert (Hin : in_range 0 (Footstep.footstep_num config_) i = true).
  { unfold in_range. apply andb_true_intro.
    split; [apply Z.leb_le | apply Z.ltb_lt]; lia. }
  split; [|split; [|split]].
  - intros Hodd.
    assert (Hmir : Footstep.mirrored SE2 config_ i = true).
    { unfold Footstep.mirrored. rewrite Halt, rem_2_of_step, Hodd by lia.
      reflexivity. }
    assert (Hpos : 0 < i) by (destruct (Z.eq_dec i 0); [subst; discriminate | lia]).
    split.
    + subst qp. simpl. rewrite Hb, Hin.
      unfold Footstep.rel_sample. now rewrite Hmir.
    + intros a Ha. subst qp. simpl. rewrite !HA, Hin.
      unfold Footstep.ineq_row, Footstep.rel_vel_mat, Footstep.rel_sample.
      rewrite Hmir. unfold in_range. split; repeat case_if; f_equal; ring.
  - intros Heven.
    assert (Hmir : Footstep.mirrored SE2 config_ i = false).
    { unfold Footstep.mirrored. rewrite Halt, rem_2_of_step by lia.
      rewrite <- Z.negb_even, Heven. reflexivity. }
    split.
    + subst qp. simpl. rewrite Hb, Hin.
      unfold Footstep.rel_sample. now rewrite Hmir.
    + intros a Ha. subst qp. simpl. rewrite !HA, Hin.
      unfold Footstep.ineq_row, Footstep.rel_vel_mat, Footstep.rel_sample.
      rewrite Hmir. unfold in_range. split.
      * repeat case_if; f_equal; ring.
      * intros Hpos. repeat case_if; f_equal; ring.
  - reflexivity.
  - reflexivity.
Qed.

Lemma footstep_alternating_stance_rows_witness :
  let config := Flat.footstep_config 3 3 1 true in
  let p := Footstep.setup SE2 config (Flat.footstep_new [1; 0; 0]%Q) in
  let qp := Footstep.assemble SE2 config (1 # 4)%Q p in
  Footstep.alternate_lr config = true
  /\ 0 <= 1 < Footstep.footstep_num config
  /\ Z.odd 1 = true
  /\ Qeq (ineq_mat_ qp 1 (1 * 3 + 1)) (2 # 5)
  /\ Qeq (ineq_mat_ qp 1 ((1 - 1) * 3 + 1)) (- (2 # 5)).
Proof.
  intros config p qp.
  assert (Halt : Footstep.alternate_lr config = true) by reflexivity.
  assert (Hi : 0 <= 1 < Footstep.footstep_num config) by (simpl; lia).
  destruct (footstep_alternating_stance_rows
              (Flat.manifold 3) config (1 # 4)%Q
              (Flat.constant_solver zero_vec) p 1
              (Footstep.configured_setup SE2 config (1 # 4)%Q
                 (Flat.constant_solver zero_vec)
                 (Flat.footstep_new [1; 0; 0]%Q))
              Halt Hi)
    as (Hodd & _).
  destruct (Hodd eq_refl) as (_ & Hrows).
  destruct (Hrows 1 ltac:(lia)) as (Hsuc & Hpre).
  split; [exact Halt|]. split; [exact Hi|]. split; [reflexivity|]. split.
  - unfold qp. rewrite Hsuc. reflexivity.
  - unfold qp. rewrite Hpre. reflexivity.
Defined.

Section SumFacts.
Lemma for_loop_split {S : Type} (m n : Z) (body : Z -> S -> S) (s : S) :
  0 <= m -> 0 <= n ->
  for_loop (m + n) body s
  = for_loop n (fun i => body (m + i)) (for_loop m body s).
Proof.
  intros Hm Hn. unfold for_loop.
  rewrite Z2Nat.inj_add by assumption.
  rewrite seq_app, fold_left_app. simpl.
  generalize (fold_left (fun acc i => body (Z.of_nat i) acc)
                        (seq 0 (Z.to_nat m)) s) as t.
  generalize (Z.to_nat n) as k. intros k.
  induction k as [|k IH]; intros t; [reflexivity|].
  rewrite !seq_S, !fold_left_app. simpl. rewrite IH.
  do 2 f_equal. lia.
Qed.

Lemma fold_left_ext_in {A B : Type} (f g : A -> B -> A) (l : list B) (a : A) :
  (forall x b, In b l -> f x b = g x b) ->
  fold_left f l a = fold_left g l a.
Proof.
  revert a. induction l as [|b l IH]; intros a H; [reflexivity|].
  simpl. rewrite (H a b) by now left.
  apply IH. intros x c Hc. apply H. now right.
Qed.

(** The squared norm of a fixed-size vector, summed by index. *)
Lemma sum_of_squares_by_index (e : list Q) :
  sumQ (Z.of_nat (length e)) (fun a => (entry e a * entry e a)%Q)
  = squaredNorm e.
Proof.
  unfold sumQ, for_loop, squaredNorm. rewrite Nat2Z.id.
  induction e as [|x e IH] using rev_ind; [reflexivity|].
  rewrite length_app, Nat.add_1_r, seq_S, !fold_left_app. simpl.
  rewrite <- IH. unfold entry. rewrite Nat2Z.id.
  rewrite app_nth2, Nat.sub_diag by lia. simpl. f_equal.
  apply fold_left_ext_in. intros acc i Hi. apply in_seq in Hi.
  rewrite Nat2Z.id. now rewrite app_nth1 by lia.
Qed.
End SumFacts.

Section FootstepObjective.
Context {M : Manifold}.
Variable SamplingSpaceType : SamplingSpace.
Variable config_ : Footstep.Configuration M.
Variable svm_mo_ : SvmModel.
Variable qp_solver_ : QpSolver.

Let vd := velDim SamplingSpaceType.
Let N := Footstep.footstep_num config_.

(** What [setup] fixes stays fixed. *)
Lemma footstep_configured_dims (p : Footstep.Planner) :
  Footstep.configured SamplingSpaceType config_ svm_mo_ qp_solver_ p ->
  dim_var_ (Footstep.qp_coeff_ p) = vd * N
  /\ dim_ineq_ (Footstep.qp_coeff_ p) = N.
Proof.
  induction 1 as [p | p Hp IH | s p Hp IH]; simpl; auto.
Qed.

(** The squared norm of the objective vector is the squared norm of the
    target error, which is its last block. *)
Lemma squaredNorm_of_last_block (e : list Q) (m : Z) :
  0 <= m -> length e = Z.to_nat vd ->
  squaredNorm_dyn (m + vd) (segment_assign zero_vec m vd e)
  = squaredNorm e.
Proof.
  intros Hm He.
  pose proof (velDim_pos SamplingSpaceType) as Hvd. fold vd in Hvd.
  unfold squaredNorm_dyn, sumQ.
  rewrite for_loop_split by lia.
  assert (Hzero : for_loop m
            (fun k acc =>
               (acc + segment_assign zero_vec m vd e k
                      * segment_assign zero_vec m vd e k)%Q) 0%Q = 0%Q).
  { apply (for_loop_invariant (fun _ acc => acc = 0%Q));
      [reflexivity| |exact Hm].
    intros i t Hi ->. unfold segment_assign, in_range, zero_vec.
    case_if. reflexivity. }
  rewrite Hzero. rewrite <- sum_of_squares_by_index.
  rewrite He, Z2Nat.id by lia. unfold sumQ, for_loop.
  apply fold_left_ext_in. intros acc i Hi. apply in_seq in Hi.
  unfold segment_assign, in_range. case_if.
  now replace (m + Z.of_nat i - m) with (Z.of_nat i) by ring.
Qed.
End FootstepObjective.

(** C5.  In every iteration of the footstep planner the objective is built
    from [target_error = sampleError(target_sample_, last waypoint)] and
    [lambda = |target_error|^2 + 1e-3]: before the adjacency term is
    added, the objective matrix is diagonal, with [lambda] on the blocks of
    all waypoints but the last and [1 + lambda] on the block of the last
    waypoint, and the objective vector is [target_error] on the last block
    and zero elsewhere; the adjacency-regularization matrix, and its
    product with the current configuration, are then added. *)
Theorem footstep_objective
    (M : Manifold) (SamplingSpaceType : SamplingSpace)
    (config_ : Footstep.Configuration M) (svm_mo_ : SvmModel)
    (qp_solver_ : QpSolver) (p : Footstep.Planner) :
  let vd := velDim SamplingSpaceType in
  let N := Footstep.footstep_num config_ in
  let before := Footstep.objective_without_adjacency SamplingSpaceType p in
  let obj_mat := fst (fst before) in
  let obj_vec := snd (fst before) in
  let lambda := snd before in
  let target_error := Footstep.target_error p in
  let qp := Footstep.assemble SamplingSpaceType config_ svm_mo_ p in
  1 <= N ->
  Footstep.configured SamplingSpaceType config_ svm_mo_ qp_solver_ p ->
  length target_error = Z.to_nat vd ->
  target_error
  = sampleError (Footstep.target_sample_ p)
                (Footstep.back (Footstep.current_sample_seq_ p))
  /\ lambda = (squaredNorm target_error + 1 / 1000)%Q
  /\ ((forall s t, Qeq (squaredNorm (sampleError s t))
                       (squaredNorm (sampleError t s))) ->
      Qeq lambda
          (squaredNorm
             (sampleError (Footstep.back (Footstep.current_sample_seq_ p))
                          (Footstep.target_sample_ p))
           + 1 / 1000))
  /\ (forall bi a, 0 <= bi < N - 1 -> 0 <= a < vd ->
        Qeq (obj_mat (bi * vd + a) (bi * vd + a)) lambda)
  /\ (forall a, 0 <= a < vd ->
        obj_mat ((N - 1) * vd + a) ((N - 1) * vd + a) = (1 + lambda)%Q)
  /\ (forall r k, r <> k -> obj_mat r k = 0%Q)
  /\ (forall a, 0 <= a < vd ->
        obj_vec ((N - 1) * vd + a) = entry target_error a)
  /\ (forall j, 0 <= j < (N - 1) * vd -> obj_vec j = 0%Q)
  /\ (forall r k,
        obj_mat_ qp r k = (obj_mat r k + Footstep.adjacent_reg_mat_ p r k)%Q)
  /\ (forall j,
        obj_vec_ qp j
        = (obj_vec j
           + mat_vec (vd * N) (Footstep.adjacent_reg_mat_ p)
                     (Footstep.current_config SamplingSpaceType config_ p) j)%Q).
Proof.
  intros vd N before obj_mat obj_vec lambda target_error qp HN Hp He.
  destruct (footstep_configured_dims SamplingSpaceType config_ svm_mo_
              qp_solver_ p Hp) as [Hdim _].
  fold vd N in Hdim.
  pose proof (velDim_pos SamplingSpaceType) as Hvd. fold vd in Hvd.
  assert (Hlast : vd * N - vd = (N - 1) * vd) by ring.
  assert (Hbound : 0 <= (N - 1) * vd) by (apply Z.mul_nonneg_nonneg; lia).
  assert (Hmat : forall r k,
            obj_mat_ qp r k
            = (obj_mat r k + Footstep.adjacent_reg_mat_ p r k)%Q)
    by (intros; reflexivity).
  assert (Hvec : forall j,
            obj_vec_ qp j
            = (obj_vec j
               + mat_vec (dim_var_ (Footstep.qp_coeff_ p))
                   (Footstep.adjacent_reg_mat_ p)
                   (Footstep.current_config SamplingSpaceType config_ p) j)%Q)
    by (intros; reflexivity).
  rewrite Hdim in Hvec. clearbody qp.
  subst obj_mat obj_vec lambda before.
  unfold Footstep.objective_without_adjacency in *. cbn [fst snd] in *.
  unfold Footstep.vel_dim_ in *. fold vd target_error in Hmat, Hvec |- *.
  rewrite Hdim, Hlast in *.
  assert (Hlambda :
            (squaredNorm_dyn (vd * N)
               (segment_assign zero_vec ((N - 1) * vd) vd target_error)
             + 1 / 1000)%Q
            = (squaredNorm target_error + 1 / 1000)%Q).
  { f_equal. replace (vd * N) with ((N - 1) * vd + vd) by ring.
    apply squaredNorm_of_last_block; assumption. }
  split; [reflexivity|].
  split; [exact Hlambda|].
  split; [|split; [|split; [|split; [|split; [|split; [|split]]]]]].
  - intros Hsym. rewrite Hlambda. unfold target_error, Footstep.target_error.
    now rewrite Hsym.
  - intros bi a Hbi Ha.
    destruct (block_bound vd (N - 1) bi a Hbi Ha) as (B0 & B1 & B2).
    unfold diagonal_add, diagonal_setConstant, block_diagonal_setConstant,
      in_range, zero_mat.
    repeat case_if. ring.
  - intros a Ha.
    unfold diagonal_add, diagonal_setConstant, block_diagonal_setConstant,
      in_range, zero_mat.
    repeat case_if. reflexivity.
  - intros r k Hrk.
    unfold diagonal_add, diagonal_setConstant, block_diagonal_setConstant,
      in_range, zero_mat.
    repeat case_if; reflexivity.
  - intros a Ha. unfold segment_assign, in_range. case_if.
    f_equal. ring.
  - intros j Hj. unfold segment_assign, in_range, zero_vec. case_if.
    reflexivity.
  - exact Hmat.
  - exact Hvec.
Qed.

Lemma footstep_objective_witness :
  let config := Flat.footstep_config 2 2 1 false in
  let p := Footstep.setup R2 config (Flat.footstep_new [1; 0]%Q) in
  let before :=
    Footstep.objective_without_adjacency (M := Flat.manifold 2) R2 p in
  1 <= Footstep.footstep_num config
  /\ length (Footstep.target_error (M := Flat.manifold 2) p)
     = Z.to_nat (velDim R2)
  /\ Qeq (snd before) (521 # 1000)
  /\ Qeq (fst (fst before) 1 1) (521 # 1000)
  /\ Qeq (fst (fst before) 3 3) (1521 # 1000).
Proof.
  intros config p before.
  assert (HN : 1 <= Footstep.footstep_num config) by (simpl; lia).
  assert (He : length (Footstep.target_error (M := Flat.manifold 2) p)
               = Z.to_nat (velDim R2))
    by reflexivity.
  destruct (footstep_objective
              (Flat.manifold 2) R2 config (1 # 4)%Q
              (Flat.constant_solver zero_vec) p HN
              (Footstep.configured_setup R2 config (1 # 4)%Q
                 (Flat.constant_solver zero_vec) (Flat.footstep_new [1; 0]%Q))
              He)
    as (_ & Hlambda & _ & Hfront & Hlast & _).
  split; [exact HN|]. split; [exact He|]. split; [|split].
  - unfold before. rewrite Hlambda. reflexivity.
  - unfold before. rewrite (Hfront 0 1) by (simpl; lia).
    rewrite Hlambda. reflexivity.
  - assert (H := Hlast 1 ltac:(simpl; lia)). simpl in H.
    change (fst (fst before) 3 3 = (1 + snd before)%Q) in H.
    unfold before in *. rewrite H, Hlambda. reflexivity.
Defined.

(** * Further properties of the code *)

(** ** [std::to_string(SamplingSpace)] *)

(** X1.  [std::to_string] returns a name exactly for the values of the six
    enumerators, and it gives different enumerators different names. *)
Theorem to_string_names_the_enumerators :
  (forall v, (exists name, to_string v = Ok name) <-> recognized v)
  /\ (forall s t,
        to_string (enumValue s) = to_string (enumValue t) -> s = t).
Proof.
  split.
  - intros v. split.
    + intros [name Hname].
      destruct (Z.eq_dec v 21) as [-> | H21]; [now exists R2|].
      destruct (Z.eq_dec v 22) as [-> | H22]; [now exists SO2|].
      destruct (Z.eq_dec v 23) as [-> | H23]; [now exists SE2|].
      destruct (Z.eq_dec v 31) as [-> | H31]; [now exists R3|].
      destruct (Z.eq_dec v 32) as [-> | H32]; [now exists SO3|].
      destruct (Z.eq_dec v 33) as [-> | H33]; [now exists SE3|].
      exfalso.
      assert (Hv : ~ recognized v).
      { intros [s Hs]. destruct s; simpl in Hs; lia. }
      rewrite (to_string_unrecognized v Hv) in Hname. discriminate Hname.
    + intros [s ->]. apply to_string_recognized.
  - intros s t H. destruct s, t; simpl in H;
      first [reflexivity | discriminate H].
Qed.

Lemma to_string_names_the_enumerators_witness :
  recognized 23 /\ ~ (exists name, to_string 24 = Ok name).
Proof.
  destruct to_string_names_the_enumerators as [Hiff _]. split.
  - apply Hiff. exists "SE2"%string. reflexivity.
  - intros H. apply Hiff in H. destruct H as [s Hs].
    destruct s; discriminate Hs.
Defined.

(** ** The layout of the dumped sample set *)



Lemma dump_samples_layout
    (SamplingSpaceType : SamplingSpace) (sample_dim : nat)
    (sample_list : list RmapSampling.Sample) (reachability_list : list bool) :
  length reachability_list = length sample_list ->
  Forall (fun s => length s = sample_dim) sample_list ->
  RmapSampling.samples
    (RmapSampling.dumpSampleSet SamplingSpaceType sample_dim
       sample_list reachability_list)
  = RmapSampling.reachable_part
      (zip_with RmapSampling.record_of sample_list reachability_list)
    ++ rev (RmapSampling.unreachable_part
              (zip_with RmapSampling.record_of sample_list
                        reachability_list)).
Proof.
  intros Hlen Hsz. simpl. rewrite dump_loop_samples.
  rewrite written_records_all by assumption. reflexivity.
Qed.



(** ** Sampling *)

Section SamplingFacts.
Import RmapSamplingRun.

Lemma setup_joints_spec (rb : Robot) (joint_name_list : list string)
      (joints : list (nat * Q * Q)) :
  setup_joints rb joint_name_list = Ok joints ->
  Forall2 (fun joint_name j =>
             exists lo up,
               limits_lower rb joint_name = Some lo
               /\ limits_upper rb joint_name = Some up
               /\ snd (fst j) = ((up - lo) / 2)%Q
               /\ snd j = ((up + lo) / 2)%Q)
          joint_name_list joints.
Proof.
  revert joints. induction joint_name_list as [|name rest IH];
    intros joints H; simpl in H.
  - inversion H. constructor.
  - destruct (jointIndexByName rb name) as [idx|]; simpl in H;
      [|discriminate H].
    unfold limit_at in H.
    destruct (limits_lower rb name) as [lo|] eqn:Hlo; simpl in H;
      [|discriminate H].
    destruct (limits_upper rb name) as [up|] eqn:Hup; simpl in H;
      [|discriminate H].
    destruct (setup_joints rb rest) as [tl|]; simpl in H; [|discriminate H].
    inversion H; subst. constructor; [|now apply IH].
    exists lo, up. simpl. auto.
Qed.

End SamplingFacts.



Section RunFacts.
Import RmapSamplingRun.
Context {M : Manifold}.
Variable sample_dim : nat.
Variable body_pose_offset : Pose.
Variable bodyPosW : list (list Q) -> Pose.
Variable sampleToCloudPos : Sample -> list Q.
Variable random : nat -> list Q.
Variable ros_ok : nat -> bool.
Variable uninitialized : Sample.

Let sampleOnce :=
  sampleOnce body_pose_offset bodyPosW sampleToCloudPos random.
Let run_loop :=
  run_loop body_pose_offset bodyPosW sampleToCloudPos random ros_ok.

(** The loop samples as long as [ros::ok()] holds. *)
Lemma run_loop_iterations (k remaining loop_idx : nat) (st : Sampler) :
  (k <= remaining)%nat ->
  (forall t, (t < k)%nat -> ros_ok (loop_idx + t) = true) ->
  ((k < remaining)%nat -> ros_ok (loop_idx + k) = false) ->
  run_loop remaining loop_idx st
  = fold_left (fun st i => sampleOnce i st) (seq loop_idx k) st.
Proof.
  revert remaining loop_idx st.
  induction k as [|k IH]; intros remaining loop_idx st Hk Hok Hstop.
  - simpl. destruct remaining as [|r]; [reflexivity|].
    unfold run_loop. simpl.
    rewrite Nat.add_0_r in Hstop. now rewrite Hstop by lia.
  - destruct remaining as [|r]; [lia|].
    unfold run_loop. simpl.
    assert (Hfirst : ros_ok loop_idx = true)
      by (rewrite <- (Nat.add_0_r loop_idx); apply Hok; lia).
    rewrite Hfirst.
    apply IH; [lia| |].
    + intros t Ht. replace (S loop_idx + t)%nat with (loop_idx + S t)%nat
        by lia. apply Hok. lia.
    + intros Hlt. replace (S loop_idx + k)%nat with (loop_idx + S k)%nat
        by lia. apply Hstop. lia.
Qed.

(** After [k] samples the first [k] entries are written and flagged
    reachable; the entries after them are as [resize] left them. *)
Lemma sampled_prefix (n k : nat) (st : Sampler) :
  (k <= n)%nat ->
  sample_list_ st = repeat uninitialized n ->
  reachability_list_ st = repeat false n ->
  (forall q, length (poseToSample (pose_mul body_pose_offset (bodyPosW q)))
             = sample_dim) ->
  let st' := fold_left (fun st i => sampleOnce i st) (seq 0 k) st in
  exists samples,
    length samples = k
    /\ Forall (fun s => length s = sample_dim) samples
    /\ sample_list_ st' = samples ++ repeat uninitialized (n - k)
    /\ reachability_list_ st' = repeat true k ++ repeat false (n - k)
    /\ reachable_cloud_points_ st'
       = reachable_cloud_points_ st ++ map sampleToCloudPos samples.
Proof.
  intros Hk Hs Hr Hdim. induction k as [|k IH].
  - exists []. simpl. rewrite Nat.sub_0_r, app_nil_r. auto.
  - destruct IH as (samples & Hlen & Hsz & Hsl & Hrl & Hcl); [lia|].
    cbv zeta. rewrite seq_S, fold_left_app. simpl.
    set (st' := fold_left _ (seq 0 k) st) in *.
    set (sample := poseToSample _).
    exists (samples ++ [sample]). split; [|split; [|split; [|split]]].
    + rewrite length_app. simpl. lia.
    + apply Forall_app. split; [exact Hsz|]. constructor; [|constructor].
      apply Hdim.
    + rewrite Hsl. replace (n - k)%nat with (S (n - S k)) by lia. simpl.
      rewrite <- Hlen at 1. rewrite insert_at_length.
      now rewrite <- app_assoc.
    + rewrite Hrl. replace (n - k)%nat with (S (n - S k)) by lia. simpl.
      assert (Hk' : length (repeat true k) = k) by apply repeat_length.
      rewrite <- Hk' at 1. rewrite insert_at_length.
      generalize (repeat false (n - S k)) as tl. clear. intros tl.
      induction k as [|k IH]; simpl; [reflexivity | now rewrite IH].
    + rewrite Hcl, map_app, app_assoc. reflexivity.
Qed.
End RunFacts.

Section RunDump.
Import RmapSampling.

Lemma zip_with_record_true (samples : list Sample) (k : nat) :
  length samples = k ->
  zip_with record_of samples (repeat true k)
  = map (fun s => record_of s true) samples.
Proof.
  revert k. induction samples as [|s l IH]; intros [|k] Hk;
    simpl in *; try discriminate; [reflexivity|].
  f_equal. apply IH. lia.
Qed.

Lemma zip_with_record_false (u : Sample) (m : nat) :
  zip_with record_of (repeat u m) (repeat false m)
  = repeat (record_of u false) m.
Proof. induction m as [|m IH]; simpl; [reflexivity | now rewrite IH]. Qed.

Lemma rev_repeat_same {A : Type} (x : A) (m : nat) :
  rev (repeat x m) = repeat x m.
Proof.
  induction m as [|m IH]; simpl; [reflexivity|].
  rewrite IH. clear IH. induction m as [|m IH]; simpl;
    [reflexivity | now rewrite IH].
Qed.

Lemma parts_of_sampled_prefix (samples : list Sample) (u : Sample) (m : nat) :
  let records := map (fun s => record_of s true) samples
                 ++ repeat (record_of u false) m in
  reachable_part records ++ rev (unreachable_part records) = records.
Proof.
  cbv zeta. unfold reachable_part, unreachable_part.
  rewrite !List.filter_app.
  assert (H1 : List.filter is_reachable
                 (map (fun s => record_of s true) samples)
               = map (fun s => record_of s true) samples
               /\ List.filter (fun r => negb (is_reachable r))
                    (map (fun s => record_of s true) samples) = []).
  { induction samples as [|s l [IH1 IH2]]; simpl; [split; reflexivity|].
    rewrite IH1, IH2. split; reflexivity. }
  assert (H2 : List.filter is_reachable (repeat (record_of u false) m) = []
               /\ List.filter (fun r => negb (is_reachable r))
                    (repeat (record_of u false) m)
                  = repeat (record_of u false) m).
  { induction m as [|m [IH1 IH2]]; simpl; [split; reflexivity|].
    rewrite IH1, IH2. split; reflexivity. }
  destruct H1 as [-> ->]. destruct H2 as [-> ->].
  simpl. now rewrite app_nil_r, rev_repeat_same.
Qed.
End RunDump.

(** X4.  [run] dumps one record per requested sample.  When [ros::ok()]
    holds throughout, the records are the samples in the order in which
    they were taken, all flagged reachable.  When it turns false after [k]
    samples, the [k] samples come first and are followed by
    [sample_num - k] records flagged unreachable that hold what [resize]
    left in the entries never sampled.  A negative [sample_num] makes
    [run] throw once [setupSampling] has succeeded. *)
Theorem run_dumps_the_samples_taken
    (M : Manifold) (SamplingSpaceType : SamplingSpace) (sample_dim : nat)
    (body_pose_offset : Pose) (bodyPosW : list (list Q) -> Pose)
    (sampleToCloudPos : Sample -> list Q) (random : nat -> list Q)
    (ros_ok : nat -> bool) (uninitialized : Sample)
    (rb : RmapSamplingRun.Robot) (joint_name_list : list string)
    (sample_num : Z) (st st0 : RmapSamplingRun.Sampler) (k : nat) :
  let result :=
    RmapSamplingRun.run SamplingSpaceType sample_dim body_pose_offset
      bodyPosW sampleToCloudPos random ros_ok uninitialized
      rb joint_name_list sample_num st in
  RmapSamplingRun.setupSampling rb joint_name_list st = Ok st0 ->
  RmapSamplingRun.sample_list_ st = [] ->
  RmapSamplingRun.reachability_list_ st = [] ->
  (forall q, length (poseToSample (pose_mul body_pose_offset (bodyPosW q)))
             = sample_dim) ->
  length uninitialized = sample_dim ->
  (sample_num < 0 -> result = Throw "vector::resize")
  /\ (0 <= sample_num ->
      (k <= Z.to_nat sample_num)%nat ->
      (forall t, (t < k)%nat -> ros_ok t = true) ->
      ((k < Z.to_nat sample_num)%nat -> ros_ok k = false) ->
      exists st' msg samples,
        result = Ok (st', msg)
        /\ length samples = k
        /\ RmapSamplingRun.sample_list_ st'
           = samples ++ repeat uninitialized (Z.to_nat sample_num - k)
        /\ RmapSampling.samples msg
           = map (fun s => RmapSampling.record_of s true) samples
             ++ repeat (RmapSampling.record_of uninitialized false)
                       (Z.to_nat sample_num - k)
        /\ RmapSamplingRun.reachable_cloud_points_ st'
           = map sampleToCloudPos samples).
Proof.
  intros result Hsetup Hsl Hrl Hdim Hun.
  assert (Hkeep : RmapSamplingRun.sample_list_ st0 = []
                  /\ RmapSamplingRun.reachability_list_ st0 = []).
  { unfold RmapSamplingRun.setupSampling in Hsetup.
    destruct (RmapSamplingRun.setup_joints rb joint_name_list);
      simpl in Hsetup; [|discriminate Hsetup].
    inversion Hsetup; subst. simpl. auto. }
  destruct Hkeep as [Hsl0 Hrl0].
  subst result. unfold RmapSamplingRun.run. rewrite Hsetup. simpl.
  split.
  - intros Hneg. apply Z.ltb_lt in Hneg. now rewrite Hneg.
  - intros Hn Hk Hok Hstop.
    replace (sample_num <? 0) with false by (symmetry; apply Z.ltb_ge; lia).
    set (n := Z.to_nat sample_num) in *.
    rewrite Hsl0, Hrl0. unfold RmapSamplingRun.resize.
    rewrite !firstn_nil. simpl. rewrite !Nat.sub_0_r.
    set (st1 := RmapSamplingRun.mkSampler _ _ _ _ _ _ _ _).
    rewrite (run_loop_iterations body_pose_offset bodyPosW sampleToCloudPos
               random ros_ok k n 0 st1 Hk Hok Hstop).
    destruct (sampled_prefix sample_dim body_pose_offset bodyPosW
                sampleToCloudPos random uninitialized n k st1 Hk
                eq_refl eq_refl Hdim)
      as (samples & Hlen & Hsz & Hsamples & Hflags & Hcloud).
    cbv zeta in Hsamples, Hflags, Hcloud.
    eexists _, _, samples. split; [reflexivity|].
    split; [exact Hlen|]. split; [exact Hsamples|]. split; [|exact Hcloud].
    rewrite (dump_samples_layout SamplingSpaceType sample_dim).
    + rewrite Hsamples, Hflags.
      rewrite zip_with_app by (rewrite repeat_length; exact Hlen).
      rewrite zip_with_record_true by exact Hlen.
      rewrite zip_with_record_false.
      apply parts_of_sampled_prefix.
    + rewrite Hsamples, Hflags. rewrite !length_app, !repeat_length. lia.
    + rewrite Hsamples. apply Forall_app. split; [exact Hsz|].
      apply List.Forall_forall. intros s Hs.
      apply repeat_spec in Hs. now subst.
Qed.

Lemma run_dumps_the_samples_taken_witness :
  let result :=
    RmapSamplingRun.run (M := Flat.manifold 2) R2 2 [1; 1]%Q
      Examples.arm_position (fun s => s) (fun _ => [1; - (1 # 2)]%Q)
      (Examples.ok_until 2) [0; 0]%Q
      Examples.two_joint_robot ["elbow"; "wrist"]%string 3
      (Examples.new_sampler [[0]; [0]]%Q) in
  exists st' msg,
    result = Ok (st', msg)
    /\ Forall2 (fun r b => RmapSampling.is_reachable r = b)
               (RmapSampling.samples msg) [true; true; false].
Proof.
  intros result.
  destruct (run_dumps_the_samples_taken
              (Flat.manifold 2) R2 2 [1; 1]%Q
              Examples.arm_position (fun s => s) (fun _ => [1; - (1 # 2)]%Q)
              (Examples.ok_until 2) [0; 0]%Q
              Examples.two_joint_robot ["elbow"; "wrist"]%string 3
              (Examples.new_sampler [[0]; [0]]%Q)
              {| RmapSamplingRun.joint_idx_list_ := [0; 1]%nat;
                 RmapSamplingRun.joint_pos_coeff_ :=
                   [(2 - -1) / 2; (1 - 0) / 2]%Q;
                 RmapSamplingRun.joint_pos_offset_ :=
                   [(2 + -1) / 2; (1 + 0) / 2]%Q;
                 RmapSamplingRun.q_ := [[0]; [0]]%Q;
                 RmapSamplingRun.sample_list_ := [];
                 RmapSamplingRun.reachability_list_ := [];
                 RmapSamplingRun.reachable_cloud_points_ := [];
                 RmapSamplingRun.unreachable_cloud_points_ := [] |}
              2%nat eq_refl eq_refl eq_refl
              (fun q => eq_refl) eq_refl) as [_ Hrun].
  destruct Hrun as (st' & msg & samples & Hres & Hlen & _ & Hmsg & _).
  - lia.
  - simpl. lia.
  - intros t Ht. destruct t as [|[|t]]; [reflexivity | reflexivity | lia].
  - intros _. reflexivity.
  - exists st', msg. split; [exact Hres|].
    rewrite Hmsg.
    destruct samples as [|s0 [|s1 [|s2 rest]]]; try discriminate Hlen.
    repeat constructor.
Defined.

(** ** The trajectory of the footstep planner *)

Lemma skipn_cons_nth {A : Type} (l : list A) (n : nat) (d : A) :
  (n < length l)%nat -> skipn n l = nth n l d :: skipn (S n) l.
Proof.
  revert n. induction l as [|x l IH]; intros n Hn; simpl in *; [lia|].
  destruct n as [|n]; [reflexivity|]. apply IH. lia.
Qed.

(** A loop that rewrites entry [i] of a list from its own value, in turn
    [i]. *)
Lemma for_loop_update_each {A : Type} (f : Z -> A -> A) (d : A)
      (n : Z) (l : list A) :
  0 <= n -> (Z.to_nat n <= length l)%nat ->
  for_loop n (fun i l => <[Z.to_nat i := f i (nth (Z.to_nat i) l d)]> l) l
  = map (fun i => f (Z.of_nat i) (nth i l d)) (seq 0 (Z.to_nat n))
    ++ skipn (Z.to_nat n) l.
Proof.
  intros Hn Hlen.
  apply (for_loop_invariant
    (fun k t => k <= n ->
                t = map (fun i => f (Z.of_nat i) (nth i l d))
                        (seq 0 (Z.to_nat k))
                    ++ skipn (Z.to_nat k) l)); [| |exact Hn|lia].
  - reflexivity.
  - intros i t Hi IH _. rewrite IH by lia.
    replace (Z.to_nat (i + 1)) with (S (Z.to_nat i)) by lia.
    rewrite seq_S, map_app, <- app_assoc. simpl.
    assert (Hl : length (map (fun i => f (Z.of_nat i) (nth i l d))
                             (seq 0 (Z.to_nat i))) = Z.to_nat i)
      by now rewrite length_map, length_seq.
    rewrite (skipn_cons_nth l (Z.to_nat i) d) by lia.
    rewrite app_nth2 by lia. rewrite Hl, Nat.sub_diag. simpl.
    rewrite <- Hl at 1. rewrite insert_at_length.
    now rewrite Z2Nat.id by lia.
Qed.

Section FootstepTrajectory.
Context {M : Manifold}.
Variable SamplingSpaceType : SamplingSpace.
Variable config_ : Footstep.Configuration M.

Let N := Footstep.footstep_num config_.
Let accumulated := Closed.accumulated_pose SamplingSpaceType config_.

(** The loop of [setup] over the steps: the accumulated pose and the
    waypoints written so far. *)
Lemma initial_sample_seq_spec :
  0 <= N ->
  Footstep.initial_sample_seq SamplingSpaceType config_
  = map (fun i => poseToSample (accumulated i)) (seq 0 (Z.to_nat N)).
Proof.
  intros HN. unfold Footstep.initial_sample_seq. fold N.
  assert (H : let t := for_loop N
                (fun i '(accum_initial_sample_pose, sample_seq) =>
                   let initial :=
                     if Footstep.mirrored SamplingSpaceType config_ i
                     then pose_mirror (Footstep.initial_sample_pose config_)
                     else Footstep.initial_sample_pose config_ in
                   let accum := pose_mul initial accum_initial_sample_pose in
                   (accum, <[Z.to_nat i := poseToSample accum]> sample_seq))
                (pose_identity, repeat [] (Z.to_nat N)) in
              (N = 0 -> fst t = pose_identity)
              /\ (0 < N -> fst t = accumulated (Z.to_nat (N - 1)))
              /\ snd t = map (fun i => poseToSample (accumulated i))
                             (seq 0 (Z.to_nat N))
                         ++ repeat [] (Z.to_nat N - Z.to_nat N)).
  { apply (for_loop_invariant
      (fun n (t : Pose * list Sample) =>
         (n = 0 -> fst t = pose_identity)
         /\ (0 < n -> fst t = accumulated (Z.to_nat (n - 1)))
         /\ snd t = map (fun i => poseToSample (accumulated i))
                        (seq 0 (Z.to_nat n))
                    ++ repeat [] (Z.to_nat N - Z.to_nat n)));
      [| |exact HN].
    - simpl. rewrite Nat.sub_0_r. split; [reflexivity|]. split; [lia|].
      reflexivity.
    - intros i [acc l] Hi (H0 & Hpos & Hl). simpl in H0, Hpos, Hl. simpl.
      assert (Hacc : pose_mul
                (if Footstep.mirrored SamplingSpaceType config_ i
                 then pose_mirror (Footstep.initial_sample_pose config_)
                 else Footstep.initial_sample_pose config_) acc
              = accumulated (Z.to_nat i)).
      { subst accumulated. destruct (Z.eq_dec i 0) as [-> | Hne].
        - rewrite H0 by reflexivity. reflexivity.
        - rewrite Hpos by lia.
          replace (Z.to_nat i) with (S (Z.to_nat (i - 1))) by lia. simpl.
          unfold Closed.step_pose.
          replace (Z.of_nat (S (Z.to_nat (i - 1)))) with i by lia.
          reflexivity. }
      split; [lia|]. split.
      + intros _. rewrite Hacc. f_equal. lia.
      + rewrite Hacc, Hl.
        replace (Z.to_nat (i + 1)) with (S (Z.to_nat i)) by lia.
        rewrite seq_S, map_app, <- app_assoc. simpl.
        replace (Z.to_nat N - Z.to_nat i)%nat
          with (S (Z.to_nat N - S (Z.to_nat i))) by lia. simpl.
        assert (Hlen : length (map (fun i => poseToSample (accumulated i))
                                   (seq 0 (Z.to_nat i))) = Z.to_nat i)
          by now rewrite length_map, length_seq.
        rewrite <- Hlen at 1. now rewrite insert_at_length. }
  cbv zeta in H. destruct H as (_ & _ & H). rewrite H.
  now rewrite Nat.sub_diag, app_nil_r.
Qed.
End FootstepTrajectory.

(** X5.  [RmapPlanningFootstep::setup] creates one waypoint per step:
    waypoint [i] is the sample of the product of the poses of steps [0] to
    [i], where the pose of a step is the configured initial pose, mirrored
    on the odd steps when the space is SE2 and the alternating-stance flag
    is set. *)
Theorem footstep_setup_trajectory
    (M : Manifold) (SamplingSpaceType : SamplingSpace)
    (config_ : Footstep.Configuration M) (p : Footstep.Planner) :
  let N := Footstep.footstep_num config_ in
  let trajectory :=
    Footstep.current_sample_seq_
      (Footstep.setup SamplingSpaceType config_ p) in
  0 <= N ->
  length trajectory = Z.to_nat N
  /\ (forall i, (i < Z.to_nat N)%nat ->
        nth i trajectory []
        = poseToSample
            (Closed.accumulated_pose SamplingSpaceType config_ i))
  /\ (forall i,
        Closed.step_pose SamplingSpaceType config_ i
        = if Footstep.is_SE2 SamplingSpaceType
             && Footstep.alternate_lr config_ && Nat.odd i
          then pose_mirror (Footstep.initial_sample_pose config_)
          else Footstep.initial_sample_pose config_).
Proof.
  intros N trajectory HN. subst trajectory. simpl.
  rewrite initial_sample_seq_spec by exact HN. fold N.
  split; [now rewrite length_map, length_seq|]. split.
  - intros i Hi.
    rewrite (nth_indep _ [] (poseToSample
               (Closed.accumulated_pose SamplingSpaceType config_ 0)))
      by now rewrite length_map, length_seq.
    rewrite (map_nth (fun i => poseToSample
               (Closed.accumulated_pose SamplingSpaceType config_ i))).
    now rewrite seq_nth by lia.
  - intros i. unfold Closed.step_pose, Footstep.mirrored.
    rewrite rem_2_of_step by lia.
    replace (Z.odd (Z.of_nat i)) with (Nat.odd i).
    + destruct (Footstep.is_SE2 SamplingSpaceType),
        (Footstep.alternate_lr config_), (Nat.odd i); reflexivity.
    + clear. induction i as [i IH] using (well_founded_induction lt_wf).
      destruct i as [|[|i]]; [reflexivity | reflexivity |].
      rewrite Nat.odd_succ_succ, (IH i) by lia.
      replace (Z.of_nat (S (S i))) with (Z.succ (Z.succ (Z.of_nat i)))
        by lia.
      now rewrite Z.odd_succ_succ.
Qed.

Lemma footstep_setup_trajectory_witness :
  let trajectory :=
    Footstep.current_sample_seq_
      (Footstep.setup SE2 (Flat.footstep_config 3 3 1 true)
                      (Flat.footstep_new [1; 0; 0]%Q)) in
  0 <= 3
  /\ length trajectory = 3%nat
  /\ nth 2 trajectory []
     = Flat.vec_add (repeat (1 # 5)%Q 3)
         (Flat.vec_add (repeat (1 # 5)%Q 3)
            (Flat.vec_add (repeat (1 # 5)%Q 3) (repeat 0%Q 3))).
Proof.
  destruct (footstep_setup_trajectory
              (Flat.manifold 3) SE2 (Flat.footstep_config 3 3 1 true)
              (Flat.footstep_new [1; 0; 0]%Q) ltac:(simpl; lia))
    as (Hlen & Hnth & _).
  split; [lia|]. split; [exact Hlen|].
  exact (Hnth 2%nat ltac:(simpl; lia)).
Defined.

Section FootstepIntegration.
Context {M : Manifold}.
Variable SamplingSpaceType : SamplingSpace.
Variable config_ : Footstep.Configuration M.
Variable svm_mo_ : SvmModel.
Variable qp_solver_ : QpSolver.

Let N := Footstep.footstep_num config_.
Let vd := velDim SamplingSpaceType.

Lemma footstep_integrate_spec (vel_all : VectorXd) (l : list Sample) :
  0 <= N -> length l = Z.to_nat N ->
  Footstep.integrate SamplingSpaceType config_ vel_all l
  = map (fun i => integrateVelToSample (nth i l [])
                    (segment vel_all (Z.of_nat i * vd) vd))
        (seq 0 (Z.to_nat N)).
Proof.
  intros HN Hlen. unfold Footstep.integrate, Footstep.sample_at.
  fold N. unfold Footstep.vel_dim_. fold vd.
  rewrite (for_loop_update_each
             (fun i s => integrateVelToSample s (segment vel_all (i * vd) vd))
             [] N l HN) by lia.
  rewrite <- Hlen, skipn_all. now rewrite app_nil_r.
Qed.

(** The trajectory of a planner that has been set up has one waypoint per
    step, and the matrix of the adjacency regularization is the one that
    [setup] built. *)
Lemma footstep_configured_shape (p : Footstep.Planner) :
  0 <= N ->
  Footstep.configured SamplingSpaceType config_ svm_mo_ qp_solver_ p ->
  length (Footstep.current_sample_seq_ p) = Z.to_nat N
  /\ Footstep.adjacent_reg_mat_ p
     = Footstep.adjacent_chain SamplingSpaceType 0 N
         (Footstep.adjacent_reg_weight config_) zero_mat
  /\ x_min_ (Footstep.qp_coeff_ p)
     = setConstant (- Footstep.delta_config_limit config_)%Q
  /\ x_max_ (Footstep.qp_coeff_ p)
     = setConstant (Footstep.delta_config_limit config_).
Proof.
  intros HN. induction 1 as [p | p Hp IH | s p Hp IH].
  - simpl. rewrite initial_sample_seq_spec by exact HN.
    rewrite length_map, length_seq. auto.
  - destruct IH as (Hlen & Hadj & Hmin & Hmax). simpl.
    rewrite footstep_integrate_spec by assumption.
    rewrite length_map, length_seq. auto.
  - exact IH.
Qed.
End FootstepIntegration.

(** X6.  [RmapPlanningFootstep::runOnce] integrates block [i] of the
    solution into waypoint [i] and into no other: the trajectory keeps its
    length, and the regularization matrix, the target, the dimensions and
    the bounds of the QP are left as they were. *)
Theorem footstep_runOnce_integrates_each_waypoint
    (M : Manifold) (SamplingSpaceType : SamplingSpace)
    (config_ : Footstep.Configuration M) (svm_mo_ : SvmModel)
    (qp_solver_ : QpSolver) (p : Footstep.Planner) :
  let N := Footstep.footstep_num config_ in
  let vd := velDim SamplingSpaceType in
  let p' := Footstep.runOnce SamplingSpaceType config_ svm_mo_ qp_solver_ p in
  let vel_all :=
    fst (qp_solver_
           (Footstep.assemble SamplingSpaceType config_ svm_mo_ p)) in
  0 <= N ->
  Footstep.configured SamplingSpaceType config_ svm_mo_ qp_solver_ p ->
  length (Footstep.current_sample_seq_ p) = Z.to_nat N
  /\ length (Footstep.current_sample_seq_ p') = Z.to_nat N
  /\ (forall i, (i < Z.to_nat N)%nat ->
        nth i (Footstep.current_sample_seq_ p') []
        = integrateVelToSample
            (nth i (Footstep.current_sample_seq_ p) [])
            (segment vel_all (Z.of_nat i * vd) vd))
  /\ Footstep.adjacent_reg_mat_ p' = Footstep.adjacent_reg_mat_ p
  /\ Footstep.target_sample_ p' = Footstep.target_sample_ p
  /\ dim_var_ (Footstep.qp_coeff_ p') = dim_var_ (Footstep.qp_coeff_ p)
  /\ dim_ineq_ (Footstep.qp_coeff_ p') = dim_ineq_ (Footstep.qp_coeff_ p)
  /\ x_min_ (Footstep.qp_coeff_ p') = x_min_ (Footstep.qp_coeff_ p)
  /\ x_max_ (Footstep.qp_coeff_ p') = x_max_ (Footstep.qp_coeff_ p).
Proof.
  intros N vd p' vel_all HN Hp.
  destruct (footstep_configured_shape SamplingSpaceType config_ svm_mo_
              qp_solver_ p HN Hp) as (Hlen & _).
  split; [exact Hlen|].
  subst p'. unfold Footstep.runOnce. simpl. fold vel_all.
  rewrite footstep_integrate_spec by assumption.
  split; [now rewrite length_map, length_seq|].
  split; [|repeat split].
  intros i Hi.
  rewrite (nth_indep _ []
             (integrateVelToSample
                (nth 0 (Footstep.current_sample_seq_ p) [])
                (segment vel_all (Z.of_nat 0 * velDim SamplingSpaceType)
                         (velDim SamplingSpaceType))))
    by now rewrite length_map, length_seq.
  rewrite (map_nth (fun i => integrateVelToSample
                      (nth i (Footstep.current_sample_seq_ p) [])
                      (segment vel_all
                         (Z.of_nat i * velDim SamplingSpaceType)
                         (velDim SamplingSpaceType)))).
  now rewrite seq_nth by lia.
Qed.

Lemma footstep_runOnce_integrates_each_waypoint_witness :
  let config := Flat.footstep_config 2 2 1 false in
  let qp_solver := Flat.constant_solver (fun j => inject_Z j) in
  let p := Footstep.setup R2 config (Flat.footstep_new [1; 0]%Q) in
  let p' := Footstep.runOnce R2 config (1 # 4)%Q qp_solver p in
  0 <= Footstep.footstep_num config
  /\ nth 1 (Footstep.current_sample_seq_ p') []
     = Flat.vec_add (nth 1 (Footstep.current_sample_seq_ p) [])
                    [inject_Z 2; inject_Z 3].
Proof.
  intros config qp_solver p p'.
  assert (HN : 0 <= Footstep.footstep_num config) by (simpl; lia).
  destruct (footstep_runOnce_integrates_each_waypoint
              (Flat.manifold 2) R2 config (1 # 4)%Q qp_solver p HN
              (Footstep.configured_setup R2 config (1 # 4)%Q qp_solver
                 (Flat.footstep_new [1; 0]%Q)))
    as (_ & _ & Hnth & _).
  split; [exact HN|].
  exact (Hnth 1%nat ltac:(simpl; lia)).
Defined.

(** ** The inequality rows of the footstep planner *)

(** X7.  In the QP of the footstep planner, for every sampling space,
    inequality row [i] holds the linearized reachability of step [i]: the
    classifier value minus the threshold in the vector, the row of the
    successor in block [i] and of the predecessor in block [i - 1] of the
    matrix, and zero in every other column; there is nothing outside the
    rows of the steps.  Unless the space is SE2 and the alternating-stance
    flag is set, no step is mirrored. *)
Theorem footstep_inequality_rows
    (M : Manifold) (SamplingSpaceType : SamplingSpace)
    (config_ : Footstep.Configuration M) (svm_mo_ : SvmModel)
    (qp_solver_ : QpSolver) (p : Footstep.Planner) (i : Z) :
  let N := Footstep.footstep_num config_ in
  let vd := velDim SamplingSpaceType in
  let qp := Footstep.assemble SamplingSpaceType config_ svm_mo_ p in
  let row := Footstep.ineq_row SamplingSpaceType config_ svm_mo_ p i in
  Footstep.configured SamplingSpaceType config_ svm_mo_ qp_solver_ p ->
  0 <= i < N ->
  ineq_vec_ qp i
  = (calcSVMValue svm_mo_
       (Footstep.rel_sample SamplingSpaceType config_ p i)
     - Footstep.svm_thre config_)%Q
  /\ (forall a, 0 <= a < vd ->
        ineq_mat_ qp i (i * vd + a) = entry (row true) a)
  /\ (forall a, 0 < i -> 0 <= a < vd ->
        ineq_mat_ qp i ((i - 1) * vd + a) = entry (row false) a)
  /\ (forall k, k < (i - 1) * vd \/ (i + 1) * vd <= k ->
        ineq_mat_ qp i k = 0%Q)
  /\ (forall r k, r < 0 \/ N <= r ->
        ineq_mat_ qp r k = 0%Q /\ ineq_vec_ qp r = 0%Q)
  /\ (Footstep.is_SE2 SamplingSpaceType && Footstep.alternate_lr config_
      = false ->
      Footstep.rel_sample SamplingSpaceType config_ p i
      = relSample (Footstep.pre_sample p i) (Footstep.suc_sample p i)
      /\ forall wrt_suc,
           Footstep.rel_vel_mat SamplingSpaceType config_ p i wrt_suc
           = relVelToVelMat (Footstep.pre_sample p i)
                            (Footstep.suc_sample p i) wrt_suc).
Proof.
  intros N vd qp row _ Hi.
  destruct (footstep_inequality_entries SamplingSpaceType config_ svm_mo_ p
              ltac:(fold N; lia)) as [HA Hb].
  fold N vd in HA, Hb.
  pose proof (velDim_pos SamplingSpaceType) as Hvd. fold vd in Hvd.
  assert (Hin : in_range 0 N i = true).
  { unfold in_range. apply andb_true_intro.
    split; [apply Z.leb_le | apply Z.ltb_lt]; lia. }
  assert (Hout : forall r, r < 0 \/ N <= r -> in_range 0 N r = false).
  { intros r Hr. unfold in_range. apply andb_false_iff.
    rewrite Z.leb_gt, Z.ltb_ge. lia. }
  subst qp. simpl.
  split; [|split; [|split; [|split; [|split]]]].
  - rewrite Hb, Hin. reflexivity.
  - intros a Ha. rewrite HA, Hin. unfold in_range.
    repeat case_if; subst row; f_equal; ring.
  - intros a Hpos Ha. rewrite HA, Hin. unfold in_range.
    repeat case_if; subst row; f_equal; ring.
  - intros k Hk. rewrite HA, Hin. unfold in_range.
    repeat case_if; reflexivity.
  - intros r k Hr. rewrite HA, Hb, (Hout r Hr). split; reflexivity.
  - intros Hplain.
    assert (Hmir : Footstep.mirrored SamplingSpaceType config_ i = false).
    { unfold Footstep.mirrored. rewrite andb_assoc, Hplain. reflexivity. }
    unfold Footstep.rel_sample, Footstep.rel_vel_mat. rewrite Hmir.
    split; [reflexivity | intros; reflexivity].
Qed.

Lemma footstep_inequality_rows_witness :
  let config := Flat.footstep_config 2 3 1 true in
  let p := Footstep.setup R2 config (Flat.footstep_new [1; 0]%Q) in
  let qp := Footstep.assemble R2 config (1 # 4)%Q p in
  0 <= 2 < Footstep.footstep_num config
  /\ ineq_mat_ qp 2 0 = 0%Q
  /\ ineq_mat_ qp 2 1 = 0%Q
  /\ Footstep.rel_sample R2 config p 2
     = relSample (Manifold := Flat.manifold 2)
         (Footstep.pre_sample (M := Flat.manifold 2) p 2)
         (Footstep.suc_sample p 2).
Proof.
  intros config p qp.
  assert (Hi : 0 <= 2 < Footstep.footstep_num config) by (simpl; lia).
  destruct (footstep_inequality_rows
              (Flat.manifold 2) R2 config (1 # 4)%Q
              (Flat.constant_solver zero_vec) p 2
              (Footstep.configured_setup R2 config (1 # 4)%Q
                 (Flat.constant_solver zero_vec) (Flat.footstep_new [1; 0]%Q))
              Hi)
    as (_ & _ & _ & Hzero & _ & Hplain).
  split; [exact Hi|]. split; [|split].
  - apply (Hzero 0). simpl. lia.
  - apply (Hzero 1). simpl. lia.
  - apply Hplain. reflexivity.
Defined.

(** ** The objective matrix of the footstep planner *)

Lemma chain_after_symmetric (sb n len : Z) (w : Q) (bi bj a b : Z) :
  Blocks.chain_after sb n len w 0 bi bj a b
  = Blocks.chain_after sb n len w 0 bj bi b a.
Proof.
  unfold Blocks.chain_after, in_range.
  repeat case_if; try reflexivity; subst; try reflexivity;
    try (exfalso; lia).
Qed.

Lemma block_decomposition (vd r : Z) :
  0 < vd -> r = (r / vd) * vd + r mod vd /\ 0 <= r mod vd < vd.
Proof.
  intros Hvd. split; [|apply Z.mod_pos_bound; exact Hvd].
  rewrite Z.mul_comm. apply Z.div_mod. lia.
Qed.

Lemma sumQ_nonneg (n : Z) (f : Z -> Q) :
  (forall k, 0 <= f k)%Q -> (0 <= sumQ n f)%Q.
Proof.
  intros Hf. unfold sumQ.
  destruct (Z.le_gt_cases 0 n) as [Hn | Hn].
  - apply (for_loop_invariant (fun _ acc => (0 <= acc)%Q));
      [apply Qle_refl| |exact Hn].
    intros i acc _ Hacc.
    apply (Qle_trans _ (acc + 0)%Q); [now rewrite Qplus_0_r|].
    apply Qplus_le_r, Hf.
  - rewrite for_loop_nonpos by lia. apply Qle_refl.
Qed.

Section FootstepHessian.
Context {M : Manifold}.
Variable SamplingSpaceType : SamplingSpace.
Variable config_ : Footstep.Configuration M.
Variable svm_mo_ : SvmModel.
Variable qp_solver_ : QpSolver.

Let N := Footstep.footstep_num config_.
Let vd := velDim SamplingSpaceType.
Let w := Footstep.adjacent_reg_weight config_.

Lemma footstep_configured_adjacency (p : Footstep.Planner) :
  Footstep.configured SamplingSpaceType config_ svm_mo_ qp_solver_ p ->
  Footstep.adjacent_reg_mat_ p
  = Footstep.adjacent_chain SamplingSpaceType 0 N w zero_mat.
Proof.
  induction 1 as [p | p Hp IH | s p Hp IH]; [reflexivity | exact IH | exact IH].
Qed.

(** The entries of the adjacency matrix, by block. *)
Lemma footstep_adjacency_entry (bi bj a b : Z) :
  0 <= N -> 0 <= a < vd -> 0 <= b < vd ->
  Footstep.adjacent_chain SamplingSpaceType 0 N w zero_mat
    (bi * vd + a) (bj * vd + b)
  = Blocks.chain_after 0 N N w 0 bi bj a b.
Proof.
  intros HN Ha Hb. change 0 with (0 * vd) at 1.
  unfold vd. rewrite adjacent_chain_entry by assumption. reflexivity.
Qed.

Lemma footstep_adjacency_symmetric (r k : Z) :
  Footstep.adjacent_chain SamplingSpaceType 0 N w zero_mat r k
  = Footstep.adjacent_chain SamplingSpaceType 0 N w zero_mat k r.
Proof.
  destruct (Z.le_gt_cases 0 N) as [HN | HN].
  - pose proof (velDim_pos SamplingSpaceType) as Hvd. fold vd in Hvd.
    destruct (block_decomposition vd r Hvd) as [Hr Hra].
    destruct (block_decomposition vd k Hvd) as [Hk Hka].
    rewrite Hr, Hk.
    rewrite !footstep_adjacency_entry by assumption.
    apply chain_after_symmetric.
  - unfold Footstep.adjacent_chain. rewrite for_loop_nonpos by lia.
    reflexivity.
Qed.

End FootstepHessian.

Lemma footstep_plain_objective_offdiagonal
    {M : Manifold} (SamplingSpaceType : SamplingSpace)
    (p : Footstep.Planner) (r k : Z) :
  r <> k ->
  fst (fst (Footstep.objective_without_adjacency SamplingSpaceType p)) r k
  = 0%Q.
Proof.
  intros Hrk. unfold Footstep.objective_without_adjacency. cbn [fst snd].
  unfold diagonal_add, diagonal_setConstant, block_diagonal_setConstant,
    zero_mat.
  repeat case_if; reflexivity.
Qed.

(** X8.  The objective matrix that [RmapPlanningFootstep::runOnce] hands
    to the QP solver is symmetric: the damping and the unit weight of the
    last waypoint are on the diagonal, and [setup] writes every
    off-diagonal block of the adjacency regularization together with its
    transpose. *)
Theorem footstep_hessian_symmetric
    (M : Manifold) (SamplingSpaceType : SamplingSpace)
    (config_ : Footstep.Configuration M) (svm_mo_ : SvmModel)
    (qp_solver_ : QpSolver) (p : Footstep.Planner) :
  Footstep.configured SamplingSpaceType config_ svm_mo_ qp_solver_ p ->
  forall r k,
    obj_mat_ (Footstep.assemble SamplingSpaceType config_ svm_mo_ p) r k
    = obj_mat_ (Footstep.assemble SamplingSpaceType config_ svm_mo_ p) k r.
Proof.
  intros Hp r k. cbn [Footstep.assemble obj_mat_].
  unfold Footstep.objective.
  destruct (Footstep.objective_without_adjacency SamplingSpaceType p)
    as [[obj_mat obj_vec] lambda] eqn:E.
  cbn [fst snd].
  rewrite (footstep_configured_adjacency _ _ _ _ _ Hp).
  rewrite (footstep_adjacency_symmetric SamplingSpaceType config_ r k).
  destruct (Z.eq_dec r k) as [-> | Hrk]; [reflexivity|].
  pose proof (footstep_plain_objective_offdiagonal SamplingSpaceType p r k Hrk)
    as H1.
  pose proof (footstep_plain_objective_offdiagonal SamplingSpaceType p k r
                (not_eq_sym Hrk)) as H2.
  rewrite E in H1, H2. cbn [fst snd] in H1, H2. now rewrite H1, H2.
Qed.

Lemma footstep_hessian_symmetric_witness :
  let config := Flat.footstep_config 2 3 (1 # 2) false in
  let p := Footstep.setup R2 config (Flat.footstep_new [1; 0]%Q) in
  let qp := Footstep.assemble R2 config (1 # 4)%Q p in
  obj_mat_ qp 0 2 = obj_mat_ qp 2 0 /\ obj_mat_ qp 2 0 = (- (1 # 2))%Q.
Proof.
  intros config p qp. split.
  - exact (footstep_hessian_symmetric
             (Flat.manifold 2) R2 config (1 # 4)%Q
             (Flat.constant_solver zero_vec) p
             (Footstep.configured_setup R2 config (1 # 4)%Q
                (Flat.constant_solver zero_vec)
                (Flat.footstep_new [1; 0]%Q))
             0 2).
  - reflexivity.
Defined.

(** X9.  The damping [lambda] that [RmapPlanningFootstep::runOnce] adds to
    the diagonal of the objective matrix is at least [1e-3], whatever the
    target error is; when the adjacency weight is not negative, every
    diagonal entry of the matrix handed to the solver is at least
    [lambda], so none of them is zero. *)
Theorem footstep_damping_bounds_diagonal
    (M : Manifold) (SamplingSpaceType : SamplingSpace)
    (config_ : Footstep.Configuration M) (svm_mo_ : SvmModel)
    (qp_solver_ : QpSolver) (p : Footstep.Planner) :
  let vd := velDim SamplingSpaceType in
  let N := Footstep.footstep_num config_ in
  let lambda :=
    snd (Footstep.objective_without_adjacency SamplingSpaceType p) in
  let qp := Footstep.assemble SamplingSpaceType config_ svm_mo_ p in
  Footstep.configured SamplingSpaceType config_ svm_mo_ qp_solver_ p ->
  (0 <= Footstep.adjacent_reg_weight config_)%Q ->
  (1 / 1000 <= lambda)%Q
  /\ forall r, 0 <= r < vd * N -> (lambda <= obj_mat_ qp r r)%Q.
Proof.
  intros vd N lambda qp Hp Hw.
  pose proof (velDim_pos SamplingSpaceType) as Hvd. fold vd in Hvd.
  assert (Hlambda : (1 / 1000 <= lambda)%Q).
  { subst lambda. unfold Footstep.objective_without_adjacency. cbn [snd].
    set (sq := squaredNorm_dyn _ _).
    assert (Hsq : (0 <= sq)%Q).
    { apply sumQ_nonneg. intros k. nra. }
    apply (Qle_trans _ (0 + 1 / 1000)%Q); [now rewrite Qplus_0_l|].
    apply Qplus_le_l. exact Hsq. }
  split; [exact Hlambda|].
  intros r Hr.
  assert (HN : 0 <= N) by nia.
  destruct (footstep_configured_dims SamplingSpaceType config_ svm_mo_
              qp_solver_ p Hp) as [Hdim _].
  fold vd N in Hdim.
  subst qp. cbn [Footstep.assemble obj_mat_]. unfold Footstep.objective.
  subst lambda. unfold Footstep.objective_without_adjacency in *.
  cbn [fst snd] in *.
  set (lambda := (squaredNorm_dyn _ _ + 1 / 1000)%Q) in *.
  rewrite (footstep_configured_adjacency _ _ _ _ _ Hp).
  destruct (block_decomposition vd r Hvd) as [Hdec Ha].
  assert (Hbi : 0 <= r / vd < N).
  { split; [apply Z.div_pos; lia|].
    apply Z.div_lt_upper_bound; lia. }
  rewrite Hdec at 3 4.
  rewrite (footstep_adjacency_entry SamplingSpaceType config_) by assumption.
  fold N.
  assert (Hadj : (0 <= Blocks.chain_after 0 N N
                         (Footstep.adjacent_reg_weight config_) 0
                         (r / vd) (r / vd) (r mod vd) (r mod vd))%Q).
  { unfold Blocks.chain_after, in_range.
    repeat case_if; (apply Qmult_le_0_compat; [easy | exact Hw]). }
  assert (Hplain : (lambda <=
            diagonal_add
              (diagonal_setConstant zero_mat
                 (dim_var_ (Footstep.qp_coeff_ p)
                  - Footstep.vel_dim_ SamplingSpaceType)
                 (Footstep.vel_dim_ SamplingSpaceType) 1)
              0 (dim_var_ (Footstep.qp_coeff_ p)) lambda r r)%Q).
  { unfold diagonal_add, diagonal_setConstant, block_diagonal_setConstant,
      zero_mat, in_range. rewrite Hdim.
    repeat case_if; lra. }
  lra.
Qed.

Lemma footstep_damping_bounds_diagonal_witness :
  let config := Flat.footstep_config 2 3 (1 # 2) false in
  let p := Footstep.setup R2 config (Flat.footstep_new [1; 0]%Q) in
  let qp := Footstep.assemble R2 config (1 # 4)%Q p in
  (0 <= Footstep.adjacent_reg_weight config)%Q
  /\ (1 / 1000
      <= snd (Footstep.objective_without_adjacency
                (M := Flat.manifold 2) R2 p))%Q
  /\ Qle (1 / 1000) (obj_mat_ qp 5 5).
Proof.
  intros config p qp.
  assert (Hw : (0 <= Footstep.adjacent_reg_weight config)%Q)
    by (simpl; lra).
  destruct (footstep_damping_bounds_diagonal
              (Flat.manifold 2) R2 config (1 # 4)%Q
              (Flat.constant_solver zero_vec) p
              (Footstep.configured_setup R2 config (1 # 4)%Q
                 (Flat.constant_solver zero_vec)
                 (Flat.footstep_new [1; 0]%Q))
              Hw)
    as [Hlambda Hdiag].
  split; [exact Hw|]. split; [exact Hlambda|].
  apply (Qle_trans _ _ _ Hlambda). apply Hdiag. simpl. lia.
Defined.

(** ** The gradient of the adjacency regularization *)

Lemma sumQ_succ (n : Z) (f : Z -> Q) :
  0 <= n -> sumQ (n + 1) f = (sumQ n f + f n)%Q.
Proof. intros Hn. unfold sumQ. now rewrite for_loop_succ by exact Hn. Qed.

Lemma sumQ_ext (n : Z) (f g : Z -> Q) :
  (forall k, 0 <= k < n -> Qeq (f k) (g k)) -> (sumQ n f == sumQ n g)%Q.
Proof.
  intros Hfg.
  destruct (Z.le_gt_cases 0 n) as [Hn | Hn].
  - unfold sumQ at 1.
    apply (for_loop_invariant (fun i acc => (acc == sumQ i g)%Q));
      [reflexivity| |exact Hn].
    intros i acc Hi Hacc. rewrite sumQ_succ by lia.
    rewrite Hacc, (Hfg i Hi). reflexivity.
  - unfold sumQ. rewrite !for_loop_nonpos by lia. reflexivity.
Qed.

Lemma sumQ_plus (n : Z) (f g : Z -> Q) :
  (sumQ n (fun k => f k + g k) == sumQ n f + sumQ n g)%Q.
Proof.
  destruct (Z.le_gt_cases 0 n) as [Hn | Hn].
  - unfold sumQ at 1.
    apply (for_loop_invariant
             (fun i acc => (acc == sumQ i f + sumQ i g)%Q));
      [reflexivity| |exact Hn].
    intros i acc Hi Hacc. rewrite !sumQ_succ by lia. rewrite Hacc. ring.
  - unfold sumQ. rewrite !for_loop_nonpos by lia. reflexivity.
Qed.

(** A sum with one term that can differ from zero. *)
Lemma sumQ_point (n j : Z) (x : Q) :
  0 <= n ->
  (sumQ n (fun k => if k =? j then x else 0)
   == if in_range 0 n j then x else 0)%Q.
Proof.
  intros Hn. unfold sumQ at 1.
  apply (for_loop_invariant
           (fun i acc => (acc == if in_range 0 i j then x else 0)%Q));
    [| |exact Hn].
  - unfold in_range. case_if; reflexivity.
  - intros i acc Hi Hacc. rewrite Hacc. unfold in_range.
    repeat case_if; ring.
Qed.

Section FootstepGradient.
Context {M : Manifold}.
Variable SamplingSpaceType : SamplingSpace.
Variable config_ : Footstep.Configuration M.

Let N := Footstep.footstep_num config_.
Let vd := velDim SamplingSpaceType.
Let w := Footstep.adjacent_reg_weight config_.

(** Row [bi * vd + a] of the adjacency matrix: the diagonal entry and the
    entries of the two neighbours. *)
Lemma footstep_adjacency_row (bi a k : Z) :
  0 <= bi < N -> 0 <= a < vd ->
  Footstep.adjacent_chain SamplingSpaceType 0 N w zero_mat (bi * vd + a) k
  = if k =? bi * vd + a then
      (inject_Z (if bi =? N - 1 then 1 else 2) * w)%Q
    else if (0 <? bi) && (k =? (bi - 1) * vd + a) then (- w)%Q
    else if (bi <? N - 1) && (k =? (bi + 1) * vd + a) then (- w)%Q
    else 0%Q.
Proof.
  intros Hbi Ha.
  pose proof (velDim_pos SamplingSpaceType) as Hvd. fold vd in Hvd.
  destruct (block_decomposition vd k Hvd) as [Hk Hb].
  set (bj := k / vd) in *. set (b := k mod vd) in *.
  clearbody bj b. subst k.
  unfold w, N. rewrite footstep_adjacency_entry by (fold N; fold vd; lia).
  fold w N vd.
  destruct (Z.eqb_spec (bj * vd + b) (bi * vd + a)) as [E1 | E1].
  { apply block_position_unique in E1; [|lia|lia]. destruct E1 as [-> ->].
    unfold Blocks.chain_after, in_range.
    repeat case_if; try reflexivity; repeat f_equal; lia. }
  destruct (Z.eqb_spec (bj * vd + b) ((bi - 1) * vd + a)) as [E2 | E2].
  { apply block_position_unique in E2; [|lia|lia]. destruct E2 as [-> ->].
    unfold Blocks.chain_after, in_range.
    repeat case_if; reflexivity. }
  destruct (Z.eqb_spec (bj * vd + b) ((bi + 1) * vd + a)) as [E3 | E3].
  { apply block_position_unique in E3; [|lia|lia]. destruct E3 as [-> ->].
    unfold Blocks.chain_after, in_range.
    repeat case_if; reflexivity. }
  rewrite !andb_false_r.
  unfold Blocks.chain_after, in_range.
  repeat case_if; try reflexivity; exfalso; subst;
    first [apply E1; ring | apply E2; ring | apply E3; ring].
Qed.

(** [current_config] holds, in block [i], the error of waypoint [i] with
    respect to the identity sample. *)
Lemma footstep_current_config_entry (p : Footstep.Planner) (i a : Z) :
  0 <= i < N -> 0 <= a < vd ->
  Footstep.current_config SamplingSpaceType config_ p (i * vd + a)
  = entry (sampleError (Footstep.identity_sample_)
             (Footstep.sample_at (Footstep.current_sample_seq_ p) i)) a.
Proof.
  intros Hi Ha. unfold Footstep.current_config. fold N.
  pose proof (velDim_pos SamplingSpaceType) as Hvd. fold vd in Hvd.
  assert (H : forall n, 0 <= n <= N ->
    for_loop n
      (fun i v =>
         segment_assign v (i * Footstep.vel_dim_ SamplingSpaceType)
           (Footstep.vel_dim_ SamplingSpaceType)
           (sampleError Footstep.identity_sample_
              (Footstep.sample_at (Footstep.current_sample_seq_ p) i)))
      zero_vec (i * vd + a)
    = if i <? n
      then entry (sampleError (Footstep.identity_sample_)
                    (Footstep.sample_at (Footstep.current_sample_seq_ p) i)) a
      else 0%Q).
  { intros n Hn.
    apply (for_loop_invariant
      (fun n (v : VectorXd) =>
         v (i * vd + a)
         = if i <? n
           then entry (sampleError (Footstep.identity_sample_)
                    (Footstep.sample_at (Footstep.current_sample_seq_ p) i)) a
           else 0%Q)); [| |lia].
    - case_if; reflexivity.
    - intros j v Hj IH. unfold segment_assign, Footstep.vel_dim_. fold vd.
      destruct (Z.eq_dec j i) as [-> | Hji].
      + unfold in_range. repeat case_if. f_equal. ring.
      + assert (Hout : in_range (j * vd) vd (i * vd + a) = false).
        { unfold in_range. apply andb_false_iff.
          rewrite Z.leb_gt, Z.ltb_ge.
          destruct (Z.lt_trichotomy j i) as [Hlt | [Heq | Hgt]];
            [right | contradiction | left].
          - assert ((j + 1) * vd <= i * vd)
              by (apply Z.mul_le_mono_nonneg_r; lia). lia.
          - assert ((i + 1) * vd <= j * vd)
              by (apply Z.mul_le_mono_nonneg_r; lia). lia. }
        rewrite Hout, IH. repeat case_if; reflexivity. }
  rewrite H by lia. case_if. reflexivity.
Qed.
End FootstepGradient.

(** X10.  The linear term of the footstep QP.  [current_config] holds the
    error of waypoint [i] with respect to the identity sample in block
    [i]; the product of the adjacency matrix with it is, in block [bi],
    the discrete Laplacian of these errors ([2w] times the waypoint, [w]
    for the last one, minus [w] times each neighbour); the objective
    vector handed to the solver is this Laplacian, plus the target error
    in the last block. *)
Theorem footstep_linear_term
    (M : Manifold) (SamplingSpaceType : SamplingSpace)
    (config_ : Footstep.Configuration M) (svm_mo_ : SvmModel)
    (qp_solver_ : QpSolver) (p : Footstep.Planner) (bi a : Z) :
  let vd := velDim SamplingSpaceType in
  let N := Footstep.footstep_num config_ in
  let w := Footstep.adjacent_reg_weight config_ in
  let c := Footstep.current_config SamplingSpaceType config_ p in
  let qp := Footstep.assemble SamplingSpaceType config_ svm_mo_ p in
  Footstep.configured SamplingSpaceType config_ svm_mo_ qp_solver_ p ->
  0 <= bi < N -> 0 <= a < vd ->
  (forall i, 0 <= i < N ->
     c (i * vd + a)
     = entry (sampleError Footstep.identity_sample_
                (Footstep.sample_at (Footstep.current_sample_seq_ p) i)) a)
  /\ Qeq (mat_vec (dim_var_ (Footstep.qp_coeff_ p))
            (Footstep.adjacent_reg_mat_ p) c (bi * vd + a))
         (Closed.laplacian vd N w c bi a)
  /\ Qeq (obj_vec_ qp (bi * vd + a))
         ((if bi =? N - 1 then entry (Footstep.target_error p) a else 0)
          + Closed.laplacian vd N w c bi a).
Proof.
  intros vd N w c qp Hp Hbi Ha.
  pose proof (velDim_pos SamplingSpaceType) as Hvd. fold vd in Hvd.
  destruct (footstep_configured_dims SamplingSpaceType config_ svm_mo_
              qp_solver_ p Hp) as [Hdim _].
  fold vd N in Hdim.
  assert (Hconfig : forall i, 0 <= i < N ->
            c (i * vd + a)
            = entry (sampleError Footstep.identity_sample_
                (Footstep.sample_at (Footstep.current_sample_seq_ p) i)) a).
  { intros i Hi. apply footstep_current_config_entry; assumption. }
  assert (Hgrad : Qeq (mat_vec (dim_var_ (Footstep.qp_coeff_ p))
                         (Footstep.adjacent_reg_mat_ p) c (bi * vd + a))
                      (Closed.laplacian vd N w c bi a)).
  { rewrite Hdim, (footstep_configured_adjacency _ _ _ _ _ Hp).
    fold N w. unfold mat_vec.
    set (p0 := (bi - 1) * vd + a). set (p1 := bi * vd + a).
    set (p2 := (bi + 1) * vd + a).
    destruct (block_bound vd N bi a Hbi Ha) as (Hlo & Hhi & Hnext).
    assert (Hlen : 0 <= vd * N) by nia.
    rewrite (sumQ_ext _ _
      (fun k =>
         (if k =? p1
          then inject_Z (if bi =? N - 1 then 1 else 2) * w * c p1 else 0)
         + ((if k =? p0 then (if 0 <? bi then - w * c p0 else 0) else 0)
            + (if k =? p2
               then (if bi <? N - 1 then - w * c p2 else 0) else 0)))%Q).
    - rewrite !sumQ_plus, !sumQ_point by exact Hlen.
      assert (H1 : in_range 0 (vd * N) p1 = true).
      { unfold in_range, p1. apply andb_true_intro.
        split; [apply Z.leb_le | apply Z.ltb_lt]; lia. }
      rewrite H1. unfold Closed.laplacian. fold p0 p1 p2.
      assert (H0 : (0 <? bi) = true -> in_range 0 (vd * N) p0 = true).
      { intros H. apply Z.ltb_lt in H. unfold in_range, p0.
        destruct (block_bound vd N (bi - 1) a ltac:(lia) Ha) as (? & ? & ?).
        apply andb_true_intro.
        split; [apply Z.leb_le | apply Z.ltb_lt]; lia. }
      assert (H2 : (bi <? N - 1) = true -> in_range 0 (vd * N) p2 = true).
      { intros H. apply Z.ltb_lt in H. unfold in_range, p2.
        destruct (block_bound vd N (bi + 1) a ltac:(lia) Ha) as (? & ? & ?).
        apply andb_true_intro.
        split; [apply Z.leb_le | apply Z.ltb_lt]; lia. }
      destruct (0 <? bi) eqn:E0; destruct (bi <? N - 1) eqn:E2;
        try rewrite (H0 eq_refl); try rewrite (H2 eq_refl);
        destruct (bi =? N - 1); cbn [inject_Z];
        repeat match goal with
               | |- context [if ?b then _ else _] => destruct b
               end; ring.
    - intros k Hk.
      pose proof (footstep_adjacency_row SamplingSpaceType config_ bi a k
                    Hbi Ha) as Hrow.
      fold w N vd p0 p1 p2 in Hrow. rewrite Hrow.
      assert (p0 <> p1 /\ p1 <> p2 /\ p0 <> p2) as (D01 & D12 & D02)
        by (unfold p0, p1, p2; lia).
      destruct (Z.eqb_spec k p1) as [-> | E1].
      + destruct (Z.eqb_spec p1 p0); [congruence|].
        destruct (Z.eqb_spec p1 p2); [congruence|]. ring.
      + destruct (Z.eqb_spec k p0) as [-> | E0].
        * destruct (Z.eqb_spec p0 p2); [congruence|].
          destruct (0 <? bi); cbn [andb]; [ring|].
          rewrite andb_false_r. ring.
        * rewrite andb_false_r.
          destruct (Z.eqb_spec k p2) as [-> | E2].
          -- destruct (bi <? N - 1); cbn [andb]; ring.
          -- rewrite andb_false_r. ring. }
  split; [exact Hconfig|]. split; [exact Hgrad|].
  subst qp. cbn [Footstep.assemble obj_vec_]. unfold Footstep.objective.
  unfold Footstep.objective_without_adjacency. cbn [fst snd].
  fold c. rewrite Hgrad. apply Qplus_inj_r.
  rewrite Hdim. unfold segment_assign, zero_vec, Footstep.vel_dim_.
  fold vd. unfold in_range.
  destruct (Z.eqb_spec bi (N - 1)) as [-> | Hlast].
  - repeat case_if. replace ((N - 1) * vd + a - (vd * N - vd)) with a by ring.
    reflexivity.
  - assert ((bi + 1) * vd <= (N - 1) * vd)
      by (apply Z.mul_le_mono_nonneg_r; lia).
    repeat case_if; reflexivity.
Qed.

Lemma footstep_linear_term_witness :
  let config := Flat.footstep_config 2 3 (1 # 2) false in
  let p := Footstep.setup R2 config (Flat.footstep_new [1; 0]%Q) in
  let c := Footstep.current_config R2 config p in
  0 <= 1 < Footstep.footstep_num config
  /\ Qeq (mat_vec (dim_var_ (Footstep.qp_coeff_ p))
            (Footstep.adjacent_reg_mat_ p) c 2)
         (c 2 - (1 # 2) * c 0 - (1 # 2) * c 4).
Proof.
  intros config p c.
  assert (Hbi : 0 <= 1 < Footstep.footstep_num config) by (simpl; lia).
  destruct (footstep_linear_term
              (Flat.manifold 2) R2 config (1 # 4)%Q
              (Flat.constant_solver zero_vec) p 1 0
              (Footstep.configured_setup R2 config (1 # 4)%Q
                 (Flat.constant_solver zero_vec)
                 (Flat.footstep_new [1; 0]%Q))
              Hbi ltac:(simpl; lia))
    as (_ & Hgrad & _).
  split; [exact Hbi|].
  etransitivity; [exact Hgrad|].
  unfold Closed.laplacian. fold c. simpl Z.eqb. simpl Z.ltb. cbv iota.
  change (Footstep.adjacent_reg_weight config) with (1 # 2)%Q.
  change ((1 - 1) * velDim R2 + 0) with 0.
  change (1 * velDim R2 + 0) with 2.
  change ((1 + 1) * velDim R2 + 0) with 4.
  change (0 <? 1) with true. change (1 <? 3 - 1) with true. cbv iota.
  ring.
Defined.

(** ** The trajectories of the locomanipulation planner *)

(** A loop that writes entry [i] of a list in turn [i]. *)
Lemma for_loop_write_each {A : Type} (g : Z -> A) (n : Z) (l : list A) :
  0 <= n -> (Z.to_nat n <= length l)%nat ->
  for_loop n (fun i l => <[Z.to_nat i := g i]> l) l
  = map (fun i => g (Z.of_nat i)) (seq 0 (Z.to_nat n))
    ++ skipn (Z.to_nat n) l.
Proof.
  intros Hn Hlen.
  destruct l as [|d l'] eqn:El.
  - simpl in Hlen. assert (n = 0) by lia. subst n. reflexivity.
  - rewrite <- El in *.
    exact (for_loop_update_each (fun i _ => g i) d n l Hn Hlen).
Qed.

Lemma even_of_nat (i : nat) : Z.even (Z.of_nat i) = Nat.even i.
Proof.
  assert (H : Z.even (Z.of_nat i) = Nat.even i
              /\ Z.even (Z.of_nat (S i)) = Nat.even (S i)).
  { induction i as [|i [IH1 IH2]]; [split; reflexivity|].
    split; [exact IH2|].
    rewrite !Nat2Z.inj_succ, Z.even_succ_succ. exact IH1. }
  exact (proj1 H).
Qed.

Lemma foot_of_step_parity (i : nat) :
  Locomanip.foot_of_step (Z.of_nat i)
  = if Nat.even i then Locomanip.LeftFoot else Locomanip.RightFoot.
Proof.
  unfold Locomanip.foot_of_step. rewrite rem_2_of_step by lia.
  rewrite <- Z.negb_even, even_of_nat.
  destruct (Nat.even i); reflexivity.
Qed.

Section LocomanipTrajectory.
Context {M : Manifold}.
Variable SamplingSpaceType : SamplingSpace.
Variable config_ : Locomanip.Configuration M.

Let L := Locomanip.motion_len config_.

(** The start sample that [setup] computes for a limb from the
    configuration. *)
Let configured_start (limb : Locomanip.Limb) : Sample :=
  poseToSample
    (match Locomanip.initial_sample_pose_list config_ limb with
     | Some pose => pose
     | None => pose_identity
     end).

Lemma locomanip_setup_start (p : Locomanip.Planner) (limb : Locomanip.Limb) :
  Locomanip.start_sample_list_ (Locomanip.setup SamplingSpaceType config_ p)
    limb
  = Some (match Locomanip.start_sample_list_ p limb with
          | Some old => old
          | None => configured_start limb
          end).
Proof.
  unfold Locomanip.setup, Locomanip.setup_dimensions. cbn.
  unfold Locomanip.emplace.
  destruct limb; cbn;
    destruct (Locomanip.start_sample_list_ p Locomanip.LeftFoot);
    destruct (Locomanip.start_sample_list_ p Locomanip.RightFoot);
    destruct (Locomanip.start_sample_list_ p Locomanip.LeftHand);
    reflexivity.
Qed.

Lemma locomanip_setup_sequences (p : Locomanip.Planner) :
  0 <= L ->
  let p' := Locomanip.setup SamplingSpaceType config_ p in
  Locomanip.current_foot_sample_seq_ p'
  = map (fun i => Locomanip.at_limb (Locomanip.start_sample_list_ p')
                    (Locomanip.foot_of_step (Z.of_nat i)))
        (seq 0 (Z.to_nat L))
  /\ Locomanip.current_hand_sample_seq_ p'
     = map (fun i => Locomanip.at_limb (Locomanip.start_sample_list_ p')
                       Locomanip.LeftHand)
           (seq 0 (Z.to_nat L)).
Proof.
  intros HL p'. subst p'.
  unfold Locomanip.setup, Locomanip.setup_dimensions.
  cbn [Locomanip.current_foot_sample_seq_ Locomanip.current_hand_sample_seq_
       Locomanip.start_sample_list_].
  fold L.
  split.
  - rewrite (for_loop_write_each
               (fun i => Locomanip.at_limb _ (Locomanip.foot_of_step i)))
      by (rewrite ?repeat_length; lia).
    rewrite skipn_all2 by (rewrite repeat_length; lia).
    now rewrite app_nil_r.
  - rewrite (for_loop_write_each
               (fun i => Locomanip.at_limb _ Locomanip.LeftHand))
      by (rewrite ?repeat_length; lia).
    rewrite skipn_all2 by (rewrite repeat_length; lia).
    now rewrite app_nil_r.
Qed.
End LocomanipTrajectory.

(** X11.  [RmapPlanningLocomanip::setup] gives every limb a start sample,
    so that the later [at] on the map cannot throw: the sample that the map
    held already for the limb if there was one ([emplace] does not
    overwrite), else the sample of the configured pose, else that of the
    identity.  The trajectory of the feet has one waypoint per step, the
    start sample of the left foot on the even steps and of the right foot
    on the odd ones; the trajectory of the hand has the start sample of the
    left hand on every step. *)
Theorem locomanip_setup_trajectories
    (M : Manifold) (SamplingSpaceType : SamplingSpace)
    (config_ : Locomanip.Configuration M) (p : Locomanip.Planner) :
  let L := Locomanip.motion_len config_ in
  let p' := Locomanip.setup SamplingSpaceType config_ p in
  let start := Locomanip.start_sample_list_ p' in
  0 <= L ->
  (forall limb,
     start limb
     = Some (match Locomanip.start_sample_list_ p limb with
             | Some old => old
             | None =>
                 poseToSample
                   (match Locomanip.initial_sample_pose_list config_ limb with
                    | Some pose => pose
                    | None => pose_identity
                    end)
             end))
  /\ length (Locomanip.current_foot_sample_seq_ p') = Z.to_nat L
  /\ length (Locomanip.current_hand_sample_seq_ p') = Z.to_nat L
  /\ (forall i, (i < Z.to_nat L)%nat ->
        Some (nth i (Locomanip.current_foot_sample_seq_ p') [])
        = start (if Nat.even i then Locomanip.LeftFoot
                 else Locomanip.RightFoot)
        /\ Some (nth i (Locomanip.current_hand_sample_seq_ p') [])
           = start Locomanip.LeftHand).
Proof.
  intros L p' start HL.
  pose proof (locomanip_setup_start SamplingSpaceType config_ p) as Hstart.
  destruct (locomanip_setup_sequences SamplingSpaceType config_ p HL)
    as [Hfoot Hhand].
  fold p' in Hstart, Hfoot, Hhand. fold L in Hfoot, Hhand.
  split; [exact Hstart|].
  rewrite Hfoot, Hhand, !length_map, !length_seq.
  split; [reflexivity|]. split; [reflexivity|].
  intros i Hi.
  assert (Hat : forall limb,
            Some (Locomanip.at_limb (Locomanip.start_sample_list_ p') limb)
            = start limb).
  { intros limb. unfold Locomanip.at_limb. subst start.
    rewrite (Hstart limb). reflexivity. }
  split.
  - rewrite (nth_indep _ [] (Locomanip.at_limb
               (Locomanip.start_sample_list_ p')
               (Locomanip.foot_of_step (Z.of_nat 0))))
      by (rewrite length_map, length_seq; exact Hi).
    rewrite (map_nth (fun i => Locomanip.at_limb _
                                 (Locomanip.foot_of_step (Z.of_nat i)))).
    rewrite seq_nth by exact Hi. cbn [Nat.add].
    rewrite foot_of_step_parity. apply Hat.
  - rewrite (nth_indep _ [] (Locomanip.at_limb
               (Locomanip.start_sample_list_ p') Locomanip.LeftHand))
      by (rewrite length_map, length_seq; exact Hi).
    rewrite (map_nth (fun _ => Locomanip.at_limb _ Locomanip.LeftHand)
                     _ 0%nat).
    apply Hat.
Qed.

Lemma locomanip_setup_trajectories_witness :
  let config := Examples.locomanip_config_feet 3 in
  let p' := Locomanip.setup R2 config (Flat.locomanip_new [1; 0]%Q) in
  0 <= Locomanip.motion_len config
  /\ Locomanip.start_sample_list_ p' Locomanip.LeftHand = Some [0; 0]%Q
  /\ nth 1 (Locomanip.current_foot_sample_seq_ p') [] = [0; - (1 # 10)]%Q.
Proof.
  intros config p'.
  assert (HL : 0 <= Locomanip.motion_len config) by (simpl; lia).
  destruct (locomanip_setup_trajectories
              (Flat.manifold 2) R2 config (Flat.locomanip_new [1; 0]%Q) HL)
    as (Hstart & _ & _ & Hnth).
  split; [exact HL|]. split.
  - exact (Hstart Locomanip.LeftHand).
  - destruct (Hnth 1%nat ltac:(simpl; lia)) as [Hfoot _].
    pose proof (eq_trans Hfoot (Hstart Locomanip.RightFoot)) as Heq.
    exact (f_equal (fun o => match o with Some s => s | None => [] end)
                   Heq).
Defined.

(** ** The integration step of the locomanipulation planner *)

Lemma nth_map_seq {A : Type} (g : nat -> A) (n i : nat) (d : A) :
  (i < n)%nat -> nth i (map g (seq 0 n)) d = g i.
Proof.
  intros Hi.
  rewrite (nth_indep _ d (g 0%nat)) by now rewrite length_map, length_seq.
  rewrite (map_nth g). now rewrite seq_nth by exact Hi.
Qed.

(** A loop over a pair whose components do not read each other. *)
Lemma for_loop_pair {A B : Type} (f : Z -> A -> A) (g : Z -> B -> B)
      (n : Z) (a : A) (b : B) :
  for_loop n (fun i '(x, y) => (f i x, g i y)) (a, b)
  = (for_loop n f a, for_loop n g b).
Proof.
  unfold for_loop. generalize (seq 0 (Z.to_nat n)) as l.
  intros l. revert a b.
  induction l as [|i l IH]; intros a b; [reflexivity|].
  simpl. apply IH.
Qed.

Section LocomanipIntegration.
Context {M : Manifold}.
Variable SamplingSpaceType : SamplingSpace.
Variable config_ : Locomanip.Configuration M.
Variable rmapPlanning : Locomanip.Limb -> SvmModel.
Variable qp_solver_ : QpSolver.

Let L := Locomanip.motion_len config_.
Let vd := velDim SamplingSpaceType.

Lemma locomanip_integrate_spec (p : Locomanip.Planner) (vel_all : VectorXd) :
  0 <= L ->
  length (Locomanip.current_foot_sample_seq_ p) = Z.to_nat L ->
  length (Locomanip.current_hand_sample_seq_ p) = Z.to_nat L ->
  Locomanip.integrate SamplingSpaceType config_ p vel_all
  = (map (fun i =>
            integrateVelToSample
              (nth i (Locomanip.current_foot_sample_seq_ p) [])
              (segment vel_all (Z.of_nat i * vd) vd))
         (seq 0 (Z.to_nat L)),
     map (fun i =>
            integrateVelToSample
              (nth i (Locomanip.current_hand_sample_seq_ p) [])
              (segment vel_all
                 (Locomanip.hand_start_config_idx_ p + Z.of_nat i * vd) vd))
         (seq 0 (Z.to_nat L))).
Proof.
  intros HL Hfoot Hhand.
  unfold Locomanip.integrate, Locomanip.sample_at, Locomanip.vel_dim_.
  fold L vd.
  rewrite (for_loop_pair
    (fun i foot_seq =>
       <[Z.to_nat i :=
           integrateVelToSample (nth (Z.to_nat i) foot_seq [])
             (segment vel_all (i * vd) vd)]> foot_seq)
    (fun i hand_seq =>
       <[Z.to_nat i :=
           integrateVelToSample (nth (Z.to_nat i) hand_seq [])
             (segment vel_all
                (Locomanip.hand_start_config_idx_ p + i * vd) vd)]>
         hand_seq)).
  rewrite (for_loop_update_each
             (fun i s => integrateVelToSample s (segment vel_all (i * vd) vd))
             [] L _ HL) by lia.
  rewrite (for_loop_update_each
             (fun i s => integrateVelToSample s
                (segment vel_all
                   (Locomanip.hand_start_config_idx_ p + i * vd) vd))
             [] L _ HL) by lia.
  rewrite !skipn_all2 by lia. now rewrite !app_nil_r.
Qed.

(** What [setup] fixes stays fixed: the lengths of the two trajectories,
    the place of the first hand block, the start samples and the matrix of
    the adjacency regularization. *)
Lemma locomanip_configured_shape (p : Locomanip.Planner) :
  0 <= L ->
  Locomanip.configured SamplingSpaceType config_ rmapPlanning qp_solver_ p ->
  length (Locomanip.current_foot_sample_seq_ p) = Z.to_nat L
  /\ length (Locomanip.current_hand_sample_seq_ p) = Z.to_nat L
  /\ Locomanip.hand_start_config_idx_ p = L * vd
  /\ (forall limb, Locomanip.start_sample_list_ p limb <> None)
  /\ Locomanip.adjacent_reg_mat_ p
     = Footstep.adjacent_chain SamplingSpaceType (L * vd) L
         (Locomanip.adjacent_reg_weight config_)
         (Footstep.adjacent_chain SamplingSpaceType 0 L
            (Locomanip.adjacent_reg_weight config_) zero_mat).
Proof.
  intros HL. induction 1 as [p | p Hp IH | s p Hp IH].
  - destruct (locomanip_setup_sequences SamplingSpaceType config_ p HL)
      as [Hfoot Hhand].
    rewrite Hfoot, Hhand, !length_map, !length_seq.
    split; [reflexivity|]. split; [reflexivity|]. split; [reflexivity|].
    split; [|reflexivity].
    intros limb. rewrite locomanip_setup_start. discriminate.
  - destruct IH as (Hfoot & Hhand & Hidx & Hstart & Hadj).
    unfold Locomanip.runOnce.
    destruct (qp_solver_ _) as [solution failed].
    rewrite locomanip_integrate_spec by assumption.
    cbn. rewrite !length_map, !length_seq. auto.
  - exact IH.
Qed.
End LocomanipIntegration.

(** X12.  [RmapPlanningLocomanip::runOnce] integrates block [i] of the
    velocity into waypoint [i] of the feet, and block [motion_len + i]
    into waypoint [i] of the hand, where the velocity is the solution of
    the QP, or zero when the solver has failed.  Both trajectories keep
    their length; the start samples, the target of the hand and the matrix
    of the adjacency regularization are left as they were. *)
Theorem locomanip_runOnce_integrates_each_waypoint
    (M : Manifold) (SamplingSpaceType : SamplingSpace)
    (config_ : Locomanip.Configuration M)
    (rmapPlanning : Locomanip.Limb -> SvmModel) (qp_solver_ : QpSolver)
    (p : Locomanip.Planner) :
  let L := Locomanip.motion_len config_ in
  let vd := velDim SamplingSpaceType in
  let p' := Locomanip.runOnce SamplingSpaceType config_ rmapPlanning
                              qp_solver_ p in
  let solved :=
    qp_solver_ (Locomanip.assemble SamplingSpaceType config_ rmapPlanning p) in
  let vel_all := if snd solved then zero_vec else fst solved in
  0 <= L ->
  Locomanip.configured SamplingSpaceType config_ rmapPlanning qp_solver_ p ->
  length (Locomanip.current_foot_sample_seq_ p') = Z.to_nat L
  /\ length (Locomanip.current_hand_sample_seq_ p') = Z.to_nat L
  /\ (forall i, (i < Z.to_nat L)%nat ->
        nth i (Locomanip.current_foot_sample_seq_ p') []
        = integrateVelToSample
            (nth i (Locomanip.current_foot_sample_seq_ p) [])
            (segment vel_all (Z.of_nat i * vd) vd)
        /\ nth i (Locomanip.current_hand_sample_seq_ p') []
           = integrateVelToSample
               (nth i (Locomanip.current_hand_sample_seq_ p) [])
               (segment vel_all ((L + Z.of_nat i) * vd) vd))
  /\ Locomanip.start_sample_list_ p' = Locomanip.start_sample_list_ p
  /\ Locomanip.target_hand_sample_ p' = Locomanip.target_hand_sample_ p
  /\ Locomanip.adjacent_reg_mat_ p' = Locomanip.adjacent_reg_mat_ p.
Proof.
  intros L vd p' solved vel_all HL Hp.
  destruct (locomanip_configured_shape SamplingSpaceType config_ rmapPlanning
              qp_solver_ p HL Hp) as (Hfoot & Hhand & Hidx & _ & _).
  fold L vd in Hfoot, Hhand, Hidx.
  subst p' vel_all solved. unfold Locomanip.runOnce.
  destruct (qp_solver_ _) as [solution failed]. cbn [fst snd].
  rewrite locomanip_integrate_spec by assumption.
  cbn. rewrite !length_map, !length_seq.
  split; [reflexivity|]. split; [reflexivity|]. split; [|repeat split].
  intros i Hi. fold L in Hi |- *.
  rewrite !nth_map_seq by exact Hi. rewrite Hidx. fold vd.
  replace ((L + Z.of_nat i) * vd) with (L * vd + Z.of_nat i * vd) by ring.
  split; reflexivity.
Qed.

Lemma locomanip_runOnce_integrates_each_waypoint_witness :
  let config := Examples.locomanip_config_feet 2 in
  let qp_solver := Flat.constant_solver (fun j => inject_Z j) in
  let p := Locomanip.setup R2 config (Flat.locomanip_new [1; 0]%Q) in
  let p' := Locomanip.runOnce R2 config (fun _ => (1 # 4)%Q) qp_solver p in
  0 <= Locomanip.motion_len config
  /\ nth 1 (Locomanip.current_hand_sample_seq_ p') []
     = Flat.vec_add (nth 1 (Locomanip.current_hand_sample_seq_ p) [])
                    [inject_Z 6; inject_Z 7].
Proof.
  intros config qp_solver p p'.
  assert (HL : 0 <= Locomanip.motion_len config) by (simpl; lia).
  destruct (locomanip_runOnce_integrates_each_waypoint
              (Flat.manifold 2) R2 config (fun _ => (1 # 4)%Q) qp_solver p HL
              (Locomanip.configured_setup R2 config (fun _ => (1 # 4)%Q)
                 qp_solver (Flat.locomanip_new [1; 0]%Q)))
    as (_ & _ & Hnth & _).
  split; [exact HL|].
  exact (proj2 (Hnth 1%nat ltac:(simpl; lia))).
Defined.

(** ** The objective matrix of the locomanipulation planner *)

Lemma chain_after_symmetric_over (sb n len : Z) (w old old' : Q)
      (bi bj a b : Z) :
  old = old' ->
  Blocks.chain_after sb n len w old bi bj a b
  = Blocks.chain_after sb n len w old' bj bi b a.
Proof.
  intros ->. unfold Blocks.chain_after, in_range.
  repeat case_if; try reflexivity; subst; try reflexivity;
    try (exfalso; lia).
Qed.

Lemma adjacent_chain_entry_from_0 (SamplingSpaceType : SamplingSpace)
      (len : Z) (w : Q) (m : MatrixXd) (bi bj a b : Z) :
  0 <= len ->
  0 <= a < velDim SamplingSpaceType -> 0 <= b < velDim SamplingSpaceType ->
  Footstep.adjacent_chain SamplingSpaceType 0 len w m
    (bi * velDim SamplingSpaceType + a) (bj * velDim SamplingSpaceType + b)
  = Blocks.chain_after 0 len len w
      (m (bi * velDim SamplingSpaceType + a)
         (bj * velDim SamplingSpaceType + b)) bi bj a b.
Proof.
  intros Hlen Ha Hb.
  change (Footstep.adjacent_chain SamplingSpaceType 0)
    with (Footstep.adjacent_chain SamplingSpaceType
            (0 * velDim SamplingSpaceType)).
  apply adjacent_chain_entry; assumption.
Qed.

Section LocomanipHessian.
Context {M : Manifold}.
Variable SamplingSpaceType : SamplingSpace.
Variable config_ : Locomanip.Configuration M.

Let L := Locomanip.motion_len config_.
Let vd := velDim SamplingSpaceType.
Let w := Locomanip.adjacent_reg_weight config_.

Lemma locomanip_adjacency_symmetric (r k : Z) :
  Footstep.adjacent_chain SamplingSpaceType (L * vd) L w
    (Footstep.adjacent_chain SamplingSpaceType 0 L w zero_mat) r k
  = Footstep.adjacent_chain SamplingSpaceType (L * vd) L w
      (Footstep.adjacent_chain SamplingSpaceType 0 L w zero_mat) k r.
Proof.
  destruct (Z.le_gt_cases 0 L) as [HL | HL].
  - pose proof (velDim_pos SamplingSpaceType) as Hvd. fold vd in Hvd.
    destruct (block_decomposition vd r Hvd) as [Hr Hra].
    destruct (block_decomposition vd k Hvd) as [Hk Hka].
    rewrite Hr, Hk. unfold vd.
    rewrite !adjacent_chain_entry by assumption.
    apply chain_after_symmetric_over.
    rewrite !adjacent_chain_entry_from_0 by assumption.
    apply chain_after_symmetric.
  - unfold Footstep.adjacent_chain. rewrite !for_loop_nonpos by lia.
    reflexivity.
Qed.
End LocomanipHessian.

(** X13.  The objective matrix that [RmapPlanningLocomanip::runOnce]
    hands to the QP solver.  It is symmetric.  On the velocity variables it
    is the matrix of the adjacency regularization plus, on the diagonal,
    the damping (the squared norm of the error of the last hand waypoint
    with respect to the target, plus the configured [reg_weight]), and one
    more in the block of the last hand waypoint.  Every slack variable has
    the configured [svm_ineq_weight] on the diagonal, and is coupled with
    no other variable. *)
Theorem locomanip_hessian_blocks
    (M : Manifold) (SamplingSpaceType : SamplingSpace)
    (config_ : Locomanip.Configuration M)
    (rmapPlanning : Locomanip.Limb -> SvmModel) (qp_solver_ : QpSolver)
    (p : Locomanip.Planner) :
  let L := Locomanip.motion_len config_ in
  let vd := velDim SamplingSpaceType in
  let qp := Locomanip.assemble SamplingSpaceType config_ rmapPlanning p in
  let lambda :=
    (squaredNorm
       (sampleError (Locomanip.target_hand_sample_ p)
          (Locomanip.back (Locomanip.current_hand_sample_seq_ p)))
     + Locomanip.reg_weight config_)%Q in
  1 <= L ->
  Locomanip.configured SamplingSpaceType config_ rmapPlanning qp_solver_ p ->
  (forall r k, obj_mat_ qp r k = obj_mat_ qp k r)
  /\ (forall r, 0 <= r < 2 * L * vd ->
        obj_mat_ qp r r
        = ((if (2 * L - 1) * vd <=? r then 1 + lambda else 0 + lambda)
           + Locomanip.adjacent_reg_mat_ p r r)%Q)
  /\ (forall r k, 0 <= r < 2 * L * vd -> 0 <= k < 2 * L * vd -> r <> k ->
        obj_mat_ qp r k = (0 + Locomanip.adjacent_reg_mat_ p r k)%Q)
  /\ (forall j, 0 <= j < 3 * L - 1 ->
        obj_mat_ qp (2 * L * vd + j) (2 * L * vd + j)
        = Locomanip.svm_ineq_weight config_)
  /\ (forall r k, r <> k -> 2 * L * vd <= r \/ 2 * L * vd <= k ->
        obj_mat_ qp r k = 0%Q).
Proof.
  intros L vd qp lambda HL Hp.
  pose proof (velDim_pos SamplingSpaceType) as Hvd. fold vd in Hvd.
  destruct (locomanip_configured_dims _ _ _ _ p Hp)
    as (Hcd & Hsd & Hkd & Hdv & _).
  destruct (locomanip_configured_shape SamplingSpaceType config_ rmapPlanning
              qp_solver_ p ltac:(fold L; lia) Hp) as (_ & _ & _ & _ & Hadj).
  fold L vd in Hcd, Hsd, Hkd, Hdv, Hadj.
  assert (Hpos : 0 < L * vd) by nia.
  subst qp. cbn [Locomanip.assemble obj_mat_]. unfold Locomanip.objective.
  cbn [fst]. fold lambda. rewrite Hcd, Hsd, Hkd, Hdv.
  unfold Locomanip.vel_dim_. fold vd.
  set (base := diagonal_setConstant _ _ _ _).
  assert (Hoff : forall r k, r <> k -> base r k = 0%Q).
  { intros r k Hrk. subst base.
    unfold diagonal_setConstant, diagonal_add, block_diagonal_setConstant,
      zero_mat, in_range.
    repeat case_if; reflexivity. }
  assert (Hdiag : forall r, 0 <= r < 2 * L * vd ->
            base r r
            = (if (2 * L - 1) * vd <=? r then 1 + lambda else 0 + lambda)%Q).
  { intros r Hr. subst base.
    unfold diagonal_setConstant, diagonal_add, block_diagonal_setConstant,
      zero_mat, in_range.
    repeat case_if; reflexivity. }
  assert (Hslack : forall j, 0 <= j < 3 * L - 1 ->
            base (2 * L * vd + j) (2 * L * vd + j)
            = Locomanip.svm_ineq_weight config_).
  { intros j Hj. subst base.
    unfold diagonal_setConstant, block_diagonal_setConstant, in_range.
    repeat case_if; reflexivity. }
  clearbody base.
  split; [|split; [|split; [|split]]].
  - intros r k. unfold topLeftCorner_add.
    rewrite (andb_comm (in_range 0 (2 * L * vd) k)).
    rewrite Hadj.
    pose proof (locomanip_adjacency_symmetric SamplingSpaceType config_ r k)
      as Hsym.
    fold L vd in Hsym. rewrite Hsym.
    destruct (Z.eq_dec r k) as [-> | Hrk]; [reflexivity|].
    now rewrite (Hoff r k Hrk), (Hoff k r (not_eq_sym Hrk)).
  - intros r Hr. unfold topLeftCorner_add, in_range.
    rewrite (Hdiag r Hr). repeat case_if; reflexivity.
  - intros r k Hr Hk Hrk. unfold topLeftCorner_add, in_range.
    rewrite (Hoff r k Hrk). repeat case_if; reflexivity.
  - intros j Hj. unfold topLeftCorner_add, in_range.
    rewrite (Hslack j Hj). repeat case_if; reflexivity.
  - intros r k Hrk Hout. unfold topLeftCorner_add, in_range.
    rewrite (Hoff r k Hrk). repeat case_if; reflexivity.
Qed.

Lemma locomanip_hessian_blocks_witness :
  let config := Examples.locomanip_config_feet 2 in
  let p := Locomanip.setup R2 config (Flat.locomanip_new [1; 0]%Q) in
  let qp := Locomanip.assemble R2 config (fun _ => (1 # 4)%Q) p in
  1 <= Locomanip.motion_len config
  /\ obj_mat_ qp 0 2 = obj_mat_ qp 2 0
  /\ obj_mat_ qp 8 8 = 1000000%Q
  /\ obj_mat_ qp 3 8 = 0%Q.
Proof.
  intros config p qp.
  assert (HL : 1 <= Locomanip.motion_len config) by (simpl; lia).
  destruct (locomanip_hessian_blocks
              (Flat.manifold 2) R2 config (fun _ => (1 # 4)%Q)
              (Flat.constant_solver zero_vec) p HL
              (Locomanip.configured_setup R2 config (fun _ => (1 # 4)%Q)
                 (Flat.constant_solver zero_vec)
                 (Flat.locomanip_new [1; 0]%Q)))
    as (Hsym & _ & _ & Hslack & Hzero).
  split; [exact HL|]. split; [exact (Hsym 0 2)|]. split.
  - exact (Hslack 0 ltac:(simpl; lia)).
  - apply Hzero; [lia | simpl; lia].
Defined.

(** ** What the planners publish *)

Lemma nth_insert {A : Type} (l : list A) (i j : nat) (x d : A) :
  nth j (<[i := x]> l) d
  = if Nat.eqb j i && Nat.ltb i (length l) then x else nth j l d.
Proof.
  revert i j. induction l as [|a l IH]; intros i j.
  - simpl. rewrite andb_false_r. now destruct i.
  - destruct i as [|i], j as [|j]; try reflexivity.
    simpl. rewrite IH. reflexivity.
Qed.

Lemma filter_snoc {A : Type} (f : A -> bool) (l : list A) (x : A) :
  List.filter f (l ++ [x]) = List.filter f l ++ (if f x then [x] else []).
Proof. now rewrite List.filter_app. Qed.

Lemma rem_2_of_nat (i : nat) : (Z.rem (Z.of_nat i) 2 =? 0) = Nat.even i.
Proof.
  rewrite rem_2_of_step by lia.
  rewrite <- Z.negb_even, even_of_nat. now destruct (Nat.even i).
Qed.

Lemma for_loop_result_succ {S : Type} (n : Z) (body : Z -> S -> result S)
      (s : S) :
  0 <= n ->
  Display.for_loop_result (n + 1) body s
  = bind (Display.for_loop_result n body s) (body n).
Proof.
  intros Hn. unfold Display.for_loop_result.
  replace (Z.to_nat (n + 1)) with (Datatypes.S (Z.to_nat n)) by lia.
  rewrite seq_S, fold_left_app. simpl.
  now rewrite Z2Nat.id by exact Hn.
Qed.

Section LocomanipDisplay.
Context {M : Manifold}.
Variable sampleToPose : Sample -> Pose.
Variable foot_point : Pose -> list Q -> list Q.
Variable PoseMsg Point32 : Type.
Variable toPoseMsg : Pose -> PoseMsg.
Variable toPoint32Msg : list Q -> Point32.
Variable default_pose_msg : PoseMsg.
Variable foot_vertices : list (list Q).
Variable config_ : Locomanip.Configuration M.
Variable p : Locomanip.Planner.

Let L := Locomanip.motion_len config_.
Let foot_seq := Locomanip.current_foot_sample_seq_ p.
Let hand_seq := Locomanip.current_hand_sample_seq_ p.
Let polygon_of (pose : nat -> Pose) (i : nat) : list Point32 :=
  Display.foot_polygon foot_point Point32 toPoint32Msg foot_vertices (pose i).

Lemma locomanip_pose_array :
  0 <= L -> length foot_seq = Z.to_nat L -> length hand_seq = Z.to_nat L ->
  fst (Display.locomanip_publishCurrentState sampleToPose foot_point
         PoseMsg Point32 toPoseMsg toPoint32Msg default_pose_msg foot_vertices
         config_ p)
  = map (fun s => toPoseMsg (sampleToPose s)) foot_seq
    ++ map (fun s => toPoseMsg (sampleToPose s)) hand_seq.
Proof.
  intros HL Hfoot Hhand. unfold Display.locomanip_publishCurrentState.
  cbn [fst]. fold L foot_seq hand_seq.
  set (f := fun i : nat => toPoseMsg (sampleToPose (nth i foot_seq []))).
  set (h := fun i : nat => toPoseMsg (sampleToPose (nth i hand_seq []))).
  match goal with |- ?lhs = _ => set (out := lhs) end.
  assert (H :
    length out = Z.to_nat (2 * L)
    /\ forall j, (j < Z.to_nat L)%nat ->
         nth j out default_pose_msg = f j
         /\ nth (Z.to_nat L + j) out default_pose_msg = h j).
  { subst out.
    apply (for_loop_invariant
      (fun n t =>
         length t = Z.to_nat (2 * L)
         /\ forall j, (j < Z.to_nat n)%nat ->
              nth j t default_pose_msg = f j
              /\ nth (Z.to_nat L + j) t default_pose_msg = h j));
      [| |exact HL].
    - split; [apply repeat_length | intros j Hj; simpl in Hj; lia].
    - intros i t Hi [Hlen Hnth].
      split; [now rewrite !length_insert|].
      intros j Hj. rewrite !nth_insert, !length_insert, Hlen.
      destruct (Nat.eq_dec j (Z.to_nat i)) as [-> | Hne].
      + replace (Z.to_nat i =? Z.to_nat (L + i))%nat with false
          by (symmetry; apply Nat.eqb_neq; lia).
        replace (Z.to_nat L + Z.to_nat i =? Z.to_nat (L + i))%nat with true
          by (symmetry; apply Nat.eqb_eq; lia).
        replace (Z.to_nat (L + i) <? Z.to_nat (2 * L))%nat with true
          by (symmetry; apply Nat.ltb_lt; lia).
        rewrite Nat.eqb_refl.
        replace (Z.to_nat i <? Z.to_nat (2 * L))%nat with true
          by (symmetry; apply Nat.ltb_lt; lia).
        split; reflexivity.
      + replace (j =? Z.to_nat (L + i))%nat with false
          by (symmetry; apply Nat.eqb_neq; lia).
        replace (Z.to_nat L + j =? Z.to_nat (L + i))%nat with false
          by (symmetry; apply Nat.eqb_neq; lia).
        replace (j =? Z.to_nat i)%nat with false
          by (symmetry; apply Nat.eqb_neq; lia).
        replace (Z.to_nat L + j =? Z.to_nat i)%nat with false
          by (symmetry; apply Nat.eqb_neq; lia).
        cbn [andb]. apply Hnth. lia. }
  destruct H as [Hlen Hnth].
  apply (nth_ext _ _ default_pose_msg default_pose_msg).
  - rewrite length_app, !length_map. fold foot_seq hand_seq in Hlen |- *.
    etransitivity; [exact Hlen|]. lia.
  - intros j Hj. rewrite Hlen in Hj.
    destruct (Nat.lt_ge_cases j (Z.to_nat L)) as [Hlt | Hge].
    + rewrite (proj1 (Hnth j Hlt)).
      rewrite app_nth1 by (rewrite length_map; lia).
      rewrite (nth_indep _ default_pose_msg (toPoseMsg (sampleToPose [])))
        by (rewrite length_map; lia).
      now rewrite (map_nth (fun s => toPoseMsg (sampleToPose s))).
    + replace j with (Z.to_nat L + (j - Z.to_nat L))%nat at 1 by lia.
      rewrite (proj2 (Hnth (j - Z.to_nat L)%nat ltac:(lia))).
      rewrite app_nth2 by (rewrite length_map; lia).
      rewrite length_map, Hfoot.
      rewrite (nth_indep _ default_pose_msg (toPoseMsg (sampleToPose [])))
        by (rewrite length_map; lia).
      now rewrite (map_nth (fun s => toPoseMsg (sampleToPose s))).
Qed.

(** The polygon arrays after the first [k] turns that have not thrown. *)
Let arrays_upto (pose : nat -> Pose) (k : nat)
  : Display.PolygonArrays (list Point32) :=
  {| Display.poly_arr :=
       map (polygon_of pose) (seq 0 k)
       ++ repeat [] (Z.to_nat (L + 2) - k);
     Display.left_poly_arr :=
       map (polygon_of pose) (List.filter Nat.even (seq 0 k));
     Display.right_poly_arr :=
       map (polygon_of pose) (List.filter Nat.odd (seq 0 k)) |}.

Let polygon_step (i : Z) (arrays : Display.PolygonArrays (list Point32))
  : result (Display.PolygonArrays (list Point32)) :=
  foot_pose <- Display.locomanip_foot_pose sampleToPose config_ p i ;;
  let polygon :=
    Display.foot_polygon foot_point Point32 toPoint32Msg foot_vertices
      foot_pose in
  let polygons := <[Z.to_nat i := polygon]> (Display.poly_arr arrays) in
  Ok (if Z.rem i 2 =? 0
      then {| Display.poly_arr := polygons;
              Display.left_poly_arr :=
                Display.left_poly_arr arrays ++ [polygon];
              Display.right_poly_arr := Display.right_poly_arr arrays |}
      else {| Display.poly_arr := polygons;
              Display.left_poly_arr := Display.left_poly_arr arrays;
              Display.right_poly_arr :=
                Display.right_poly_arr arrays ++ [polygon] |}).

Lemma locomanip_polygon_step (pose : nat -> Pose) (k : nat) :
  (k < Z.to_nat (L + 2))%nat ->
  Display.locomanip_foot_pose sampleToPose config_ p (Z.of_nat k)
  = Ok (pose k) ->
  polygon_step (Z.of_nat k) (arrays_upto pose k)
  = Ok (arrays_upto pose (S k)).
Proof.
  intros Hk Hpose. unfold polygon_step. rewrite Hpose. cbn [bind].
  rewrite rem_2_of_nat, Nat2Z.id. unfold arrays_upto.
  cbn [Display.poly_arr Display.left_poly_arr Display.right_poly_arr].
  assert (Hins :
    <[k := Display.foot_polygon foot_point Point32 toPoint32Msg
             foot_vertices (pose k)]>
      (map (polygon_of pose) (seq 0 k)
       ++ repeat [] (Z.to_nat (L + 2) - k))
    = map (polygon_of pose) (seq 0 (S k))
      ++ repeat [] (Z.to_nat (L + 2) - S k)).
  { replace (Z.to_nat (L + 2) - k)%nat
      with (S (Z.to_nat (L + 2) - S k)) by lia.
    cbn [repeat].
    assert (Hl : length (map (polygon_of pose) (seq 0 k)) = k)
      by now rewrite length_map, length_seq.
    rewrite <- Hl at 1. rewrite insert_at_length.
    rewrite seq_S, map_app, <- app_assoc. reflexivity. }
  rewrite Hins, seq_S, !filter_snoc. cbn [Nat.add].
  rewrite <- Nat.negb_even.
  destruct (Nat.even k); cbn [negb]; rewrite ?map_app, ?app_nil_r;
    reflexivity.
Qed.

Lemma locomanip_polygons_prefix (pose : nat -> Pose) (k : nat) :
  (k <= Z.to_nat (L + 2))%nat ->
  (forall i, (i < k)%nat ->
     Display.locomanip_foot_pose sampleToPose config_ p (Z.of_nat i)
     = Ok (pose i)) ->
  Display.for_loop_result (Z.of_nat k) polygon_step (arrays_upto pose 0)
  = Ok (arrays_upto pose k).
Proof.
  induction k as [|k IH]; intros Hk Hpose; [reflexivity|].
  rewrite Nat2Z.inj_succ, <- Z.add_1_r.
  rewrite for_loop_result_succ by lia.
  rewrite IH by (try lia; intros i Hi; apply Hpose; lia).
  cbn [bind]. apply locomanip_polygon_step; [lia|]. apply Hpose. lia.
Qed.

Lemma locomanip_polygons_throw (pose : nat -> Pose) (k : nat) (what : string) :
  (k < Z.to_nat (L + 2))%nat ->
  (forall i, (i < k)%nat ->
     Display.locomanip_foot_pose sampleToPose config_ p (Z.of_nat i)
     = Ok (pose i)) ->
  Display.locomanip_foot_pose sampleToPose config_ p (Z.of_nat k)
  = Throw what ->
  forall m, (k < m)%nat ->
    Display.for_loop_result (Z.of_nat m) polygon_step (arrays_upto pose 0)
    = Throw what.
Proof.
  intros Hk Hpose Hthrow m Hm.
  induction m as [|m IH]; [lia|].
  rewrite Nat2Z.inj_succ, <- Z.add_1_r.
  rewrite for_loop_result_succ by lia.
  destruct (Nat.eq_dec k m) as [<- | Hne].
  - rewrite (locomanip_polygons_prefix pose k) by (try lia; exact Hpose).
    cbn [bind]. unfold polygon_step. rewrite Hthrow. reflexivity.
  - rewrite IH by lia. reflexivity.
Qed.

Lemma locomanip_polygons_run (pose : nat -> Pose) :
  0 <= L ->
  snd (Display.locomanip_publishCurrentState sampleToPose foot_point
         PoseMsg Point32 toPoseMsg toPoint32Msg default_pose_msg foot_vertices
         config_ p)
  = Display.for_loop_result (Z.of_nat (Z.to_nat (L + 2))) polygon_step
      (arrays_upto pose 0).
Proof.
  intros HL. unfold Display.locomanip_publishCurrentState. cbn [snd].
  fold L. rewrite Z2Nat.id by lia. unfold arrays_upto.
  cbn [seq map List.filter app]. rewrite Nat.sub_0_r. reflexivity.
Qed.

Lemma locomanip_foot_pose_of_waypoint (i : nat) :
  Z.of_nat i < L ->
  Display.locomanip_foot_pose sampleToPose config_ p (Z.of_nat i)
  = Ok (sampleToPose (nth i foot_seq [])).
Proof.
  intros Hi. unfold Display.locomanip_foot_pose. fold L.
  replace (Z.of_nat i <? L) with true by (symmetry; apply Z.ltb_lt; lia).
  now rewrite Nat2Z.id.
Qed.

Lemma locomanip_foot_pose_of_configuration (i : nat) :
  L <= Z.of_nat i ->
  Display.locomanip_foot_pose sampleToPose config_ p (Z.of_nat i)
  = match Locomanip.initial_sample_pose_list config_
            (if Nat.even i then Locomanip.LeftFoot
             else Locomanip.RightFoot) with
    | Some pose => Ok pose
    | None => Throw "unordered_map::at"
    end.
Proof.
  intros Hi. unfold Display.locomanip_foot_pose. fold L.
  replace (Z.of_nat i <? L) with false by (symmetry; apply Z.ltb_ge; lia).
  now rewrite rem_2_of_nat.
Qed.

Lemma locomanip_polygons_published (left_pose right_pose : Pose) :
  0 <= L ->
  Locomanip.initial_sample_pose_list config_ Locomanip.LeftFoot
  = Some left_pose ->
  Locomanip.initial_sample_pose_list config_ Locomanip.RightFoot
  = Some right_pose ->
  let pose := fun i : nat =>
    if Z.of_nat i <? L then sampleToPose (nth i foot_seq [])
    else if Nat.even i then left_pose else right_pose in
  snd (Display.locomanip_publishCurrentState sampleToPose foot_point
         PoseMsg Point32 toPoseMsg toPoint32Msg default_pose_msg foot_vertices
         config_ p)
  = Ok (arrays_upto pose (Z.to_nat (L + 2))).
Proof.
  intros HL Hleft Hright pose.
  rewrite (locomanip_polygons_run pose HL).
  apply locomanip_polygons_prefix; [lia|].
  intros i _. subst pose. cbv beta.
  destruct (Z.ltb_spec (Z.of_nat i) L) as [Hlt | Hge].
  - now apply locomanip_foot_pose_of_waypoint.
  - rewrite locomanip_foot_pose_of_configuration by exact Hge.
    destruct (Nat.even i); [now rewrite Hleft | now rewrite Hright].
Qed.

Lemma locomanip_polygons_not_published :
  0 <= L ->
  Locomanip.initial_sample_pose_list config_ Locomanip.LeftFoot = None
  \/ Locomanip.initial_sample_pose_list config_ Locomanip.RightFoot = None ->
  exists what,
    snd (Display.locomanip_publishCurrentState sampleToPose foot_point
           PoseMsg Point32 toPoseMsg toPoint32Msg default_pose_msg
           foot_vertices config_ p)
    = Throw what.
Proof.
  intros HL Hnone. exists "unordered_map::at"%string.
  set (k := Z.to_nat L).
  set (first_limb := if Nat.even k then Locomanip.LeftFoot
                     else Locomanip.RightFoot).
  destruct (Locomanip.initial_sample_pose_list config_ first_limb)
    as [first_pose|] eqn:Efirst.
  - set (pose := fun i : nat =>
                   if Z.of_nat i <? L then sampleToPose (nth i foot_seq [])
                   else first_pose).
    rewrite (locomanip_polygons_run pose HL).
    apply (locomanip_polygons_throw pose (S k)); [lia| | |lia].
    + intros i Hi. subst pose. cbv beta.
      destruct (Z.ltb_spec (Z.of_nat i) L) as [Hlt | Hge].
      * now apply locomanip_foot_pose_of_waypoint.
      * assert (i = k) by lia. subst i.
        rewrite locomanip_foot_pose_of_configuration by exact Hge.
        fold first_limb. now rewrite Efirst.
    + rewrite locomanip_foot_pose_of_configuration by lia.
      rewrite Nat.even_succ, <- Nat.negb_even.
      subst first_limb.
      destruct (Nat.even k); cbn [negb];
        destruct Hnone as [Hnone | Hnone]; rewrite Hnone in *;
        try discriminate; reflexivity.
  - set (pose := fun i : nat => sampleToPose (nth i foot_seq [])).
    rewrite (locomanip_polygons_run pose HL).
    apply (locomanip_polygons_throw pose k); [lia| | |lia].
    + intros i Hi. apply locomanip_foot_pose_of_waypoint. lia.
    + rewrite locomanip_foot_pose_of_configuration by lia.
      fold first_limb. now rewrite Efirst.
Qed.
End LocomanipDisplay.

(** X14.  [RmapPlanningLocomanip::publishCurrentState] publishes the poses
    of the foot waypoints followed by the poses of the hand waypoints.  It
    then builds one polygon per foot waypoint and two more from the poses
    that the configuration gives the left and the right foot, which it
    looks up with [at]: when the configuration has no pose for one of the
    two feet, which [setup] accepts, the call throws after the pose array
    and publishes no polygon.  Otherwise the polygons at the even
    positions go, in their order, to the array of the left foot and the
    polygons at the odd positions to the array of the right foot. *)
Theorem locomanip_publishCurrentState_arrays
    (M : Manifold) (sampleToPose : Sample -> Pose)
    (foot_point : Pose -> list Q -> list Q) (PoseMsg Point32 : Type)
    (toPoseMsg : Pose -> PoseMsg) (toPoint32Msg : list Q -> Point32)
    (default_pose_msg : PoseMsg) (foot_vertices : list (list Q))
    (config_ : Locomanip.Configuration M) (p : Locomanip.Planner) :
  let L := Locomanip.motion_len config_ in
  let foot_seq := Locomanip.current_foot_sample_seq_ p in
  let hand_seq := Locomanip.current_hand_sample_seq_ p in
  let published :=
    Display.locomanip_publishCurrentState sampleToPose foot_point
      PoseMsg Point32 toPoseMsg toPoint32Msg default_pose_msg foot_vertices
      config_ p in
  let initial := Locomanip.initial_sample_pose_list config_ in
  0 <= L -> length foot_seq = Z.to_nat L -> length hand_seq = Z.to_nat L ->
  fst published
  = map (fun s => toPoseMsg (sampleToPose s)) foot_seq
    ++ map (fun s => toPoseMsg (sampleToPose s)) hand_seq
  /\ (initial Locomanip.LeftFoot = None
      \/ initial Locomanip.RightFoot = None ->
      exists what, snd published = Throw what)
  /\ (forall left_pose right_pose,
        initial Locomanip.LeftFoot = Some left_pose ->
        initial Locomanip.RightFoot = Some right_pose ->
        let polygon := fun i : nat =>
          Display.foot_polygon foot_point Point32 toPoint32Msg foot_vertices
            (if Z.of_nat i <? L then sampleToPose (nth i foot_seq [])
             else if Nat.even i then left_pose else right_pose) in
        let steps := seq 0 (Z.to_nat (L + 2)) in
        snd published
        = Ok {| Display.poly_arr := map polygon steps;
                Display.left_poly_arr :=
                  map polygon (List.filter Nat.even steps);
                Display.right_poly_arr :=
                  map polygon (List.filter Nat.odd steps) |}).
Proof.
  intros L foot_seq hand_seq published initial HL Hfoot Hhand.
  split; [|split].
  - apply locomanip_pose_array; assumption.
  - apply locomanip_polygons_not_published. exact HL.
  - intros left_pose right_pose Hleft Hright polygon steps.
    subst published.
    rewrite (locomanip_polygons_published sampleToPose foot_point
               PoseMsg Point32 toPoseMsg toPoint32Msg default_pose_msg
               foot_vertices config_ p left_pose right_pose HL Hleft Hright).
    fold L. rewrite Nat.sub_diag. cbn [repeat]. rewrite app_nil_r.
    reflexivity.
Qed.

Lemma locomanip_publishCurrentState_arrays_witness :
  let config := Flat.locomanip_config 2 2 1 in
  let p := Locomanip.setup R2 config (Flat.locomanip_new [1; 0]%Q) in
  let published :=
    Display.locomanip_publishCurrentState
      (M := Flat.manifold 2) (fun s => s) Flat.vec_add
      (list Q) (list Q) (fun pose => pose) (fun point => point) []
      [[1; 0]; [0; 1]]%Q config p in
  0 <= Locomanip.motion_len config
  /\ length (fst published) = 4%nat
  /\ exists what, snd published = Throw what.
Proof.
  intros config p published.
  assert (HL : 0 <= Locomanip.motion_len config) by (simpl; lia).
  destruct (locomanip_publishCurrentState_arrays
              (Flat.manifold 2) (fun s => s) Flat.vec_add
              (list Q) (list Q) (fun pose => pose) (fun point => point) []
              [[1; 0]; [0; 1]]%Q config p HL eq_refl eq_refl)
    as (Hposes & Hthrow & _).
  split; [exact HL|]. split.
  - exact (f_equal (@length _) Hposes).
  - apply Hthrow. left. reflexivity.
Defined.

(** X15.  [RmapPlanningLocomanip::transCallback], over the messages that
    arrive between two iterations: the target of the hand becomes the
    sample of the transform of the last message whose child frame is
    ["target"]; the messages of other frames change nothing, and nothing
    but the target is changed. *)
Theorem transCallbacks_keep_last_target
    (M : Manifold) (Transform : Type) (toSvaPTransform : Transform -> Pose)
    (msgs : list (Display.TransformStamped Transform))
    (p : Locomanip.Planner) :
  Display.transCallbacks Transform toSvaPTransform msgs p
  = match Display.last_target Transform msgs with
    | Some msg =>
        Locomanip.set_target
          (poseToSample (toSvaPTransform (Display.transform msg))) p
    | None => p
    end.
Proof.
  unfold Display.transCallbacks, Display.last_target.
  induction msgs as [|msg msgs IH] using rev_ind; [reflexivity|].
  rewrite fold_left_app, rev_app_distr. cbn [fold_left rev app List.find].
  rewrite IH. unfold Display.transCallback.
  destruct (String.eqb (Display.child_frame_id msg) "target");
    [|reflexivity].
  destruct (List.find _ (rev msgs)); reflexivity.
Qed.

Section FootstepDisplay.
Context {M : Manifold}.
Variable sampleToPose : Sample -> Pose.
Variable foot_point : Pose -> list Q -> list Q.
Variable PoseMsg Point32 : Type.
Variable toPoseMsg : Pose -> PoseMsg.
Variable toPoint32Msg : list Q -> Point32.
Variable default_pose_msg : PoseMsg.
Variable foot_vertices : list (list Q).
Variable SamplingSpaceType : SamplingSpace.
Variable config_ : Footstep.Configuration M.
Variable p : Footstep.Planner.

Let N := Footstep.footstep_num config_.
Let sample_seq := Footstep.current_sample_seq_ p.
Let poses : list Pose := pose_identity :: map sampleToPose sample_seq.

Lemma footstep_pose_of_step (i : nat) :
  length sample_seq = Z.to_nat N -> (i < S (Z.to_nat N))%nat ->
  Display.footstep_pose sampleToPose p (Z.of_nat i)
  = nth i poses pose_identity.
Proof.
  intros Hlen Hi. unfold Display.footstep_pose, poses.
  destruct i as [|i]; [reflexivity|].
  replace (Z.of_nat (S i) =? 0) with false by (symmetry; apply Z.eqb_neq; lia).
  replace (Z.to_nat (Z.of_nat (S i) - 1)) with i by lia.
  fold sample_seq. cbn [nth].
  rewrite (nth_indep _ pose_identity (sampleToPose []))
    by (rewrite length_map; lia).
  now rewrite map_nth.
Qed.

Lemma map_nth_seq {A B : Type} (f : A -> B) (l : list A) (d : A) :
  map (fun i => f (nth i l d)) (seq 0 (length l)) = map f l.
Proof.
  induction l as [|x l IH]; [reflexivity|].
  cbn [length seq map nth]. f_equal.
  rewrite <- seq_shift, map_map. exact IH.
Qed.

Lemma footstep_pose_array :
  0 <= N -> length sample_seq = Z.to_nat N ->
  fst (fst (Display.footstep_publishCurrentState sampleToPose foot_point
              PoseMsg Point32 toPoseMsg toPoint32Msg default_pose_msg
              foot_vertices SamplingSpaceType config_ p))
  = map toPoseMsg poses.
Proof.
  intros HN Hlen. unfold Display.footstep_publishCurrentState.
  destruct (for_loop _ _ (repeat [] _, [], [])) as [[polygons l] r].
  cbn [fst]. fold N.
  rewrite (for_loop_write_each
             (fun i => toPoseMsg (Display.footstep_pose sampleToPose p i)))
    by (rewrite ?repeat_length; lia).
  rewrite skipn_all2 by (rewrite repeat_length; lia).
  rewrite app_nil_r.
  replace (Z.to_nat (N + 1)) with (length poses)
    by (unfold poses; cbn [length]; rewrite length_map; lia).
  rewrite <- (map_nth_seq toPoseMsg poses pose_identity).
  apply map_ext_in. intros i Hi. apply in_seq in Hi. f_equal.
  apply footstep_pose_of_step; [exact Hlen|].
  unfold poses in Hi. cbn [length] in Hi. rewrite length_map in Hi. lia.
Qed.

Lemma footstep_polygon_arrays :
  0 <= N -> length sample_seq = Z.to_nat N ->
  let polygon := fun i : nat =>
    Display.foot_polygon foot_point Point32 toPoint32Msg foot_vertices
      (nth i poses pose_identity) in
  let steps := seq 0 (Z.to_nat (N + 1)) in
  let published :=
    Display.footstep_publishCurrentState sampleToPose foot_point
      PoseMsg Point32 toPoseMsg toPoint32Msg default_pose_msg
      foot_vertices SamplingSpaceType config_ p in
  snd (fst published) = map polygon steps
  /\ snd published
     = if Footstep.is_SE2 SamplingSpaceType && Footstep.alternate_lr config_
       then Some (map polygon (List.filter Nat.odd steps),
                  map polygon (List.filter Nat.even steps))
       else None.
Proof.
  intros HN Hlen polygon steps published. subst published.
  unfold Display.footstep_publishCurrentState. cbv zeta. fold N.
  set (split := Footstep.is_SE2 SamplingSpaceType
                && Footstep.alternate_lr config_).
  match goal with
  | |- context [for_loop (N + 1) ?body (repeat [] ?len, [], [])] =>
      assert (H : forall n, 0 <= n <= N + 1 ->
        for_loop n body (repeat [] len, [], [])
        = (map polygon (seq 0 (Z.to_nat n))
           ++ repeat [] (Z.to_nat (N + 1) - Z.to_nat n),
           if split
           then map polygon (List.filter Nat.odd (seq 0 (Z.to_nat n)))
           else [],
           if split
           then map polygon (List.filter Nat.even (seq 0 (Z.to_nat n)))
           else []))
  end.
  { intros n Hn.
    apply (for_loop_invariant
      (fun n t =>
         n <= N + 1 ->
         t = (map polygon (seq 0 (Z.to_nat n))
              ++ repeat [] (Z.to_nat (N + 1) - Z.to_nat n),
              if split
              then map polygon (List.filter Nat.odd (seq 0 (Z.to_nat n)))
              else [],
              if split
              then map polygon (List.filter Nat.even (seq 0 (Z.to_nat n)))
              else []))); [| |lia|lia].
    - intros _. cbn [Z.to_nat seq map List.filter app].
      rewrite Nat.sub_0_r. now destruct split.
    - intros i t Hi IH Hle. rewrite IH by lia. clear IH.
      replace (Z.to_nat (i + 1)) with (S (Z.to_nat i)) by lia.
      assert (Hpoly :
        Display.foot_polygon foot_point Point32 toPoint32Msg foot_vertices
          (Display.footstep_pose sampleToPose p i)
        = polygon (Z.to_nat i)).
      { subst polygon. cbv beta. f_equal.
        rewrite <- (Z2Nat.id i) at 1 by lia.
        apply footstep_pose_of_step; [exact Hlen | lia]. }
      cbv beta iota. rewrite Hpoly.
      assert (Hins :
        <[Z.to_nat i := polygon (Z.to_nat i)]>
          (map polygon (seq 0 (Z.to_nat i))
           ++ repeat [] (Z.to_nat (N + 1) - Z.to_nat i))
        = map polygon (seq 0 (S (Z.to_nat i)))
          ++ repeat [] (Z.to_nat (N + 1) - S (Z.to_nat i))).
      { replace (Z.to_nat (N + 1) - Z.to_nat i)%nat
          with (S (Z.to_nat (N + 1) - S (Z.to_nat i))) by lia.
        cbn [repeat].
        assert (Hl : length (map polygon (seq 0 (Z.to_nat i))) = Z.to_nat i)
          by now rewrite length_map, length_seq.
        rewrite <- Hl at 1. rewrite insert_at_length.
        rewrite seq_S, map_app, <- app_assoc. reflexivity. }
      rewrite Hins, seq_S, !filter_snoc. cbn [Nat.add].
      assert (Hodd : (Z.rem i 2 =? 1) = Nat.odd (Z.to_nat i)).
      { rewrite rem_2_of_step by lia.
        rewrite <- Nat.negb_even, <- even_of_nat, Z2Nat.id by lia.
        rewrite <- Z.negb_odd. now destruct (Z.odd i). }
      rewrite Hodd, <- Nat.negb_even.
      destruct split; [|reflexivity].
      destruct (Nat.even (Z.to_nat i)); cbn [negb];
        rewrite ?map_app, ?app_nil_r; reflexivity. }
  rewrite (H (N + 1)) by lia. cbn [fst snd].
  rewrite Nat.sub_diag. cbn [repeat]. rewrite app_nil_r.
  split; [reflexivity|]. now destruct split.
Qed.
End FootstepDisplay.

(** X16.  [RmapPlanningFootstep::publishCurrentState] publishes one pose
    and one polygon for the origin and for every waypoint, in this order.
    The arrays of the left and of the right foot are published only by the
    planner for SE2 with the alternating-stance flag set: the polygons at
    the odd positions go to the array of the left foot, those at the even
    positions, the origin among them, to the array of the right foot. *)
Theorem footstep_publishCurrentState_arrays
    (M : Manifold) (sampleToPose : Sample -> Pose)
    (foot_point : Pose -> list Q -> list Q) (PoseMsg Point32 : Type)
    (toPoseMsg : Pose -> PoseMsg) (toPoint32Msg : list Q -> Point32)
    (default_pose_msg : PoseMsg) (foot_vertices : list (list Q))
    (SamplingSpaceType : SamplingSpace)
    (config_ : Footstep.Configuration M) (p : Footstep.Planner) :
  let N := Footstep.footstep_num config_ in
  let poses :=
    pose_identity :: map sampleToPose (Footstep.current_sample_seq_ p) in
  let polygons :=
    map (Display.foot_polygon foot_point Point32 toPoint32Msg foot_vertices)
        poses in
  let steps := seq 0 (Z.to_nat (N + 1)) in
  let published :=
    Display.footstep_publishCurrentState sampleToPose foot_point
      PoseMsg Point32 toPoseMsg toPoint32Msg default_pose_msg
      foot_vertices SamplingSpaceType config_ p in
  0 <= N -> length (Footstep.current_sample_seq_ p) = Z.to_nat N ->
  fst (fst published) = map toPoseMsg poses
  /\ snd (fst published) = polygons
  /\ snd published
     = if Footstep.is_SE2 SamplingSpaceType && Footstep.alternate_lr config_
       then Some (map (fun i => nth i polygons []) (List.filter Nat.odd steps),
                  map (fun i => nth i polygons [])
                      (List.filter Nat.even steps))
       else None.
Proof.
  intros N poses polygons steps published HN Hlen.
  destruct (footstep_polygon_arrays sampleToPose foot_point PoseMsg Point32
              toPoseMsg toPoint32Msg default_pose_msg foot_vertices
              SamplingSpaceType config_ p HN Hlen) as [Hpoly Hsides].
  fold N poses published in Hpoly, Hsides. fold steps in Hpoly, Hsides.
  assert (Hsteps : Z.to_nat (N + 1) = length poses).
  { unfold poses. cbn [length]. rewrite length_map. lia. }
  assert (Hnth : forall i, In i steps ->
            Display.foot_polygon foot_point Point32 toPoint32Msg
              foot_vertices (nth i poses pose_identity)
            = nth i polygons []).
  { intros i Hi. apply in_seq in Hi. unfold polygons.
    rewrite (nth_indep _ []
               (Display.foot_polygon foot_point Point32 toPoint32Msg
                  foot_vertices pose_identity))
      by (rewrite length_map; lia).
    now rewrite map_nth. }
  split; [|split].
  - apply footstep_pose_array; assumption.
  - rewrite Hpoly. unfold steps. rewrite Hsteps. apply map_nth_seq.
  - rewrite Hsides.
    destruct (Footstep.is_SE2 SamplingSpaceType
              && Footstep.alternate_lr config_); [|reflexivity].
    f_equal. f_equal; apply map_ext_in; intros i Hi;
      apply List.filter_In in Hi; apply Hnth; tauto.
Qed.

Lemma footstep_publishCurrentState_arrays_witness :
  let config := Flat.footstep_config 3 2 1 true in
  let p := Footstep.setup SE2 config (Flat.footstep_new [1; 0; 0]%Q) in
  let published :=
    Display.footstep_publishCurrentState
      (M := Flat.manifold 3) (fun s => s) Flat.vec_add
      (list Q) (list Q) (fun pose => pose) (fun point => point) []
      [[1; 0; 0]]%Q SE2 config p in
  0 <= Footstep.footstep_num config
  /\ length (fst (fst published)) = 3%nat
  /\ option_map (fun sides => (length (fst sides), length (snd sides)))
                (snd published)
     = Some (1%nat, 2%nat).
Proof.
  intros config p published.
  assert (HN : 0 <= Footstep.footstep_num config) by (simpl; lia).
  destruct (footstep_publishCurrentState_arrays
              (Flat.manifold 3) (fun s => s) Flat.vec_add
              (list Q) (list Q) (fun pose => pose) (fun point => point) []
              [[1; 0; 0]]%Q SE2 config p HN eq_refl)
    as (Hposes & _ & Hsides).
  split; [exact HN|]. split.
  - exact (f_equal (@length _) Hposes).
  - exact (f_equal
             (option_map (fun sides => (length (fst sides),
                                        length (snd sides))))
             Hsides).
Defined.

(** ** The linear term of the locomanipulation QP *)

(** Row [bi * vd + a] of a matrix after the loop over a chain of [len]
    waypoints whose first block is block [sb]: a row of the chain holds the
    diagonal entry and the entries of its neighbours in the chain, and what
    was there before elsewhere; the other rows are as they were. *)
Lemma adjacent_chain_row (SamplingSpaceType : SamplingSpace)
      (sb len : Z) (w : Q) (m : MatrixXd) (bi a k : Z) :
  let vd := velDim SamplingSpaceType in
  0 <= len -> 0 <= a < vd ->
  Footstep.adjacent_chain SamplingSpaceType (sb * vd) len w m (bi * vd + a) k
  = if in_range sb len bi then
      if k =? bi * vd + a then
        (inject_Z (if bi - sb =? len - 1 then 1 else 2) * w)%Q
      else if (sb <? bi) && (k =? (bi - 1) * vd + a) then (- w)%Q
      else if (bi <? sb + len - 1) && (k =? (bi + 1) * vd + a) then (- w)%Q
      else m (bi * vd + a) k
    else m (bi * vd + a) k.
Proof.
  intros vd Hlen Ha.
  pose proof (velDim_pos SamplingSpaceType) as Hvd. fold vd in Hvd.
  destruct (block_decomposition vd k Hvd) as [Hk Hb].
  set (bj := k / vd) in *. set (b := k mod vd) in *.
  clearbody bj b. subst k.
  unfold vd. rewrite adjacent_chain_entry by assumption. fold vd.
  destruct (in_range sb len bi) eqn:Hin.
  - unfold in_range in Hin. apply andb_true_iff in Hin.
    rewrite Z.leb_le, Z.ltb_lt in Hin.
    destruct (Z.eqb_spec (bj * vd + b) (bi * vd + a)) as [E1 | E1].
    { apply block_position_unique in E1; [|lia|lia]. destruct E1 as [-> ->].
      unfold Blocks.chain_after, in_range.
      repeat case_if; try reflexivity; repeat f_equal; lia. }
    destruct (Z.eqb_spec (bj * vd + b) ((bi - 1) * vd + a)) as [E2 | E2].
    { apply block_position_unique in E2; [|lia|lia]. destruct E2 as [-> ->].
      unfold Blocks.chain_after, in_range.
      repeat case_if; try reflexivity; exfalso; apply E1; ring. }
    destruct (Z.eqb_spec (bj * vd + b) ((bi + 1) * vd + a)) as [E3 | E3].
    { apply block_position_unique in E3; [|lia|lia]. destruct E3 as [-> ->].
      unfold Blocks.chain_after, in_range.
      repeat case_if; try reflexivity; exfalso; apply E1; ring. }
    rewrite !andb_false_r.
    unfold Blocks.chain_after, in_range.
    repeat case_if; try reflexivity; exfalso; subst;
      first [apply E1; ring | apply E2; ring | apply E3; ring].
  - unfold in_range in Hin. apply andb_false_iff in Hin.
    rewrite Z.leb_gt, Z.ltb_ge in Hin.
    unfold Blocks.chain_after, in_range.
    repeat case_if; reflexivity.
Qed.

(** A sum over a row with at most three entries that differ from zero. *)
Lemma sumQ_three_points (n p0 p1 p2 : Z) (lower upper : bool) (d l u : Q)
      (row c : Z -> Q) :
  0 <= n -> p0 <> p1 -> p1 <> p2 -> p0 <> p2 ->
  0 <= p1 < n ->
  (lower = true -> 0 <= p0 < n) -> (upper = true -> 0 <= p2 < n) ->
  (forall k, 0 <= k < n ->
     row k = if k =? p1 then d
             else if lower && (k =? p0) then l
             else if upper && (k =? p2) then u
             else 0%Q) ->
  (sumQ n (fun k => row k * c k)
   == d * c p1 + (if lower then l * c p0 else 0)
      + (if upper then u * c p2 else 0))%Q.
Proof.
  intros Hn D01 D12 D02 H1 H0 H2 Hrow.
  rewrite (sumQ_ext _ _
    (fun k =>
       (if k =? p1 then d * c p1 else 0)
       + ((if k =? p0 then (if lower then l * c p0 else 0) else 0)
          + (if k =? p2 then (if upper then u * c p2 else 0) else 0)))%Q).
  - rewrite !sumQ_plus, !sumQ_point by exact Hn.
    assert (R1 : in_range 0 n p1 = true).
    { unfold in_range. apply andb_true_intro.
      split; [apply Z.leb_le | apply Z.ltb_lt]; lia. }
    rewrite R1.
    assert (R0 : lower = true -> in_range 0 n p0 = true).
    { intros H. specialize (H0 H). unfold in_range. apply andb_true_intro.
      split; [apply Z.leb_le | apply Z.ltb_lt]; lia. }
    assert (R2 : upper = true -> in_range 0 n p2 = true).
    { intros H. specialize (H2 H). unfold in_range. apply andb_true_intro.
      split; [apply Z.leb_le | apply Z.ltb_lt]; lia. }
    destruct lower, upper;
      try rewrite (R0 eq_refl); try rewrite (R2 eq_refl);
      repeat match goal with
             | |- context [if ?b then _ else _] => destruct b
             end; ring.
  - intros k Hk. rewrite (Hrow k Hk).
    destruct (Z.eqb_spec k p1) as [-> | E1].
    + destruct (Z.eqb_spec p1 p0); [congruence|].
      destruct (Z.eqb_spec p1 p2); [congruence|]. ring.
    + destruct (Z.eqb_spec k p0) as [-> | E0].
      * destruct (Z.eqb_spec p0 p2); [congruence|].
        destruct lower; cbn [andb]; [ring|].
        rewrite andb_false_r. ring.
      * rewrite andb_false_r.
        destruct (Z.eqb_spec k p2) as [-> | E2].
        -- destruct upper; cbn [andb]; ring.
        -- rewrite andb_false_r. ring.
Qed.

Lemma entry_scale (x : Q) (l : list Q) (a : Z) :
  (entry (scale x l) a == x * entry l a)%Q.
Proof.
  unfold entry, scale.
  destruct (Nat.lt_ge_cases (Z.to_nat a) (length l)) as [Hlt | Hge].
  - rewrite (nth_indep _ 0%Q (x * 0)%Q) by now rewrite length_map.
    rewrite (map_nth (fun y => (x * y)%Q)). reflexivity.
  - rewrite !nth_overflow by (rewrite ?length_map; lia). ring.
Qed.

Lemma in_block (vd j bi a : Z) :
  0 <= a < vd -> in_range (j * vd) vd (bi * vd + a) = (bi =? j).
Proof.
  intros Ha. unfold in_range.
  destruct (Z.eqb_spec bi j) as [-> | Hne].
  - apply andb_true_intro. split; [apply Z.leb_le | apply Z.ltb_lt]; lia.
  - apply andb_false_iff. rewrite Z.leb_gt, Z.ltb_ge.
    destruct (Z.lt_trichotomy bi j) as [Hlt | [Heq | Hgt]];
      [left | contradiction | right].
    + assert ((bi + 1) * vd <= j * vd)
        by (apply Z.mul_le_mono_nonneg_r; lia). lia.
    + assert ((j + 1) * vd <= bi * vd)
        by (apply Z.mul_le_mono_nonneg_r; lia). lia.
Qed.

Section LocomanipGradient.
Context {M : Manifold}.
Variable SamplingSpaceType : SamplingSpace.
Variable config_ : Locomanip.Configuration M.

Let L := Locomanip.motion_len config_.
Let vd := velDim SamplingSpaceType.
Let w := Locomanip.adjacent_reg_weight config_.

(** [current_config] holds the errors of the foot waypoints in the first
    [L] blocks and the errors of the hand waypoints in the next [L]. *)
Lemma locomanip_current_config_entry (p : Locomanip.Planner) (bi a : Z) :
  0 <= L -> Locomanip.hand_start_config_idx_ p = L * vd ->
  0 <= bi < 2 * L -> 0 <= a < vd ->
  Locomanip.current_config SamplingSpaceType config_ p (bi * vd + a)
  = if bi <? L
    then entry (sampleError Locomanip.identity_sample_
                  (Locomanip.sample_at
                     (Locomanip.current_foot_sample_seq_ p) bi)) a
    else entry (sampleError Locomanip.identity_sample_
                  (Locomanip.sample_at
                     (Locomanip.current_hand_sample_seq_ p) (bi - L))) a.
Proof.
  intros HL Hidx Hbi Ha. unfold Locomanip.current_config.
  fold L. rewrite Hidx. unfold Locomanip.vel_dim_. fold vd.
  set (foot := fun i =>
         sampleError Locomanip.identity_sample_
           (Locomanip.sample_at (Locomanip.current_foot_sample_seq_ p) i)).
  set (hand := fun i =>
         sampleError Locomanip.identity_sample_
           (Locomanip.sample_at (Locomanip.current_hand_sample_seq_ p) i)).
  assert (H : forall n, 0 <= n <= L ->
    for_loop n
      (fun i v =>
         segment_assign (segment_assign v (i * vd) vd (foot i))
                        (L * vd + i * vd) vd (hand i))
      zero_vec (bi * vd + a)
    = if bi <? n then entry (foot bi) a
      else if (L <=? bi) && (bi <? L + n) then entry (hand (bi - L)) a
      else 0%Q).
  { intros n Hn.
    apply (for_loop_invariant
      (fun n (v : VectorXd) =>
         n <= L ->
         v (bi * vd + a)
         = if bi <? n then entry (foot bi) a
           else if (L <=? bi) && (bi <? L + n) then entry (hand (bi - L)) a
           else 0%Q)); [| |lia|lia].
    - intros _. unfold zero_vec. repeat case_if; reflexivity.
    - intros i v Hi IH Hle. unfold segment_assign.
      replace (L * vd + i * vd) with ((L + i) * vd) by ring.
      rewrite !in_block by exact Ha. rewrite IH by lia.
      destruct (Z.eqb_spec bi (L + i)) as [-> | Hhand].
      + replace (L + i <? i + 1) with false
          by (symmetry; apply Z.ltb_ge; lia).
        replace ((L <=? L + i) && (L + i <? L + (i + 1))) with true
          by (symmetry; apply andb_true_intro;
              split; [apply Z.leb_le | apply Z.ltb_lt]; lia).
        replace ((L + i) * vd + a - (L + i) * vd) with a by ring.
        replace (L + i - L) with i by ring. reflexivity.
      + destruct (Z.eqb_spec bi i) as [-> | Hfoot].
        * replace (i <? i + 1) with true by (symmetry; apply Z.ltb_lt; lia).
          replace (i * vd + a - i * vd) with a by ring. reflexivity.
        * repeat case_if; reflexivity. }
  specialize (H L ltac:(lia)).
  etransitivity; [exact H|].
  repeat case_if; reflexivity.
Qed.
End LocomanipGradient.

(** X17.  The linear term of the locomanipulation QP, for a waypoint
    [local] of the chain of the feet (blocks [0] to [L - 1]) or of the
    chain of the hand (blocks [L] to [2 L - 1]): the discrete Laplacian of
    the errors of the waypoints of the same chain; minus, for the first
    waypoint of a chain, the weighted error of the start sample of the left
    foot or of the left hand; plus, for the last waypoint of the hand, the
    error with respect to the target.  The two chains are not coupled, and
    the slack variables have no linear term. *)
Theorem locomanip_linear_term
    (M : Manifold) (SamplingSpaceType : SamplingSpace)
    (config_ : Locomanip.Configuration M)
    (rmapPlanning : Locomanip.Limb -> SvmModel) (qp_solver_ : QpSolver)
    (p : Locomanip.Planner) (bi a : Z) :
  let L := Locomanip.motion_len config_ in
  let vd := velDim SamplingSpaceType in
  let w := Locomanip.adjacent_reg_weight config_ in
  let c := Locomanip.current_config SamplingSpaceType config_ p in
  let qp := Locomanip.assemble SamplingSpaceType config_ rmapPlanning p in
  let target_error :=
    sampleError (Locomanip.target_hand_sample_ p)
      (Locomanip.back (Locomanip.current_hand_sample_seq_ p)) in
  let chain := if bi <? L then 0 else L in
  let local := bi - chain in
  let start_error :=
    sampleError Locomanip.identity_sample_
      (Locomanip.at_limb (Locomanip.start_sample_list_ p)
         (if bi <? L then Locomanip.LeftFoot else Locomanip.LeftHand)) in
  1 <= L ->
  Locomanip.configured SamplingSpaceType config_ rmapPlanning qp_solver_ p ->
  0 <= bi < 2 * L -> 0 <= a < vd ->
  Qeq (obj_vec_ qp (bi * vd + a))
      ((if bi =? 2 * L - 1 then entry target_error a else 0)
       + Closed.laplacian vd L w (fun j => c (chain * vd + j)) local a
       - (if local =? 0 then w * entry start_error a else 0))
  /\ (forall j, 2 * L * vd <= j -> obj_vec_ qp j = 0%Q).
Proof.
  intros L vd w c qp target_error chain local start_error HL Hp Hbi Ha.
  pose proof (velDim_pos SamplingSpaceType) as Hvd. fold vd in Hvd.
  destruct (locomanip_configured_dims _ _ _ _ p Hp)
    as (Hcd & Hsd & Hkd & Hdv & _).
  destruct (locomanip_configured_shape SamplingSpaceType config_ rmapPlanning
              qp_solver_ p ltac:(fold L; lia) Hp)
    as (_ & _ & Hidx & _ & Hadj).
  fold L vd in Hcd, Hsd, Hkd, Hdv, Hidx, Hadj. fold w in Hadj.
  assert (Hpos : 0 < L * vd) by nia.
  destruct (block_bound vd (2 * L) bi a Hbi Ha) as (Blo & Bhi & Bnext).
  set (r := bi * vd + a) in *.
  (* the row of the adjacency matrix *)
  assert (Hrow : forall k,
    Locomanip.adjacent_reg_mat_ p r k
    = if k =? r then (inject_Z (if local =? L - 1 then 1 else 2) * w)%Q
      else if (0 <? local) && (k =? (bi - 1) * vd + a) then (- w)%Q
      else if (local <? L - 1) && (k =? (bi + 1) * vd + a) then (- w)%Q
      else 0%Q).
  { intros k. rewrite Hadj. subst r. unfold vd.
    rewrite adjacent_chain_row by (fold L; fold vd; lia).
    change (Footstep.adjacent_chain SamplingSpaceType 0)
      with (Footstep.adjacent_chain SamplingSpaceType
              (0 * velDim SamplingSpaceType)).
    rewrite adjacent_chain_row by (fold L; fold vd; lia).
    fold vd. subst local chain. unfold in_range, zero_mat.
    destruct (Z.ltb_spec bi L) as [Hfoot | Hhand].
    - replace ((L <=? bi) && (bi <? L + L)) with false
        by (symmetry; apply andb_false_iff; rewrite Z.leb_gt; lia).
      replace ((0 <=? bi) && (bi <? 0 + L)) with true
        by (symmetry; apply andb_true_intro;
            split; [apply Z.leb_le | apply Z.ltb_lt]; lia).
      replace (bi - 0) with bi by ring.
      replace (0 + L - 1) with (L - 1) by ring. reflexivity.
    - replace ((L <=? bi) && (bi <? L + L)) with true
        by (symmetry; apply andb_true_intro;
            split; [apply Z.leb_le | apply Z.ltb_lt]; lia).
      replace ((0 <=? bi) && (bi <? 0 + L)) with false
        by (symmetry; apply andb_false_iff; rewrite Z.ltb_ge; lia).
      replace (L <? bi) with (0 <? bi - L)
        by (apply eq_true_iff_eq; rewrite !Z.ltb_lt; lia).
      replace (bi <? L + L - 1) with (bi - L <? L - 1)
        by (apply eq_true_iff_eq; rewrite !Z.ltb_lt; lia).
      reflexivity. }
  (* the product with [current_config] *)
  assert (Hgrad :
    Qeq (mat_vec (2 * L * vd) (Locomanip.adjacent_reg_mat_ p) c r)
        (Closed.laplacian vd L w (fun j => c (chain * vd + j)) local a)).
  { unfold mat_vec.
    assert (Hchain : 0 <= local < L) by (subst local chain; case_if; lia).
    assert (Hplace : bi = chain + local) by (subst local; ring).
    assert (Hfirst : chain = 0 \/ chain = L)
      by (subst chain; destruct (bi <? L); auto).
    rewrite (sumQ_three_points (2 * L * vd)
               ((bi - 1) * vd + a) r ((bi + 1) * vd + a)
               (0 <? local) (local <? L - 1)
               (inject_Z (if local =? L - 1 then 1 else 2) * w)
               (- w) (- w) (Locomanip.adjacent_reg_mat_ p r) c);
      try (subst r; lia).
    - unfold Closed.laplacian.
      replace (chain * vd + (local * vd + a)) with r
        by (subst r; rewrite Hplace; ring).
      replace (chain * vd + ((local - 1) * vd + a)) with ((bi - 1) * vd + a)
        by (rewrite Hplace; ring).
      replace (chain * vd + ((local + 1) * vd + a)) with ((bi + 1) * vd + a)
        by (rewrite Hplace; ring).
      destruct (local =? L - 1); cbn [inject_Z];
        destruct (0 <? local); destruct (local <? L - 1); ring.
    - intros Hlow. apply Z.ltb_lt in Hlow.
      destruct (block_bound vd (2 * L) (bi - 1) a ltac:(lia) Ha)
        as (? & ? & ?). lia.
    - intros Hup. apply Z.ltb_lt in Hup.
      assert (bi + 1 < 2 * L) by lia.
      destruct (block_bound vd (2 * L) (bi + 1) a ltac:(lia) Ha)
        as (? & ? & ?). lia.
    - intros k _. apply Hrow. }
  split.
  - subst qp. cbn [Locomanip.assemble obj_vec_]. unfold Locomanip.objective.
    cbn [snd]. rewrite Hcd, Hidx. unfold Locomanip.vel_dim_. fold vd w c.
    fold target_error.
    unfold segment_sub, head_add, segment_assign, zero_vec.
    replace (2 * L * vd - vd) with ((2 * L - 1) * vd) by ring.
    fold r.
    pose proof (in_block vd 0 bi a Ha) as R1. change (0 * vd) with 0 in R1.
    pose proof (in_block vd L bi a Ha) as R2.
    pose proof (in_block vd (2 * L - 1) bi a Ha) as R3.
    assert (R4 : in_range 0 (2 * L * vd) r = true).
    { unfold in_range. apply andb_true_intro.
      split; [apply Z.leb_le | apply Z.ltb_lt]; subst r; lia. }
    fold r in R1, R2, R3. rewrite R1, R2, R3, R4.
    subst local chain start_error.
    destruct (Z.eqb_spec bi L) as [EL | HbL].
    + replace (bi <? L) with false in * by (symmetry; apply Z.ltb_ge; lia).
      replace (bi - L =? 0) with true in * by (symmetry; apply Z.eqb_eq; lia).
      replace (bi =? 0) with false by (symmetry; apply Z.eqb_neq; lia).
      replace (r - L * vd) with a by (subst r; rewrite EL; ring).
      rewrite Hgrad, entry_scale.
      destruct (Z.eqb_spec bi (2 * L - 1)) as [E | ?];
        [replace (r - (2 * L - 1) * vd) with a
           by (subst r; rewrite E at 1; ring)|]; ring.
    + destruct (Z.eqb_spec bi 0) as [E0 | Hb0].
      * replace (bi <? L) with true in * by (symmetry; apply Z.ltb_lt; lia).
        replace (bi - 0 =? 0) with true in *
          by (symmetry; apply Z.eqb_eq; lia).
        replace (r - 0) with a by (subst r bi; ring).
        rewrite Hgrad, entry_scale.
        destruct (Z.eqb_spec bi (2 * L - 1)); [lia|]. ring.
      * destruct (Z.ltb_spec bi L).
        -- replace (bi - 0 =? 0) with false in *
             by (symmetry; apply Z.eqb_neq; lia).
           rewrite Hgrad.
           destruct (Z.eqb_spec bi (2 * L - 1)); [lia|]. ring.
        -- replace (bi - L =? 0) with false in *
             by (symmetry; apply Z.eqb_neq; lia).
           rewrite Hgrad.
           destruct (Z.eqb_spec bi (2 * L - 1)) as [E | ?];
             [replace (r - (2 * L - 1) * vd) with a by (subst r; rewrite E; ring)|];
             ring.
  - intros j Hj. subst qp. cbn [Locomanip.assemble obj_vec_].
    assert (Hge : vd <= L * vd) by nia.
    unfold Locomanip.objective. cbn [snd]. rewrite Hcd, Hidx.
    unfold Locomanip.vel_dim_. fold vd.
    unfold segment_sub, head_add, segment_assign, zero_vec, in_range.
    repeat case_if; reflexivity.
Qed.

Lemma locomanip_linear_term_witness :
  let config := Examples.locomanip_config_feet 2 in
  let p := Locomanip.setup R2 config (Flat.locomanip_new [1; 0]%Q) in
  let qp := Locomanip.assemble R2 config (fun _ => (1 # 4)%Q) p in
  1 <= Locomanip.motion_len config
  /\ obj_vec_ qp 8 = 0%Q
  /\ Qeq (obj_vec_ qp 1) (1 # 5).
Proof.
  intros config p qp.
  assert (HL : 1 <= Locomanip.motion_len config) by (simpl; lia).
  destruct (locomanip_linear_term
              (Flat.manifold 2) R2 config (fun _ => (1 # 4)%Q)
              (Flat.constant_solver zero_vec) p 0 1 HL
              (Locomanip.configured_setup R2 config (fun _ => (1 # 4)%Q)
                 (Flat.constant_solver zero_vec)
                 (Flat.locomanip_new [1; 0]%Q))
              ltac:(simpl; lia) ltac:(simpl; lia))
    as [Hvec Hslack].
  split; [exact HL|]. split.
  - apply Hslack. simpl. lia.
  - etransitivity; [exact Hvec|]. vm_compute. reflexivity.
Defined.

(** ** The errors of [setupSampling] *)

Section SamplingErrors.
Import RmapSamplingRun.

(** A joint that [setupSampling] cannot set up: the robot does not know its
    name, or has no lower or no upper limit for it. *)
Let unusable (rb : Robot) (joint_name : string) : Prop :=
  (exists what, jointIndexByName rb joint_name = Throw what)
  \/ limits_lower rb joint_name = None
  \/ limits_upper rb joint_name = None.

Lemma setup_joints_throws (rb : Robot) (joint_name_list : list string) :
  (exists what, setup_joints rb joint_name_list = Throw what)
  <-> Exists (unusable rb) joint_name_list.
Proof.
  induction joint_name_list as [|name rest IH]; simpl.
  - split; [intros [what H]; discriminate H | intros H; inversion H].
  - unfold limit_at.
    destruct (jointIndexByName rb name) as [idx | what0] eqn:Hidx; simpl.
    2:{ split; [|intros _; now exists what0].
        intros _. apply Exists_cons_hd. left. now exists what0. }
    destruct (limits_lower rb name) as [lo|] eqn:Hlo; simpl.
    2:{ split; [|intros _; now eexists].
        intros _. apply Exists_cons_hd. right. left. exact Hlo. }
    destruct (limits_upper rb name) as [up|] eqn:Hup; simpl.
    2:{ split; [|intros _; now eexists].
        intros _. apply Exists_cons_hd. right. right. exact Hup. }
    destruct (setup_joints rb rest) as [joints | what1]; simpl.
    + split; [intros [what H]; discriminate H|].
      intros H. apply Exists_cons in H. destruct H as [H | H].
      * exfalso. destruct H as [[what H] | [H | H]]; congruence.
      * apply IH in H. destruct H as [what H]. discriminate H.
    + split; [|intros _; now exists what1].
      intros _. apply Exists_cons_tl. apply IH. now exists what1.
Qed.

Lemma setup_joints_length (rb : Robot) (joint_name_list : list string)
      (joints : list (nat * Q * Q)) :
  setup_joints rb joint_name_list = Ok joints ->
  length joints = length joint_name_list.
Proof.
  intros H. apply setup_joints_spec in H.
  induction H; simpl; congruence.
Qed.
End SamplingErrors.

(** X18.  [setupSampling] throws exactly when the robot does not know one
    of the joint names, or has no lower or no upper limit for it.  [run]
    then throws as well, before it has resized, sampled or dumped
    anything.  When [setupSampling] returns, it has one index, one
    coefficient and one offset per joint name, and has left the samples
    alone. *)
Theorem setupSampling_throws_for_unusable_joints
    (M : Manifold) (SamplingSpaceType : SamplingSpace) (sample_dim : nat)
    (body_pose_offset : Pose) (bodyPosW : list (list Q) -> Pose)
    (sampleToCloudPos : Sample -> list Q) (random : nat -> list Q)
    (ros_ok : nat -> bool) (uninitialized : Sample)
    (rb : RmapSamplingRun.Robot) (joint_name_list : list string)
    (sample_num : Z) (st : RmapSamplingRun.Sampler) :
  ((exists what,
      RmapSamplingRun.setupSampling rb joint_name_list st = Throw what)
   <-> Exists (fun joint_name =>
                 (exists what,
                    RmapSamplingRun.jointIndexByName rb joint_name
                    = Throw what)
                 \/ RmapSamplingRun.limits_lower rb joint_name = None
                 \/ RmapSamplingRun.limits_upper rb joint_name = None)
              joint_name_list)
  /\ (forall what,
        RmapSamplingRun.setupSampling rb joint_name_list st = Throw what ->
        RmapSamplingRun.run SamplingSpaceType sample_dim body_pose_offset
          bodyPosW sampleToCloudPos random ros_ok uninitialized
          rb joint_name_list sample_num st
        = Throw what)
  /\ (forall st',
        RmapSamplingRun.setupSampling rb joint_name_list st = Ok st' ->
        length (RmapSamplingRun.joint_idx_list_ st') = length joint_name_list
        /\ length (RmapSamplingRun.joint_pos_coeff_ st')
           = length joint_name_list
        /\ length (RmapSamplingRun.joint_pos_offset_ st')
           = length joint_name_list
        /\ RmapSamplingRun.q_ st' = RmapSamplingRun.q_ st
        /\ RmapSamplingRun.sample_list_ st' = RmapSamplingRun.sample_list_ st
        /\ RmapSamplingRun.reachability_list_ st'
           = RmapSamplingRun.reachability_list_ st).
Proof.
  split; [|split].
  - rewrite <- setup_joints_throws.
    unfold RmapSamplingRun.setupSampling.
    destruct (RmapSamplingRun.setup_joints rb joint_name_list)
      as [joints | what0]; simpl.
    + split; intros [what H]; discriminate H.
    + split; intros _; now exists what0.
  - intros what H. unfold RmapSamplingRun.run. rewrite H. reflexivity.
  - intros st' H. unfold RmapSamplingRun.setupSampling in H.
    destruct (RmapSamplingRun.setup_joints rb joint_name_list)
      as [joints | what0] eqn:Hjoints; simpl in H; [|discriminate H].
    apply setup_joints_length in Hjoints.
    inversion H; subst; clear H. simpl.
    rewrite !length_map. repeat split; assumption.
Qed.

(** ** The joints that [sampleOnce] sets *)

Section SamplingJoints.
Import RmapSamplingRun.

Let set_joints (q : list (list Q)) (idxs : list nat) (poss : list Q)
  : list (list Q) :=
  fold_left (fun q '(idx, pos) => set_joint q idx pos) (zip idxs poss) q.

Lemma set_joint_length (q : list (list Q)) (idx : nat) (pos : Q) :
  length (set_joint q idx pos) = length q.
Proof.
  unfold set_joint. destruct (q !! idx); [apply length_insert | reflexivity].
Qed.

Lemma set_joint_other (q : list (list Q)) (idx j : nat) (pos : Q) :
  j <> idx -> set_joint q idx pos !! j = q !! j.
Proof.
  intros Hne. unfold set_joint. destruct (q !! idx); [|reflexivity].
  apply list_lookup_insert_ne. congruence.
Qed.

Lemma set_joint_same (q : list (list Q)) (idx : nat) (pos : Q)
      (row : list Q) :
  q !! idx = Some row ->
  set_joint q idx pos !! idx = Some (<[0%nat := pos]> row).
Proof.
  intros Hrow. unfold set_joint. rewrite Hrow.
  apply list_lookup_insert_eq. eapply lookup_lt_Some. exact Hrow.
Qed.

Lemma set_joints_length (idxs : list nat) (poss : list Q)
      (q : list (list Q)) :
  length (set_joints q idxs poss) = length q.
Proof.
  unfold set_joints. revert poss q.
  induction idxs as [|idx idxs IH]; intros [|pos poss] q; try reflexivity.
  cbn. rewrite IH. apply set_joint_length.
Qed.

Lemma set_joints_other (idxs : list nat) (poss : list Q)
      (q : list (list Q)) (j : nat) :
  ~ In j idxs -> set_joints q idxs poss !! j = q !! j.
Proof.
  unfold set_joints. revert poss q.
  induction idxs as [|idx idxs IH]; intros [|pos poss] q Hj;
    try reflexivity.
  cbn. rewrite IH by (intros H; apply Hj; now right).
  apply set_joint_other. intros ->. apply Hj. now left.
Qed.

Lemma set_joints_same (idxs : list nat) (poss : list Q)
      (q : list (list Q)) (i idx : nat) (pos : Q) (row : list Q) :
  List.NoDup idxs ->
  idxs !! i = Some idx -> poss !! i = Some pos -> q !! idx = Some row ->
  set_joints q idxs poss !! idx = Some (<[0%nat := pos]> row).
Proof.
  unfold set_joints. revert poss q i.
  induction idxs as [|idx0 idxs IH]; intros [|pos0 poss] q i Hnd Hidx Hpos Hrow;
    try discriminate.
  inversion Hnd as [|? ? Hnotin Hnd']; subst.
  cbn. destruct i as [|i]; cbn in Hidx, Hpos.
  - injection Hidx as ->. injection Hpos as ->.
    change (fold_left _ _ _) with (set_joints (set_joint q idx pos) idxs poss).
    rewrite set_joints_other by exact Hnotin.
    now apply set_joint_same.
  - apply (IH poss _ i Hnd' Hidx Hpos).
    rewrite set_joint_other; [exact Hrow|].
    intros ->. apply Hnotin.
    apply list_elem_of_In. eapply list_elem_of_lookup_2. exact Hidx.
Qed.
End SamplingJoints.

(** X19.  [sampleOnce] writes the drawn positions into the joint
    configuration of the robot: the configuration keeps its size, the
    joints that are not sampled keep their rows, and, the indices of the
    sampled joints being distinct, joint [i] of the list has its drawn
    position in the first entry of its row.  The sample of the body pose
    is stored at [sample_idx] and flagged reachable, its point is appended
    to the cloud of the reachable points, and the cloud of the unreachable
    points stays as it is. *)
Theorem sampleOnce_sets_the_sampled_joints
    (M : Manifold) (body_pose_offset : Pose)
    (bodyPosW : list (list Q) -> Pose) (sampleToCloudPos : Sample -> list Q)
    (random : nat -> list Q) (sample_idx : nat)
    (st : RmapSamplingRun.Sampler) :
  let st' :=
    RmapSamplingRun.sampleOnce body_pose_offset bodyPosW sampleToCloudPos
      random sample_idx st in
  let joint_pos :=
    RmapSamplingRun.joint_positions
      (RmapSamplingRun.joint_pos_coeff_ st)
      (RmapSamplingRun.joint_pos_offset_ st) (random sample_idx) in
  let sample :=
    poseToSample
      (pose_mul body_pose_offset (bodyPosW (RmapSamplingRun.q_ st'))) in
  length (RmapSamplingRun.q_ st') = length (RmapSamplingRun.q_ st)
  /\ (forall j, ~ In j (RmapSamplingRun.joint_idx_list_ st) ->
        RmapSamplingRun.q_ st' !! j = RmapSamplingRun.q_ st !! j)
  /\ (List.NoDup (RmapSamplingRun.joint_idx_list_ st) ->
      forall i idx pos row,
        RmapSamplingRun.joint_idx_list_ st !! i = Some idx ->
        joint_pos !! i = Some pos ->
        RmapSamplingRun.q_ st !! idx = Some row ->
        RmapSamplingRun.q_ st' !! idx = Some (<[0%nat := pos]> row))
  /\ RmapSamplingRun.sample_list_ st'
     = <[sample_idx := sample]> (RmapSamplingRun.sample_list_ st)
  /\ RmapSamplingRun.reachability_list_ st'
     = <[sample_idx := true]> (RmapSamplingRun.reachability_list_ st)
  /\ RmapSamplingRun.reachable_cloud_points_ st'
     = RmapSamplingRun.reachable_cloud_points_ st ++ [sampleToCloudPos sample]
  /\ RmapSamplingRun.unreachable_cloud_points_ st'
     = RmapSamplingRun.unreachable_cloud_points_ st.
Proof.
  intros st' joint_pos sample. subst st' sample.
  unfold RmapSamplingRun.sampleOnce.
  cbn [RmapSamplingRun.q_ RmapSamplingRun.sample_list_
       RmapSamplingRun.reachability_list_
       RmapSamplingRun.reachable_cloud_points_
       RmapSamplingRun.unreachable_cloud_points_].
  fold joint_pos.
  split; [apply set_joints_length|].
  split; [intros j Hj; now apply set_joints_other|].
  split; [|repeat split].
  intros Hnd i idx pos row Hidx Hpos Hrow.
  now apply (set_joints_same _ _ _ i).
Qed.
